(** * Humble Bundle inventory: categorization engine and search provider

    A shallow embedding of

    - [src/humble_bundle_inventory/categorization_engine.py]
      ([CategoryType], [CategoryRule], [PatternMatcher],
      [CategorizationEngine], [CategorizationEngineFactory]), and
    - [src/humble_bundle_inventory/search_provider.py] together with
      [src/humble_bundle_inventory/duckdb_search_provider.py]
      ([SearchProvider.validate_regex], [DuckDBSearchProvider]), and
    - the helpers of the search commands of
      [src/humble_bundle_inventory/main.py] ([_parse_query_string],
      [_build_search_filters], the page arithmetic of the result
      display),

    followed by the properties of the specification that concern them
    and by further properties of the same code.

    Python [float] is IEEE-754 binary64 and is modelled by the primitive
    floats of Rocq ([PrimFloat]); a Python [dict] whose iteration order is
    observable is an association list, the item dictionary is a [gmap];
    exceptions are values of [Exc] threaded through a small monad that also
    records the queries sent to the store. *)

From Stdlib Require Import ZArith List Bool Ascii String Floats Lia.
From stdpp Require Import base option gmap strings pretty.
Import ListNotations.

Set Warnings "-inexact-float".
Local Open Scope string_scope.

(* ===================================================================== *)
(** * Python values and built-ins *)
(* ===================================================================== *)

(** The values an item dictionary holds. *)
Inductive PyValue :=
| PyNone
| PyStr (s : string)
| PyInt (z : Z).

(** Truth value testing: [None], the empty string and [0] are false. *)
Definition truthy (v : PyValue) : bool :=
  match v with
  | PyNone => false
  | PyStr s => negb (String.eqb s "")
  | PyInt z => negb (Z.eqb z 0)
  end.

(** [str(v)]. *)
Definition py_str (v : PyValue) : string :=
  match v with
  | PyNone => "None"
  | PyStr s => s
  | PyInt z => pretty z
  end.

(** [c.lower()] on ASCII text. *)
Definition lower_ascii (c : ascii) : ascii :=
  let n := nat_of_ascii c in
  if (Nat.leb 65 n && Nat.leb n 90)%bool then ascii_of_nat (n + 32) else c.

Fixpoint lower (s : string) : string :=
  match s with
  | EmptyString => EmptyString
  | String c s' => String (lower_ascii c) (lower s')
  end.

(** [sub in s] on strings. *)
Fixpoint contains (sub s : string) : bool :=
  String.prefix sub s
  || match s with
     | EmptyString => false
     | String _ s' => contains sub s'
     end.

(** [sep.join(parts)]. *)
Fixpoint join (sep : string) (parts : list string) : string :=
  match parts with
  | [] => ""
  | [p] => p
  | p :: rest => p ++ sep ++ join sep rest
  end.

(** [repr] of a list of strings, as an f-string interpolates it:
    ['a', 'b']. *)
Definition repr_str_list (l : list string) : string :=
  "[" ++ join ", " (map (fun s => "'" ++ s ++ "'") l) ++ "]".

(** [min(a, b)] on floats: the second argument replaces the first only when
    it is strictly smaller. *)
Definition py_min (a b : float) : float :=
  if PrimFloat.ltb b a then b else a.

(** [max(keys, key=f)] for a non-empty iterable [first :: rest]: a later
    key replaces the running maximum only when its value is strictly
    greater, so the earliest key with the greatest value is returned. *)
Fixpoint py_max_from {K : Type} (f : K -> float) (best : K) (rest : list K) : K :=
  match rest with
  | [] => best
  | k :: rest' =>
      if PrimFloat.ltb (f best) (f k) then py_max_from f k rest'
      else py_max_from f best rest'
  end.

(** Exceptions: [ValueError], [OverflowError], and whatever the store
    raises. *)
Inductive Exc :=
| ValueError (msg : string)
| OverflowError (msg : string)
| StoreError (msg : string).

(** [str(e)]. *)
Definition exc_message (e : Exc) : string :=
  match e with
  | ValueError msg => msg
  | OverflowError msg => msg
  | StoreError msg => msg
  end.

(* ===================================================================== *)
(** * The [re] module *)
(* ===================================================================== *)

(** What [re.compile(p)] does with the text of a pattern: it returns a
    pattern object, raises [re.error], or raises another exception, such
    as the [OverflowError] of a repetition count that is too large. *)
Inductive CompileOutcome :=
| Compiles
| ReError
| Raises (e : Exc).

(** The regular-expression engine is a library the source calls:
    [re_outcome p] is what [re.compile(p)] does, and
    [re_search ic p text] is [bool(re.compile(p, re.IGNORECASE if ic else
    0).search(text))]. *)
Class RegexEngine := {
  re_outcome : string -> CompileOutcome;
  re_search : bool -> string -> string -> bool
}.

(** [re.compile(p)] succeeds. *)
Definition re_valid `{RegexEngine} (p : string) : bool :=
  match re_outcome p with
  | Compiles => true
  | _ => false
  end.

(** A compiled pattern object. *)
Record Pattern := mkPattern {
  pattern_source : string;
  pattern_ignorecase : bool
}.

Definition search `{RegexEngine} (p : Pattern) (text : string) : bool :=
  re_search (pattern_ignorecase p) (pattern_source p) text.

(** [re.compile(source, flags)] where the source lets the exception
    pass: [None] stands for the exception raised. *)
Definition re_compile `{RegexEngine} (source : string) (ignorecase : bool)
  : option Pattern :=
  if re_valid source then Some (mkPattern source ignorecase) else None.

(** ** A concrete engine for a fragment of the pattern language

    Enough of Python's syntax to run the default rule set: literal
    characters, [.], the classes [\s \d \w], the assertions [\b ^ $],
    escaped punctuation, and the greedy quantifiers [* + ?] on
    single-character atoms. Groups, sets, alternation and counted
    repetition are outside the fragment and rejected by [parse]. *)
Module MiniRe.

Inductive Atom :=
| Lit (c : ascii)
| AnyChar
| Space
| Digit
| Word
| WordBoundary
| Bol
| Eol.

Inductive Quant := One | Star | Plus | Opt.

Definition in_range (lo hi : nat) (c : ascii) : bool :=
  (Nat.leb lo (nat_of_ascii c) && Nat.leb (nat_of_ascii c) hi)%bool.

Definition is_digit (c : ascii) : bool := in_range 48 57 c.
Definition is_alpha (c : ascii) : bool := (in_range 65 90 c || in_range 97 122 c)%bool.
Definition is_word (c : ascii) : bool :=
  (is_alpha c || is_digit c || Ascii.eqb c "_")%bool.
Definition is_space (c : ascii) : bool :=
  (in_range 9 13 c || Ascii.eqb c " ")%bool.

Definition zero_width (a : Atom) : bool :=
  match a with
  | WordBoundary | Bol | Eol => true
  | _ => false
  end.

(** Does the single character [c] match the consuming atom [a]? *)
Definition consumes (ic : bool) (a : Atom) (c : ascii) : bool :=
  match a with
  | Lit l => if ic then Ascii.eqb (lower_ascii l) (lower_ascii c) else Ascii.eqb l c
  | AnyChar => negb (Ascii.eqb c "010")
  | Space => is_space c
  | Digit => is_digit c
  | Word => is_word c
  | WordBoundary | Bol | Eol => false
  end.

Definition word_before (prev : option ascii) : bool :=
  match prev with Some c => is_word c | None => false end.

Definition word_after (text : string) : bool :=
  match text with String c _ => is_word c | EmptyString => false end.

(** Does the zero-width atom [a] hold between [prev] and [text]? *)
Definition holds_at (a : Atom) (prev : option ascii) (text : string) : bool :=
  match a with
  | WordBoundary => xorb (word_before prev) (word_after text)
  | Bol => match prev with None => true | Some _ => false end
  | Eol => (String.eqb text "" || String.eqb text (String "010" ""))%bool
  | _ => false
  end.

Definition Cont := option ascii -> string -> bool.

Definition step (ic : bool) (a : Atom) (k : Cont) : Cont :=
  fun prev text =>
    if zero_width a then (holds_at a prev text && k prev text)%bool
    else match text with
         | String c text' => (consumes ic a c && k (Some c) text')%bool
         | EmptyString => false
         end.

Fixpoint star (ic : bool) (a : Atom) (k : Cont) (prev : option ascii)
         (text : string) : bool :=
  match text with
  | String c text' =>
      (consumes ic a c && star ic a k (Some c) text') || k prev text
  | EmptyString => k prev text
  end.

(** Match the items at the current position. *)
Fixpoint match_here (ic : bool) (items : list (Atom * Quant)) : Cont :=
  match items with
  | [] => fun _ _ => true
  | (a, q) :: rest =>
      let k := match_here ic rest in
      match q with
      | One => step ic a k
      | Star => star ic a k
      | Plus => step ic a (star ic a k)
      | Opt => fun prev text => (step ic a k prev text || k prev text)%bool
      end
  end.

(** [search]: try every start position, left to right. *)
Fixpoint search_from (ic : bool) (items : list (Atom * Quant))
         (prev : option ascii) (text : string) : bool :=
  match_here ic items prev text
  || match text with
     | String c text' => search_from ic items (Some c) text'
     | EmptyString => false
     end.

Definition atom_of_escape (c : ascii) : option Atom :=
  if Ascii.eqb c "b" then Some WordBoundary
  else if Ascii.eqb c "s" then Some Space
  else if Ascii.eqb c "d" then Some Digit
  else if Ascii.eqb c "w" then Some Word
  else if (is_alpha c || is_digit c)%bool then None
  else Some (Lit c).

Definition is_special (c : ascii) : bool :=
  existsb (Ascii.eqb c) (list_ascii_of_string "*+?()[]{}|").

Definition quantified (a : Atom) (q : Quant) (rest : option (list (Atom * Quant)))
  : option (list (Atom * Quant)) :=
  match rest with
  | Some items =>
      match q with
      | One => Some ((a, q) :: items)
      | _ => if zero_width a then None else Some ((a, q) :: items)
      end
  | None => None
  end.

Fixpoint parse (s : string) : option (list (Atom * Quant)) :=
  match s with
  | EmptyString => Some []
  | String c s1 =>
      if Ascii.eqb c "\" then
        match s1 with
        | EmptyString => None
        | String e s2 =>
            match atom_of_escape e with
            | None => None
            | Some a =>
                match s2 with
                | String "*" s3 => quantified a Star (parse s3)
                | String "+" s3 => quantified a Plus (parse s3)
                | String "?" s3 => quantified a Opt (parse s3)
                | _ => quantified a One (parse s2)
                end
            end
        end
      else if is_special c then None
      else
        let a := if Ascii.eqb c "." then AnyChar
                 else if Ascii.eqb c "^" then Bol
                 else if Ascii.eqb c "$" then Eol
                 else Lit c in
        match s1 with
        | String "*" s3 => quantified a Star (parse s3)
        | String "+" s3 => quantified a Plus (parse s3)
        | String "?" s3 => quantified a Opt (parse s3)
        | _ => quantified a One (parse s1)
        end
  end.

Definition valid (p : string) : bool :=
  match parse p with Some _ => true | None => false end.

Definition search (ic : bool) (p text : string) : bool :=
  match parse p with
  | Some items => search_from ic items None text
  | None => false
  end.

End MiniRe.

#[export] Instance mini_re : RegexEngine := {|
  re_outcome := fun p => if MiniRe.valid p then Compiles else ReError;
  re_search := MiniRe.search
|}.

(* ===================================================================== *)
(** * categorization_engine.py *)
(* ===================================================================== *)

(** [class CategoryType(Enum)], members in declaration order. *)
Inductive CategoryType :=
| EBOOK
| GAME
| SOFTWARE
| AUDIO
| VIDEO
| COMIC
| BUNDLE
| SUBSCRIPTION_CONTENT
| UNKNOWN.

(** The [value] of a member. *)
Definition category_value (c : CategoryType) : string :=
  match c with
  | EBOOK => "ebook"
  | GAME => "game"
  | SOFTWARE => "software"
  | AUDIO => "audio"
  | VIDEO => "video"
  | COMIC => "comic"
  | BUNDLE => "bundle"
  | SUBSCRIPTION_CONTENT => "subscription_content"
  | UNKNOWN => "unknown"
  end.

(** Iterating [CategoryType] yields the members in declaration order; the
    first member is kept apart so that [max] has its non-empty iterable. *)
Definition first_category : CategoryType := EBOOK.
Definition later_categories : list CategoryType :=
  [GAME; SOFTWARE; AUDIO; VIDEO; COMIC; BUNDLE; SUBSCRIPTION_CONTENT; UNKNOWN].
Definition all_categories : list CategoryType := first_category :: later_categories.

Definition category_eqb (a b : CategoryType) : bool :=
  match a, b with
  | EBOOK, EBOOK | GAME, GAME | SOFTWARE, SOFTWARE | AUDIO, AUDIO
  | VIDEO, VIDEO | COMIC, COMIC | BUNDLE, BUNDLE
  | SUBSCRIPTION_CONTENT, SUBSCRIPTION_CONTENT | UNKNOWN, UNKNOWN => true
  | _, _ => false
  end.

(** [@dataclass CategoryRule]. [field_weights] is a dict iterated with
    [.items()], so its insertion order is kept. *)
Record CategoryRule := mkRule {
  name : string;
  category : CategoryType;
  subcategory : string;
  patterns : list string;
  weight : float;
  field_weights : list (string * float);
  required_patterns : option (list string);
  exclusion_patterns : option (list string)
}.

(** [@dataclass CategoryResult]. *)
Record CategoryResult := mkResult {
  result_category : CategoryType;
  result_subcategory : string;
  confidence : float;
  method : string;
  matched_rules : list string;
  scores : CategoryType -> float
}.

(** An item is a [Dict[str, Any]]. *)
Abbreviation Item := (gmap string PyValue).

(** A [Dict[CategoryType, float]] that has every member as a key, such as
    [{cat: 0.0 for cat in CategoryType}], is a total function on the
    enumeration; its key order is [all_categories]. *)
Definition Scores := CategoryType -> float.

Definition zero_scores : Scores := fun _ => 0%float.

(** [scores[cat] += x]. *)
Definition add_score (scores : Scores) (cat : CategoryType) (x : float) : Scores :=
  fun c => if category_eqb c cat then (scores c + x)%float else scores c.

(** [if xs:] on an optional list: [None] and [[]] are false. *)
Definition nonempty {A : Type} (xs : option (list A)) : bool :=
  match xs with
  | Some (_ :: _) => true
  | _ => false
  end.

(** [field in item and item[field]], giving the value when it holds. *)
Definition present (item : Item) (field : string) : option PyValue :=
  match item !! field with
  | Some v => if truthy v then Some v else None
  | None => None
  end.

(** A rule after [_compile_patterns] has run on it: the rule and the
    pattern objects stored on it. [_compiled_required] and
    [_compiled_exclusions] are only set (and only read) when the
    corresponding list of the rule is non-empty. *)
Record CompiledRule := mkCompiled {
  rule : CategoryRule;
  _compiled_patterns : list Pattern;
  _compiled_required : list Pattern;
  _compiled_exclusions : list Pattern
}.

(** Which [return] statement of [_score_rule] produced the score. *)
Inductive ScoreExit :=
| RequiredNotFound
| ExclusionFound
| Scored.

Section Categorization.

Context `{RegexEngine}.

(** [[re.compile(p, re.IGNORECASE) for p in ps]]; [None] when some
    pattern does not compile. *)
Fixpoint compile_all (ps : list string) : option (list Pattern) :=
  match ps with
  | [] => Some []
  | p :: ps' =>
      match re_compile p true with
      | Some c =>
          match compile_all ps' with
          | Some cs => Some (c :: cs)
          | None => None
          end
      | None => None
      end
  end.

Definition compile_optional (ps : option (list string)) : option (list Pattern) :=
  if nonempty ps then compile_all (default [] ps) else Some [].

Definition compile_rule (r : CategoryRule) : option CompiledRule :=
  match compile_all (patterns r) with
  | Some ps =>
      match compile_optional (required_patterns r) with
      | Some req =>
          match compile_optional (exclusion_patterns r) with
          | Some exc => Some (mkCompiled r ps req exc)
          | None => None
          end
      | None => None
      end
  | None => None
  end.

(** [PatternMatcher._compile_patterns] over [self.rules]. *)
Fixpoint _compile_patterns (rules : list CategoryRule) : option (list CompiledRule) :=
  match rules with
  | [] => Some []
  | r :: rules' =>
      match compile_rule r with
      | Some c =>
          match _compile_patterns rules' with
          | Some cs => Some (c :: cs)
          | None => None
          end
      | None => None
      end
  end.

(** [PatternMatcher._matches_in_item]. *)
Definition searchable_item_fields : list string :=
  ["name"; "human_name"; "description"; "machine_name"].

Definition _matches_in_item (pattern : Pattern) (item : Item) : bool :=
  existsb
    (fun field =>
       match present item field with
       | Some v => search pattern (lower (py_str v))
       | None => false
       end)
    searchable_item_fields.

(** The innermost loop of [_score_rule]: one pattern against every
    weighted field, adding to [total_score]. *)
Fixpoint score_fields (w : float) (pattern : Pattern) (item : Item)
         (fws : list (string * float)) (total_score : float) : float :=
  match fws with
  | [] => total_score
  | (field, field_weight) :: fws' =>
      let total_score' :=
        match present item field with
        | Some v =>
            if search pattern (lower (py_str v))
            then (total_score + w * field_weight)%float
            else total_score
        | None => total_score
        end in
      score_fields w pattern item fws' total_score'
  end.

Fixpoint score_patterns (w : float) (ps : list Pattern) (item : Item)
         (fws : list (string * float)) (total_score : float) : float :=
  match ps with
  | [] => total_score
  | p :: ps' => score_patterns w ps' item fws (score_fields w p item fws total_score)
  end.

(** [PatternMatcher._score_rule], with the exit taken. *)
Definition _score_rule_exit (r : CompiledRule) (item : Item) : ScoreExit * float :=
  if nonempty (required_patterns (rule r))
     && negb (forallb (fun p => _matches_in_item p item) (_compiled_required r))
  then (RequiredNotFound, 0%float)
  else if nonempty (exclusion_patterns (rule r))
          && existsb (fun p => _matches_in_item p item) (_compiled_exclusions r)
  then (ExclusionFound, 0%float)
  else (Scored,
        score_patterns (weight (rule r)) (_compiled_patterns r) item
                       (field_weights (rule r)) 0%float).

Definition _score_rule (r : CompiledRule) (item : Item) : float :=
  snd (_score_rule_exit r item).

(** [PatternMatcher.match]: the loop over the rules. *)
Fixpoint match_rules (rules : list CompiledRule) (item : Item) (scores : Scores)
  : Scores :=
  match rules with
  | [] => scores
  | r :: rules' =>
      match_rules rules' item (add_score scores (category (rule r)) (_score_rule r item))
  end.

Definition PatternMatcher_match (rules : list CompiledRule) (item : Item) : Scores :=
  match_rules rules item zero_scores.

(** [class CategoryMatcher(ABC)]: the pattern matcher, or any other
    strategy, known by its type name and its [match] method, whose
    result is read through [.items()]. *)
Inductive CategoryMatcher :=
| PatternMatcher (rules : list CompiledRule)
| CustomMatcher (type_name : string) (match_fn : Item -> list (CategoryType * float)).

Definition matcher_type_name (m : CategoryMatcher) : string :=
  match m with
  | PatternMatcher _ => "PatternMatcher"
  | CustomMatcher n _ => n
  end.

(** [matcher.match(item).items()]. *)
Definition match_items (m : CategoryMatcher) (item : Item) : list (CategoryType * float) :=
  match m with
  | PatternMatcher rules =>
      let scores := PatternMatcher_match rules item in
      map (fun c => (c, scores c)) all_categories
  | CustomMatcher _ f => f item
  end.

(** [class CategorizationEngine]. *)
Record CategorizationEngine := mkEngine {
  matchers : list CategoryMatcher;
  rules : list CategoryRule
}.

(** [for cat, score in scores.items(): all_scores[cat] += score]. *)
Definition add_items (all_scores : Scores) (items : list (CategoryType * float)) : Scores :=
  fold_left (fun acc cs => add_score acc (fst cs) (snd cs)) items all_scores.

(** The "run all matchers" loop of [categorize]. *)
Definition run_matchers (ms : list CategoryMatcher) (item : Item) : Scores :=
  fold_left (fun acc m => add_items acc (match_items m item)) ms zero_scores.

(** [item.get(key, '')]. *)
Definition get_or_empty (item : Item) (key : string) : PyValue :=
  default (PyStr "") (item !! key).

Definition any_keyword (keywords : list string) (text : string) : bool :=
  existsb (fun keyword => contains keyword text) keywords.

(** [CategorizationEngine._determine_subcategory]. *)
Definition _determine_subcategory (cat : CategoryType) (item : Item) : string :=
  let first := get_or_empty item "name" in
  let chosen := if truthy first then first else get_or_empty item "human_name" in
  let name := lower (py_str chosen) in
  match cat with
  | EBOOK =>
      if any_keyword ["programming"; "coding"; "development"] name then "programming"
      else if any_keyword ["security"; "hacking"; "pentesting"] name then "security"
      else if any_keyword ["cooking"; "recipe"; "kitchen"] name then "cooking"
      else if any_keyword ["gardening"; "garden"; "plant"] name then "gardening"
      else if any_keyword ["art"; "design"; "creative"] name then "arts"
      else if any_keyword ["survival"; "outdoor"; "wilderness"] name then "survival"
      else "general"
  | GAME =>
      if any_keyword ["strategy"; "rts"; "turn-based"] name then "strategy"
      else if any_keyword ["rpg"; "role playing"; "adventure"] name then "rpg"
      else if any_keyword ["simulation"; "simulator"; "sim"] name then "simulation"
      else if any_keyword ["puzzle"; "brain"; "logic"] name then "puzzle"
      else if any_keyword ["action"; "shooter"; "fps"] name then "action"
      else "general"
  | SUBSCRIPTION_CONTENT =>
      if contains "coupon" name then "coupon"
      else if contains "choice" name then "humble_choice"
      else "general"
  | _ => "general"
  end.

(** [CategorizationEngine.categorize]. *)
Definition categorize (engine : CategorizationEngine) (item : Item) : CategoryResult :=
  let all_scores := run_matchers (matchers engine) item in
  let matched_rules : list string := [] in
  let methods := map matcher_type_name (matchers engine) in
  let best_category := py_max_from all_scores first_category later_categories in
  let confidence := py_min (all_scores best_category) 1%float in
  let subcategory := _determine_subcategory best_category item in
  {| result_category := best_category;
     result_subcategory := subcategory;
     confidence := confidence;
     method := join "+" methods;
     matched_rules := matched_rules;
     scores := all_scores |}.

(** [CategorizationEngine._load_default_rules]. *)
Definition _load_default_rules : list CategoryRule :=
  [ mkRule "ebook_keywords" EBOOK "general"
      ["\bbook\b"; "\bguide\b"; "\bmanual\b"; "\btutorial\b"; "\bhandbook\b"]
      1.0%float
      [("name", 0.8%float); ("human_name", 0.8%float);
       ("description", 0.3%float); ("machine_name", 0.5%float)]
      None None;
    mkRule "ebook_programming" EBOOK "programming"
      ["\bprogramming\b"; "\bcoding\b"; "\bdevelopment\b"; "\bpython\b";
       "\bjava\b"; "\bjavascript\b"]
      1.2%float
      [("name", 0.9%float); ("human_name", 0.9%float); ("description", 0.4%float)]
      None None;
    mkRule "ebook_security" EBOOK "security"
      ["\bsecurity\b"; "\bhacking\b"; "\bpentesting\b"; "\bcyber\b"; "\bmalware\b"]
      1.2%float
      [("name", 0.9%float); ("human_name", 0.9%float); ("description", 0.4%float)]
      None None;
    mkRule "game_keywords" GAME "general"
      ["\bgame\b"; "\badventure\b"; "\bquest\b"; "\blegend\b"]
      1.0%float
      [("name", 0.8%float); ("human_name", 0.8%float); ("description", 0.3%float)]
      None None;
    mkRule "game_strategy" GAME "strategy"
      ["\bstrategy\b"; "\brts\b"; "\bturn.based\b"; "\bcivilization\b"; "\bwar\b"]
      1.1%float
      [("name", 0.9%float); ("human_name", 0.9%float); ("description", 0.4%float)]
      None None;
    mkRule "software_keywords" SOFTWARE "general"
      ["\bsoftware\b"; "\btool\b"; "\butility\b"; "\bapp\b"; "\bsuite\b"; "\bstudio\b"]
      1.0%float
      [("name", 0.8%float); ("human_name", 0.8%float); ("description", 0.3%float)]
      None None;
    mkRule "audio_keywords" AUDIO "general"
      ["\bsoundtrack\b"; "\bmusic\b"; "\baudio\b"; "\bmp3\b"; "\balbum\b"]
      1.0%float
      [("name", 0.8%float); ("human_name", 0.8%float); ("description", 0.3%float)]
      None None;
    mkRule "subscription_coupons" SUBSCRIPTION_CONTENT "coupon"
      ["\bcoupon\b"; "\bdiscount\b"; "\%\s*off\b"]
      2.0%float
      [("name", 1.0%float); ("human_name", 1.0%float); ("machine_name", 0.8%float)]
      None None;
    mkRule "subscription_choice" SUBSCRIPTION_CONTENT "humble_choice"
      ["\bchoice\b"; "\bsubscription\b"]
      1.8%float
      [("name", 1.0%float); ("human_name", 1.0%float); ("machine_name", 0.8%float)]
      None None ].

(** [PatternMatcher(rules)]: [None] when a pattern does not compile. *)
Definition new_PatternMatcher (rs : list CategoryRule) : option CategoryMatcher :=
  option_map PatternMatcher (_compile_patterns rs).

(** [CategorizationEngine.__init__]. *)
Definition new_CategorizationEngine : option CategorizationEngine :=
  let rs := _load_default_rules in
  match new_PatternMatcher rs with
  | Some pm => Some {| matchers := [pm]; rules := rs |}
  | None => None
  end.

(** [CategorizationEngine.add_matcher]. *)
Definition add_matcher (engine : CategorizationEngine) (m : CategoryMatcher)
  : CategorizationEngine :=
  {| matchers := (matchers engine ++ [m])%list; rules := rules engine |}.

(** The loop of [add_rule] that replaces the first pattern matcher. *)
Fixpoint replace_first_pattern_matcher (pm : CategoryMatcher) (ms : list CategoryMatcher)
  : list CategoryMatcher :=
  match ms with
  | [] => []
  | PatternMatcher _ :: ms' => pm :: ms'
  | m :: ms' => m :: replace_first_pattern_matcher pm ms'
  end.

(** [CategorizationEngine.add_rule]. [None] stands for the exception of
    [re.compile]; it leaves the Python object unusable, since the rule is
    by then in the list the engine shares with its pattern matcher, whose
    [match] fails on a rule that was never compiled. Only the engine a
    successful call gives is used further. *)
Definition add_rule (engine : CategorizationEngine) (r : CategoryRule)
  : option CategorizationEngine :=
  let rs := (rules engine ++ [r])%list in
  match new_PatternMatcher rs with
  | Some pm =>
      Some {| matchers := replace_first_pattern_matcher pm (matchers engine);
              rules := rs |}
  | None => None
  end.

(** [CategorizationEngineFactory.create_humble_bundle_engine]. *)
Definition humble_rules : list CategoryRule :=
  [ mkRule "humble_bundle_specific" BUNDLE "humble_bundle"
      ["\bbundle\b"; "\bhumble\b"]
      1.5%float
      [("name", 1.0%float); ("human_name", 1.0%float)]
      None None ].

Definition create_humble_bundle_engine : option CategorizationEngine :=
  fold_left
    (fun engine r =>
       match engine with
       | Some e => add_rule e r
       | None => None
       end)
    humble_rules new_CategorizationEngine.

(** [CategorizationEngineFactory.create_generic_engine]. *)
Definition create_generic_engine : option CategorizationEngine :=
  new_CategorizationEngine.

End Categorization.

(* ===================================================================== *)
(** * The store *)
(* ===================================================================== *)

(** A row of the fixed search projection, in the order of the SELECT
    list: [row[0]] is [product_id], [row[1]] is [human_name], ...,
    [row[13]] is [file_size_display]. A column that is NULL reads as
    [None]. *)
Record Row := mkRow {
  row_product_id : string;                 (* row[0] *)
  row_human_name : option string;          (* row[1] *)
  row_category : option string;            (* row[2] *)
  row_subcategory : option string;         (* row[3] *)
  row_developer : option string;           (* row[4] *)
  row_publisher : option string;           (* row[5] *)
  row_tags : option string;                (* row[6] *)
  row_rating : option float;               (* row[7] *)
  row_release_date : option string;        (* row[8] *)
  row_source_name : option string;         (* row[9] *)
  row_bundle_name : option string;         (* row[10] *)
  row_platform : option string;            (* row[11] *)
  row_download_type : option string;       (* row[12] *)
  row_file_size_display : option string    (* row[13] *)
}.

(** The text the provider appends to the fixed
    [SELECT ... FROM products p JOIN ... LEFT JOIN downloads d ...] head,
    piece by piece; every condition carries its [?] placeholders. *)
Inductive SqlCond :=
| AnyTextILike                 (* (p.human_name ILIKE ? OR p.description ILIKE ? OR p.tags ILIKE ?) *)
| FieldILike (field : string)  (* p.{field} ILIKE ? *)
| CategoryEq                   (* p.category = ? *)
| SourceEq                     (* a.source_name = ? *)
| PlatformEq                   (* d.platform = ? *)
| RatingGe                     (* p.rating >= ? *)
| RatingLe.                    (* p.rating <= ? *)

Inductive SqlToken :=
| WHERE
| Operator (op : string)       (* " AND ", " OR " *)
| Cond (c : SqlCond)
| ORDER_BY_HUMAN_NAME.

Definition Sql := list SqlToken.

Inductive Param :=
| PText (s : string)
| PNum (x : float).

(** The connection: what [self.conn.execute(...)] followed by a fetch
    gives, for the search queries and for the four statistics queries.
    A failing query raises. *)
Record Connection := mkConnection {
  execute : Sql -> list Param -> Exc + list Row;
  count_products : Exc + Z;
  count_bundles : Exc + Z;
  category_stats : Exc + list (option string * Z);
  source_stats : Exc + list (option string * Z)
}.

(** A query sent to the store. *)
Inductive StoreCall :=
| CallExecute (sql : Sql) (params : list Param)
| CallCountProducts
| CallCountBundles
| CallCategoryStats
| CallSourceStats.

(** Computations that may query the store and may raise: the calls made,
    in order, and the outcome. *)
Definition DB (A : Type) : Type := Connection -> list StoreCall * (Exc + A).

Definition ret {A : Type} (a : A) : DB A := fun _ => ([], inr a).

Definition raise {A : Type} (e : Exc) : DB A := fun _ => ([], inl e).

Definition bind {A B : Type} (m : DB A) (k : A -> DB B) : DB B :=
  fun conn =>
    match m conn with
    | (calls, inl e) => (calls, inl e)
    | (calls, inr a) =>
        let '(calls', r) := k a conn in ((calls ++ calls')%list, r)
    end.

(** [try: body except Exception as e: handler(e)]. *)
Definition try_except {A : Type} (body : DB A) (handler : Exc -> DB A) : DB A :=
  fun conn =>
    match body conn with
    | (calls, inl e) =>
        let '(calls', r) := handler e conn in ((calls ++ calls')%list, r)
    | (calls, inr a) => (calls, inr a)
    end.

Definition call {A : Type} (c : StoreCall) (answer : Connection -> Exc + A) : DB A :=
  fun conn => ([c], answer conn).

(** A step that does not touch the store. *)
Definition lift {A : Type} (r : Exc + A) : DB A := fun _ => ([], r).

Notation "'let*' x ':=' m 'in' k" := (bind m (fun x => k))
  (at level 10, x pattern, m at level 100, k at level 200).

Definition calls_of {A : Type} (r : list StoreCall * (Exc + A)) : list StoreCall := fst r.
Definition outcome {A : Type} (r : list StoreCall * (Exc + A)) : Exc + A := snd r.

(** ** A store held in memory

    The relation [products p JOIN asset_sources a ... LEFT JOIN downloads
    d] as a list of joined records: the projected columns and
    [p.description], which the SELECT list leaves out. *)
Record StoredRow := mkStored {
  projection : Row;
  description : option string
}.

(** [text LIKE pat]: [%] stands for any run of characters, [_] for one. *)
Fixpoint like (pat text : string) {struct pat} : bool :=
  match pat with
  | EmptyString => String.eqb text ""
  | String c pat' =>
      if Ascii.eqb c "%" then
        (fix any (t : string) : bool :=
           like pat' t
           || match t with
              | String _ t' => any t'
              | EmptyString => false
              end) text
      else
        match text with
        | String d text' =>
            ((Ascii.eqb c "_" || Ascii.eqb c d) && like pat' text')%bool
        | EmptyString => false
        end
  end.

(** [col ILIKE ?]: a NULL column satisfies no condition. *)
Definition ilike (col : option string) (pat : string) : bool :=
  match col with
  | Some text => like (lower pat) (lower text)
  | None => false
  end.

Definition text_eq (col : option string) (v : string) : bool :=
  match col with
  | Some text => String.eqb text v
  | None => false
  end.

(** The columns of [products] a field condition can name. *)
Definition products_column (field : string) (r : StoredRow) : option (option string) :=
  if String.eqb field "human_name" then Some (row_human_name (projection r))
  else if String.eqb field "description" then Some (description r)
  else if String.eqb field "category" then Some (row_category (projection r))
  else if String.eqb field "subcategory" then Some (row_subcategory (projection r))
  else if String.eqb field "developer" then Some (row_developer (projection r))
  else if String.eqb field "publisher" then Some (row_publisher (projection r))
  else if String.eqb field "tags" then Some (row_tags (projection r))
  else None.

(** [a <= b] on DOUBLE values in the store, which orders NaN above every
    number and equal to itself. *)
Definition store_le (a b : float) : bool :=
  if is_nan b then true
  else if is_nan a then false
  else PrimFloat.leb a b.

(** One condition on one record, with the parameters it binds: the truth
    value and the parameters left, or [None] when the statement is
    rejected (unknown column, missing or ill-typed parameter). *)
Definition eval_cond (c : SqlCond) (params : list Param) (r : StoredRow)
  : option (bool * list Param) :=
  match c, params with
  | AnyTextILike, PText p1 :: PText p2 :: PText p3 :: rest =>
      Some ((ilike (row_human_name (projection r)) p1
             || ilike (description r) p2
             || ilike (row_tags (projection r)) p3)%bool, rest)
  | FieldILike field, PText p :: rest =>
      match products_column field r with
      | Some col => Some (ilike col p, rest)
      | None => None
      end
  | CategoryEq, PText v :: rest => Some (text_eq (row_category (projection r)) v, rest)
  | SourceEq, PText v :: rest => Some (text_eq (row_source_name (projection r)) v, rest)
  | PlatformEq, PText v :: rest => Some (text_eq (row_platform (projection r)) v, rest)
  | RatingGe, PNum x :: rest =>
      Some (match row_rating (projection r) with
            | Some rating => store_le x rating
            | None => false
            end, rest)
  | RatingLe, PNum x :: rest =>
      Some (match row_rating (projection r) with
            | Some rating => store_le rating x
            | None => false
            end, rest)
  | _, _ => None
  end.

(** The WHERE expression [cond op cond op ...] on one record; AND binds
    tighter than OR. [acc] is the value of the conjunction being read. *)
Fixpoint eval_where (toks : Sql) (params : list Param) (r : StoredRow) (acc : bool)
  : option bool :=
  match toks with
  | [] => Some acc
  | Cond c :: rest =>
      match eval_cond c params r with
      | Some (b, params') => eval_where rest params' r (acc && b)
      | None => None
      end
  | Operator op :: rest =>
      if String.eqb op "AND" then eval_where rest params r acc
      else if String.eqb op "OR" then
        match eval_where rest params r true with
        | Some b => Some (acc || b)
        | None => None
        end
      else None
  | _ => None
  end.

(** Split the trailing ORDER BY from a statement. *)
Fixpoint strip_order_by (sql : Sql) : Sql * bool :=
  match sql with
  | [] => ([], false)
  | [ORDER_BY_HUMAN_NAME] => ([], true)
  | t :: rest => let '(body, ordered) := strip_order_by rest in (t :: body, ordered)
  end.

(** [ORDER BY p.human_name]: ascending, NULLs last, ties in the order of
    the relation. *)
Definition name_le (a b : StoredRow) : bool :=
  match row_human_name (projection a), row_human_name (projection b) with
  | Some x, Some y => String.leb x y
  | Some _, None => true
  | None, Some _ => false
  | None, None => true
  end.

Fixpoint insert_by_name (x : StoredRow) (l : list StoredRow) : list StoredRow :=
  match l with
  | [] => [x]
  | y :: l' => if name_le x y then x :: y :: l' else y :: insert_by_name x l'
  end.

Fixpoint order_by_human_name (l : list StoredRow) : list StoredRow :=
  match l with
  | [] => []
  | x :: l' => insert_by_name x (order_by_human_name l')
  end.

(** Keep the records on which the WHERE expression is true; [None] when
    it is rejected on some record. *)
Fixpoint select_where (toks : Sql) (params : list Param) (table : list StoredRow)
  : option (list StoredRow) :=
  match table with
  | [] => Some []
  | r :: table' =>
      match eval_where toks params r true, select_where toks params table' with
      | Some b, Some rows => Some (if b then r :: rows else rows)
      | _, _ => None
      end
  end.

Definition execute_on_table (table : list StoredRow) (sql : Sql) (params : list Param)
  : Exc + list Row :=
  let '(body, ordered) := strip_order_by sql in
  let selected :=
    match body with
    | [] => Some table
    | WHERE :: toks => select_where toks params table
    | _ => None
    end in
  match selected with
  | Some rows =>
      inr (map projection (if ordered then order_by_human_name rows else rows))
  | None => inl (StoreError "the statement was rejected")
  end.

(** A connection to a store that holds [table] (and answers the counting
    queries with the given figures). *)
Definition table_connection (table : list StoredRow) (products bundles : Z)
           (by_category by_source : list (option string * Z)) : Connection :=
  {| execute := execute_on_table table;
     count_products := inr products;
     count_bundles := inr bundles;
     category_stats := inr by_category;
     source_stats := inr by_source |}.

(* ===================================================================== *)
(** * search_provider.py and duckdb_search_provider.py *)
(* ===================================================================== *)

(** The [filters] dictionary, by its fixed keys; a key that is absent (or
    maps to [None]) reads as [None]. *)
Record Filters := mkFilters {
  filter_category : option string;
  filter_source : option string;
  filter_platform : option string;
  filter_rating_min : option float;
  filter_rating_max : option float
}.

Definition no_filters : Filters := mkFilters None None None None None.

(** [filters.get(key)] when it is true: a non-empty string, a number
    other than zero. *)
Definition get_text (v : option string) : option string :=
  match v with
  | Some s => if String.eqb s "" then None else Some s
  | None => None
  end.

Definition get_number (v : option float) : option float :=
  match v with
  | Some x => if PrimFloat.eqb x 0 then None else Some x
  | None => None
  end.

Definition is_set {A : Type} (v : option A) : bool :=
  match v with
  | Some _ => true
  | None => false
  end.

(** [if filters:] for an optional dictionary: false for [None] and for the
    dictionary without keys. *)
Definition has_keys (filters : option Filters) : bool :=
  match filters with
  | Some f =>
      (is_set (filter_category f) || is_set (filter_source f)
       || is_set (filter_platform f) || is_set (filter_rating_min f)
       || is_set (filter_rating_max f))%bool
  | None => false
  end.

(** A formatted result: the dictionary [_format_results] builds for a
    row, by its fixed keys. *)
Record Asset := mkAsset {
  product_id : string;
  human_name : option string;
  asset_category : option string;
  asset_subcategory : option string;
  developer : option string;
  publisher : option string;
  tags : option string;
  rating : option float;
  release_date : option string;
  source_name : option string;
  bundle_name : option string;
  platform : option string;
  download_type : option string;
  file_size_display : option string
}.

(** The values of the dictionary [get_search_stats] returns. *)
Inductive StatValue :=
| SInt (n : Z)
| SText (s : string)
| SFields (fields : list string)
| SDistribution (key : string) (rows : list (option string * Z)).

Section SearchProvider.

Context `{RegexEngine}.

(** [self.searchable_fields], set by [__init__]. *)
Definition searchable_fields : list string :=
  ["human_name"; "description"; "category"; "subcategory";
   "developer"; "publisher"; "tags"; "bundle_name"].

(** [field in self.searchable_fields]. *)
Definition is_searchable (field : string) : bool :=
  existsb (String.eqb field) searchable_fields.

(** [SearchProvider.validate_regex]: [re.error] is caught and gives
    [False]; any other exception of [re.compile] passes through. *)
Definition validate_regex (pattern : string) : Exc + bool :=
  match re_outcome pattern with
  | Compiles => inr true
  | ReError => inr false
  | Raises e => inl e
  end.

(** [re.compile(query, re.IGNORECASE if not case_sensitive else 0)],
    reached only after [validate_regex] accepted [query]. *)
Definition compile_query (query : string) (case_sensitive : bool) : Pattern :=
  mkPattern query (negb case_sensitive).

(** [self.conn.execute(sql, params).fetchall()]. *)
Definition fetchall (sql : Sql) (params : list Param) : DB (list Row) :=
  call (CallExecute sql params) (fun conn => execute conn sql params).

(** ["WHERE" in sql.upper()]. *)
Definition has_where (sql : Sql) : bool :=
  existsb (fun t => match t with WHERE => true | _ => false end) sql.

(** [" AND ".join(conditions)], and the same with any operator. *)
Fixpoint join_conditions (op : string) (conds : list SqlCond) : Sql :=
  match conds with
  | [] => []
  | [c] => [Cond c]
  | c :: rest => Cond c :: Operator op :: join_conditions op rest
  end.

Definition filter_entry {A : Type} (v : option A) (c : SqlCond) (p : A -> Param)
  : list (SqlCond * Param) :=
  match v with
  | Some a => [(c, p a)]
  | None => []
  end.

(** The conditions [_add_filters_to_sql] collects, each with the
    parameter it appends. *)
Definition filter_conditions (filters : Filters) : list (SqlCond * Param) :=
  (filter_entry (get_text (filter_category filters)) CategoryEq PText
   ++ filter_entry (get_text (filter_source filters)) SourceEq PText
   ++ filter_entry (get_text (filter_platform filters)) PlatformEq PText
   ++ filter_entry (get_number (filter_rating_min filters)) RatingGe PNum
   ++ filter_entry (get_number (filter_rating_max filters)) RatingLe PNum)%list.

(** [DuckDBSearchProvider._add_filters_to_sql]. *)
Definition _add_filters_to_sql (sql : Sql) (params : list Param)
           (filters : option Filters) : Sql * list Param :=
  if negb (has_keys filters) then (sql, params)
  else
    let entries := filter_conditions (default no_filters filters) in
    let params := (params ++ map snd entries)%list in
    match entries with
    | [] => (sql, params)
    | _ =>
        if has_where sql
        then ((sql ++ Operator "AND" :: join_conditions "AND" (map fst entries))%list, params)
        else ((sql ++ WHERE :: join_conditions "AND" (map fst entries))%list, params)
    end.

(** The step shared by every search: [if filters: sql, params =
    self._add_filters_to_sql(sql, params, filters)], then
    [sql += " ORDER BY p.human_name"] and the fetch. *)
Definition fetch_filtered (sql : Sql) (params : list Param) (filters : option Filters)
  : DB (list Row) :=
  let '(sql, params) :=
    if has_keys filters then _add_filters_to_sql sql params filters
    else (sql, params) in
  fetchall (sql ++ [ORDER_BY_HUMAN_NAME])%list params.

(** [DuckDBSearchProvider._format_results]. *)
Definition format_row (row : Row) : Asset :=
  {| product_id := row_product_id row;
     human_name := row_human_name row;
     asset_category := row_category row;
     asset_subcategory := row_subcategory row;
     developer := row_developer row;
     publisher := row_publisher row;
     tags := row_tags row;
     rating := row_rating row;
     release_date := row_release_date row;
     source_name := row_source_name row;
     bundle_name := row_bundle_name row;
     platform := row_platform row;
     download_type := row_download_type row;
     file_size_display := row_file_size_display row |}.

Definition _format_results (results : list Row) : list Asset :=
  map format_row results.

(** [DuckDBSearchProvider._get_field_value]: the lookup in the
    dictionary built from the row; [None] is Python's [None], for a
    NULL column, for ['description'] and for a key that is not there. *)
Definition _get_field_value (row : Row) (field : string) : option string :=
  if String.eqb field "human_name" then row_human_name row
  else if String.eqb field "description" then None
  else if String.eqb field "category" then row_category row
  else if String.eqb field "subcategory" then row_subcategory row
  else if String.eqb field "developer" then row_developer row
  else if String.eqb field "publisher" then row_publisher row
  else if String.eqb field "tags" then row_tags row
  else if String.eqb field "bundle_name" then row_bundle_name row
  else None.

(** [field_value and pattern.search(str(field_value))]. *)
Definition value_matches (pattern : Pattern) (field_value : option string) : bool :=
  match field_value with
  | Some text => (negb (String.eqb text "") && search pattern text)%bool
  | None => false
  end.

(** [DuckDBSearchProvider._row_matches_regex]. *)
Definition _row_matches_regex (pattern : Pattern) (row : Row) : bool :=
  existsb (fun field => value_matches pattern (_get_field_value row field))
          searchable_fields.

(** [f'%{query}%']. *)
Definition wildcard (query : string) : Param := PText ("%" ++ query ++ "%").

(** [DuckDBSearchProvider._search_with_text]. *)
Definition _search_with_text (query : string) (filters : option Filters)
  : DB (list Asset) :=
  let sql := [WHERE; Cond AnyTextILike] in
  let params := [wildcard query; wildcard query; wildcard query] in
  let* results := fetch_filtered sql params filters in
  ret (_format_results results).

(** [DuckDBSearchProvider._search_with_regex]. *)
Definition _search_with_regex (query : string) (filters : option Filters)
           (case_sensitive : bool) : DB (list Asset) :=
  let* valid := lift (validate_regex query) in
  if negb valid
  then raise (ValueError ("Invalid regex pattern: " ++ query))
  else
    let* results := fetch_filtered [] [] filters in
    let pattern := compile_query query case_sensitive in
    let filtered_results := List.filter (fun row => _row_matches_regex pattern row) results in
    ret (_format_results filtered_results).

(** [DuckDBSearchProvider._search_field_with_text]. *)
Definition _search_field_with_text (field query : string) (filters : option Filters)
  : DB (list Asset) :=
  let sql := [WHERE; Cond (FieldILike field)] in
  let params := [wildcard query] in
  let* results := fetch_filtered sql params filters in
  ret (_format_results results).

(** [DuckDBSearchProvider._search_field_with_regex]. *)
Definition _search_field_with_regex (field query : string) (case_sensitive : bool)
           (filters : option Filters) : DB (list Asset) :=
  let* valid := lift (validate_regex query) in
  if negb valid
  then raise (ValueError ("Invalid regex pattern: " ++ query))
  else
    let* results := fetch_filtered [] [] filters in
    let pattern := compile_query query case_sensitive in
    let filtered_results :=
      List.filter (fun row => value_matches pattern (_get_field_value row field)) results in
    ret (_format_results filtered_results).

(** [DuckDBSearchProvider._advanced_search_with_text]; [queries] is a
    dict read with [.items()]. *)
Definition _advanced_search_with_text (queries : list (string * string))
           (filters : option Filters) (operator : string) : DB (list Asset) :=
  let known := List.filter (fun fq => is_searchable (fst fq)) queries in
  let conditions := map (fun fq => FieldILike (fst fq)) known in
  let params := map (fun fq => wildcard (snd fq)) known in
  match conditions with
  | [] => ret []
  | _ =>
      let sql := WHERE :: join_conditions operator conditions in
      let* results := fetch_filtered sql params filters in
      ret (_format_results results)
  end.

(** The validation loop of [_advanced_search_with_regex]. *)
Fixpoint validate_queries (queries : list (string * string)) : DB unit :=
  match queries with
  | [] => ret tt
  | (field, query) :: rest =>
      let* valid := lift (validate_regex query) in
      if negb valid
      then raise (ValueError ("Invalid regex pattern for field '" ++ field
                              ++ "': " ++ query))
      else validate_queries rest
  end.

(** [DuckDBSearchProvider._advanced_search_with_regex]. *)
Definition _advanced_search_with_regex (queries : list (string * string))
           (filters : option Filters) (case_sensitive : bool) (operator : string)
  : DB (list Asset) :=
  let* _ := validate_queries queries in
  let* results := fetch_filtered [] [] filters in
  let patterns := map (fun fq => (fst fq, compile_query (snd fq) case_sensitive)) queries in
  let keep row :=
    let matches :=
      map (fun fp => value_matches (snd fp) (_get_field_value row (fst fp))) patterns in
    if (String.eqb operator "AND" && forallb id matches)%bool then true
    else if (String.eqb operator "OR" && existsb id matches)%bool then true
    else false in
  ret (_format_results (List.filter keep results)).

(** [DuckDBSearchProvider.search_assets]. *)
Definition search_assets (query : string) (filters : option Filters)
           (use_regex case_sensitive : bool) : DB (list Asset) :=
  if use_regex then _search_with_regex query filters case_sensitive
  else _search_with_text query filters.

(** [DuckDBSearchProvider.search_by_field]. *)
Definition search_by_field (field query : string) (use_regex case_sensitive : bool)
           (filters : option Filters) : DB (list Asset) :=
  if negb (is_searchable field)
  then raise (ValueError ("Field '" ++ field ++ "' is not searchable. Available fields: "
                          ++ repr_str_list searchable_fields))
  else if use_regex then _search_field_with_regex field query case_sensitive filters
  else _search_field_with_text field query filters.

(** [DuckDBSearchProvider.search_advanced]. *)
Definition search_advanced (queries : list (string * string)) (filters : option Filters)
           (use_regex case_sensitive : bool) (operator : string) : DB (list Asset) :=
  if negb (String.eqb operator "AND" || String.eqb operator "OR")
  then raise (ValueError "Operator must be 'AND' or 'OR'")
  else if use_regex
  then _advanced_search_with_regex queries filters case_sensitive operator
  else _advanced_search_with_text queries filters operator.

(** [DuckDBSearchProvider.get_searchable_fields]. *)
Definition get_searchable_fields : list string := searchable_fields.

(** [DuckDBSearchProvider.get_search_stats]; [now] is the reading of
    [datetime.now().isoformat()]. *)
Definition get_search_stats (now : string) : DB (gmap string StatValue) :=
  try_except
    (let* total_products := call CallCountProducts count_products in
     let* total_bundles := call CallCountBundles count_bundles in
     let* category_rows := call CallCategoryStats category_stats in
     let* source_rows := call CallSourceStats source_stats in
     ret (<["total_products" := SInt total_products]>
          (<["total_bundles" := SInt total_bundles]>
           (<["category_distribution" := SDistribution "category" category_rows]>
            (<["source_distribution" := SDistribution "source" source_rows]>
             (<["searchable_fields" := SFields searchable_fields]>
              (<["last_updated" := SText now]> ∅)))))))
    (fun e =>
       ret (<["error" := SText (exc_message e)]>
            (<["searchable_fields" := SFields searchable_fields]>
             (<["last_updated" := SText now]> ∅)))).

End SearchProvider.

(* ===================================================================== *)
(** * main.py: the helpers of the search commands *)
(* ===================================================================== *)

(** [s.split(sep)] for a separator of one character: never the empty
    list, [''.split(',')] is [['']]. *)
Fixpoint split_on (sep : ascii) (s : string) : list string :=
  match s with
  | EmptyString => [EmptyString]
  | String c s' =>
      if Ascii.eqb c sep then EmptyString :: split_on sep s'
      else match split_on sep s' with
           | p :: ps => String c p :: ps
           | [] => [String c EmptyString]
           end
  end.

(** [s.split(sep, 1)] for a text that has the separator in it: the text
    before the first separator and the text after it. [None] when [sep in
    s] is false. *)
Fixpoint split_first (sep : ascii) (s : string) : option (string * string) :=
  match s with
  | EmptyString => None
  | String c s' =>
      if Ascii.eqb c sep then Some (EmptyString, s')
      else match split_first sep s' with
           | Some (before, after) => Some (String c before, after)
           | None => None
           end
  end.

(** The characters [str.strip()] removes, on ASCII text: tab to carriage
    return, the four separators 28 to 31, and the space. *)
Definition is_whitespace (c : ascii) : bool :=
  let n := nat_of_ascii c in
  ((Nat.leb 9 n && Nat.leb n 13) || (Nat.leb 28 n && Nat.leb n 32))%bool.

Fixpoint lstrip (s : string) : string :=
  match s with
  | EmptyString => EmptyString
  | String c s' => if is_whitespace c then lstrip s' else s
  end.

Fixpoint rstrip (s : string) : string :=
  match s with
  | EmptyString => EmptyString
  | String c s' =>
      match rstrip s' with
      | EmptyString => if is_whitespace c then EmptyString else String c EmptyString
      | r => String c r
      end
  end.

(** [s.strip()]. *)
Definition strip (s : string) : string := rstrip (lstrip s).

(** [d[key] = value] on a dict of strings: the value of a key that is
    there is replaced where it stands, a new key goes last. *)
Fixpoint dict_set (d : list (string * string)) (key value : string)
  : list (string * string) :=
  match d with
  | [] => [(key, value)]
  | (k, v) :: d' =>
      if String.eqb k key then (k, value) :: d'
      else (k, v) :: dict_set d' key value
  end.

(** The body of the loop of [_parse_query_string]. *)
Definition parse_pair (query_dict : list (string * string)) (pair : string)
  : list (string * string) :=
  match split_first ":" pair with
  | Some (field, query) =>
      let field := strip field in
      let query := strip query in
      if (negb (String.eqb field "") && negb (String.eqb query ""))%bool
      then dict_set query_dict field query
      else query_dict
  | None => query_dict
  end.

(** [_parse_query_string]. *)
Definition _parse_query_string (queries : string) : Exc + list (string * string) :=
  let query_dict := fold_left parse_pair (split_on "," queries) [] in
  match query_dict with
  | [] => inl (ValueError
                 "No valid field:query pairs found. Use format: field:query,field:query")
  | _ => inr query_dict
  end.

(** A rating as the commands pass it. The options [--rating-min] and
    [--rating-max] declare no type, so click hands over the text that was
    typed; the annotation of [_build_search_filters] says
    [Optional[float]]. *)
Inductive RatingArg :=
| RatingText (s : string)
| RatingNumber (x : float).

(** [if rating:]: a text that is not empty, a number that is not zero. *)
Definition rating_given (v : option RatingArg) : bool :=
  match v with
  | Some (RatingText s) => negb (String.eqb s "")
  | Some (RatingNumber x) => negb (PrimFloat.eqb x 0)
  | None => false
  end.

Section BuildSearchFilters.

(** [float(s)] on a text, a built-in: the number read, or the exception
    raised. *)
Variable float_of_text : string -> Exc + float.

(** [float(v)]. *)
Definition py_float (v : RatingArg) : Exc + float :=
  match v with
  | RatingText s => float_of_text s
  | RatingNumber x => inr x
  end.

(** [if rating: filters[key] = float(rating)]: the value stored under the
    key, [None] when the key is not set. *)
Definition rating_entry (v : option RatingArg) : Exc + option float :=
  match v with
  | Some a =>
      if rating_given v then
        match py_float a with
        | inr x => inr (Some x)
        | inl e => inl e
        end
      else inr None
  | None => inr None
  end.

(** [_build_search_filters]: a key is set only for an argument that is
    true. *)
Definition _build_search_filters (category source platform : option string)
           (rating_min rating_max : option RatingArg) : Exc + Filters :=
  match rating_entry rating_min with
  | inl e => inl e
  | inr lowest =>
      match rating_entry rating_max with
      | inl e => inl e
      | inr highest =>
          inr {| filter_category := get_text category;
                 filter_source := get_text source;
                 filter_platform := get_text platform;
                 filter_rating_min := lowest;
                 filter_rating_max := highest |}
      end
  end.

End BuildSearchFilters.

(** The page arithmetic that opens [_display_paginated_results] and
    [_display_search_results_paginated]: the number of pages, the page
    shown after the page number is validated, and the two indices of the
    slice. Python integers are unbounded and [//] rounds down, as [Z.div]
    does. *)
Record PageWindow := mkPageWindow {
  total_pages : Z;
  shown_page : Z;
  start_idx : Z;
  end_idx : Z
}.

(** [None] stands for the ZeroDivisionError of a page size of zero. *)
Definition page_window (total_results page page_size : Z) : option PageWindow :=
  if Z.eqb page_size 0 then None
  else
    let total_pages := ((total_results + page_size - 1) / page_size)%Z in
    let page :=
      if Z.ltb page 1 then 1%Z
      else if Z.gtb page total_pages then total_pages
      else page in
    let start_idx := ((page - 1) * page_size)%Z in
    let end_idx := Z.min (start_idx + page_size) total_results in
    Some (mkPageWindow total_pages page start_idx end_idx).

(** An index of a slice, as Python reads it: a negative index counts
    from the end, and the index is brought into the list. *)
Definition slice_index (len i : Z) : Z :=
  if Z.ltb i 0 then Z.max (i + len) 0 else Z.min i len.

(** [l[start:stop]]. *)
Definition py_slice {A : Type} (l : list A) (start stop : Z) : list A :=
  let len := Z.of_nat (length l) in
  let first := slice_index len start in
  let last := slice_index len stop in
  firstn (Z.to_nat (last - first)) (skipn (Z.to_nat first) l).

(** [page_results = results[start_idx:end_idx]]. *)
Definition page_results {A : Type} (results : list A) (page page_size : Z)
  : option (list A) :=
  match page_window (Z.of_nat (length results)) page page_size with
  | Some w => Some (py_slice results (start_idx w) (end_idx w))
  | None => None
  end.

(* ===================================================================== *)
(** * Vocabulary of the specification *)
(* ===================================================================== *)

(** "The category with the maximum aggregate score, and among categories
    with exactly equal maximum scores the one declared first", for the
    scores [s]. Python compares floats, and every comparison with a score
    that is not a number is false: such a score is neither above nor
    below another, so it is left out of the comparison, and when the
    score of the first member is not a number nothing replaces the first
    member. *)
Definition first_maximum (s : Scores) (best : CategoryType) : Prop :=
  if is_nan (s first_category) then best = first_category
  else
    is_nan (s best) = false
    /\ (forall c, is_nan (s c) = false -> PrimFloat.leb (s c) (s best) = true)
    /\ exists earlier later,
         all_categories = (earlier ++ best :: later)%list
         /\ Forall (fun c => is_nan (s c) = false ->
                             PrimFloat.ltb (s c) (s best) = true) earlier.

Section Vocabulary.

Context `{RegexEngine}.

(** "The summed weighted score" of the rules of a category: the scores
    of its rules added one after the other, in the order of the rules. *)
Fixpoint summed_score (rs : list CompiledRule) (item : Item) (c : CategoryType)
         (total : float) : float :=
  match rs with
  | [] => total
  | r :: rs' =>
      summed_score rs' item c
        (if category_eqb c (category (rule r))
         then (total + _score_rule r item)%float else total)
  end.

(** "The rule has required patterns and at least one of them matches none
    of the item's searchable fields." *)
Definition required_unmet (r : CategoryRule) (item : Item) : bool :=
  nonempty (required_patterns r)
  && existsb (fun p => negb (_matches_in_item (mkPattern p true) item))
             (default [] (required_patterns r)).

(** "The rule has exclusion patterns and one of them matches a searchable
    field." *)
Definition exclusion_matched (r : CategoryRule) (item : Item) : bool :=
  nonempty (exclusion_patterns r)
  && existsb (fun p => _matches_in_item (mkPattern p true) item)
             (default [] (exclusion_patterns r)).

(** "No pattern of the rule matches any field": no pattern finds a match
    in a weighted field that the item has. *)
Definition patterns_silent (r : CompiledRule) (item : Item) : bool :=
  forallb
    (fun p =>
       forallb
         (fun fw =>
            match present item (fst fw) with
            | Some v => negb (search p (lower (py_str v)))
            | None => true
            end)
         (field_weights (rule r)))
    (_compiled_patterns r).

(** The same for an engine whose matchers are pattern matchers. *)
Definition no_rule_matches (engine : CategorizationEngine) (item : Item) : bool :=
  forallb
    (fun m =>
       match m with
       | PatternMatcher rs => forallb (fun r => patterns_silent r item) rs
       | CustomMatcher _ _ => false
       end)
    (matchers engine).

(** "The names of the rules that contributed a non-zero score." *)
Definition contributing_rules (engine : CategorizationEngine) (item : Item) : list string :=
  flat_map
    (fun m =>
       match m with
       | PatternMatcher rs =>
           map (fun r => name (rule r))
               (List.filter (fun r => negb (PrimFloat.eqb (_score_rule r item) 0)) rs)
       | CustomMatcher _ _ => []
       end)
    (matchers engine).

(** The value a stored record has in a searchable field. *)
Definition stored_field (r : StoredRow) (field : string) : option string :=
  if String.eqb field "human_name" then row_human_name (projection r)
  else if String.eqb field "description" then description r
  else if String.eqb field "category" then row_category (projection r)
  else if String.eqb field "subcategory" then row_subcategory (projection r)
  else if String.eqb field "developer" then row_developer (projection r)
  else if String.eqb field "publisher" then row_publisher (projection r)
  else if String.eqb field "tags" then row_tags (projection r)
  else if String.eqb field "bundle_name" then row_bundle_name (projection r)
  else None.

(** "The pattern matches the field [field] of the record, on a value that
    is not empty." *)
Definition field_matches (pattern : Pattern) (r : StoredRow) (field : string) : bool :=
  match stored_field r field with
  | Some text => negb (String.eqb text "") && search pattern text
  | None => false
  end.



(** "Every supplied filter value is set": no empty string, no zero. *)
Definition values_set (filters : option Filters) : bool :=
  let f := default no_filters filters in
  match filter_category f with Some v => negb (String.eqb v "") | None => true end
  && match filter_source f with Some v => negb (String.eqb v "") | None => true end
  && match filter_platform f with Some v => negb (String.eqb v "") | None => true end
  && match filter_rating_min f with Some x => negb (PrimFloat.eqb x 0) | None => true end
  && match filter_rating_max f with Some x => negb (PrimFloat.eqb x 0) | None => true end.



End Vocabulary.

(** The first of the four statistics queries that fails, if any. *)
Definition stats_failure (conn : Connection) : option Exc :=
  match count_products conn, count_bundles conn, category_stats conn, source_stats conn with
  | inl e, _, _, _ => Some e
  | inr _, inl e, _, _ => Some e
  | inr _, inr _, inl e, _ => Some e
  | inr _, inr _, inr _, inl e => Some e
  | inr _, inr _, inr _, inr _ => None
  end.

(** ** Samples *)

Definition engine_of (created : option CategorizationEngine) : CategorizationEngine :=
  default (mkEngine [] []) created.

(** [CategorizationEngine()], run with the engine [mini_re]. *)
Definition default_engine : CategorizationEngine := engine_of new_CategorizationEngine.

Definition python_guide : Item := {[ "human_name" := PyStr "Python Guide" ]}.
Definition cooking_guide : Item := {[ "human_name" := PyStr "Cooking Guide" ]}.
Definition python_game_guide : Item := {[ "human_name" := PyStr "Python Game Guide" ]}.
Definition game_tool : Item := {[ "human_name" := PyStr "game tool" ]}.
Definition adventure_quest : Item := {[ "human_name" := PyStr "Adventure Quest Game" ]}.

(** An item whose fields are there but empty. *)
Definition blank_item : Item :=
  <["human_name" := PyStr ""]> (<["description" := PyNone]> ∅).

(** A rule with both guards. *)
Definition guide_rule : CategoryRule :=
  mkRule "python_guides" EBOOK "programming" ["\bguide\b"] 1.0%float
         [("human_name", 0.8%float)] (Some ["\bpython\b"]) (Some ["\bgame\b"]).

Definition guide_rule_compiled : CompiledRule :=
  mkCompiled guide_rule [mkPattern "\bguide\b" true] [mkPattern "\bpython\b" true]
             [mkPattern "\bgame\b" true].

Definition text_row (id name cat : string) (dev : option string) (stars : option float)
  : Row :=
  mkRow id (Some name) (Some cat) (Some "general") dev None None stars None
        (Some "humble_bundle") None None None None.

(** A store with three products; only the description of the first
    mentions "Sandbox". *)
Definition terraria : StoredRow :=
  mkStored (text_row "p1" "Terraria" "game" (Some "Re-Logic") (Some 4.5%float))
           (Some "Sandbox game").
Definition python_book : StoredRow :=
  mkStored (text_row "p2" "Python Guide" "ebook" None (Some 4.0%float))
           (Some "A book").
Definition atom_editor : StoredRow :=
  mkStored (text_row "p3" "Atom" "software" (Some "") None) None.

Definition sample_table : list StoredRow := [terraria; python_book; atom_editor].

Definition sample_connection : Connection :=
  table_connection sample_table 3 0
                   [(Some "game", 1%Z); (Some "ebook", 1%Z); (Some "software", 1%Z)]
                   [(Some "humble_bundle", 3%Z)].

(** A store none of whose statistics queries can be answered. *)
Definition broken_connection : Connection :=
  {| execute := fun _ _ => inl (StoreError "no such table: products");
     count_products := inl (StoreError "no such table: products");
     count_bundles := inl (StoreError "no such table: bundles");
     category_stats := inl (StoreError "no such table: products");
     source_stats := inl (StoreError "no such table: asset_sources") |}.

(* ===================================================================== *)
(** * Auxiliary notions of the proofs *)
(* ===================================================================== *)

(** The WHERE clause built from filter conditions on a statement that
    has none. *)
Definition where_clause (entries : list (SqlCond * Param)) : Sql :=
  match entries with
  | [] => []
  | _ => WHERE :: join_conditions "AND" (map fst entries)
  end.

(** One filter condition with its parameter, on a record. *)
Definition entry_holds (r : StoredRow) (e : SqlCond * Param) : bool :=
  match eval_cond (fst e) [snd e] r with
  | Some (b, _) => b
  | None => false
  end.

(** The shape of the entries [_add_filters_to_sql] produces. *)
Definition filter_entry_ok (e : SqlCond * Param) : Prop :=
  match e with
  | (CategoryEq, PText _) | (SourceEq, PText _) | (PlatformEq, PText _)
  | (RatingGe, PNum _) | (RatingLe, PNum _) => True
  | _ => False
  end.


(** The filters that are set, as the store reads them on a record: texts
    are equal, and numbers are compared in the order of the store. *)
Definition holds_in_store (filters : option Filters) (r : StoredRow) : bool :=
  let f := default no_filters filters in
  match get_text (filter_category f) with
  | Some v => text_eq (row_category (projection r)) v
  | None => true
  end
  && match get_text (filter_source f) with
     | Some v => text_eq (row_source_name (projection r)) v
     | None => true
     end
  && match get_text (filter_platform f) with
     | Some v => text_eq (row_platform (projection r)) v
     | None => true
     end
  && match get_number (filter_rating_min f) with
     | Some x => match row_rating (projection r) with
                 | Some y => store_le x y
                 | None => false
                 end
     | None => true
     end
  && match get_number (filter_rating_max f) with
     | Some x => match row_rating (projection r) with
                 | Some y => store_le y x
                 | None => false
                 end
     | None => true
     end.



(** Every record of [l] comes at or after [x]. *)
Definition all_after (x : StoredRow) (l : list StoredRow) : Prop :=
  Forall (fun y => name_le x y = true) l.

Inductive ordered : list StoredRow -> Prop :=
| ordered_nil : ordered []
| ordered_cons x l : all_after x l -> ordered l -> ordered (x :: l).

Ltac compare_cases :=
  repeat match goal with
    | |- context [Z.compare ?a ?b] => destruct (Z.compare_spec a b)
    | H : context [Z.compare ?a ?b] |- _ => destruct (Z.compare_spec a b)
    | |- context [Pos.compare_cont Eq ?a ?b] =>
        change (Pos.compare_cont Eq a b) with (Pos.compare a b);
        destruct (Pos.compare_spec a b)
    | H : context [Pos.compare_cont Eq ?a ?b] |- _ =>
        change (Pos.compare_cont Eq a b) with (Pos.compare a b) in H;
        destruct (Pos.compare_spec a b)
    end.

(** Case analysis on the comparison of binary64 values. *)
Ltac by_cases :=
  unfold SFltb, SFeqb, SFleb, SFcompare;
  repeat match goal with
    | x : spec_float |- _ => destruct x
    | b : bool |- _ => destruct b
    end;
  simpl; intros; try discriminate; try tauto; auto;
  compare_cases; simpl in *; subst; try discriminate; try lia; auto.


(* ===================================================================== *)
(** * Notions used by the further properties *)
(* ===================================================================== *)

(** The engine has pattern matchers only. *)
Definition pattern_only (ms : list CategoryMatcher) : bool :=
  forallb (fun m => match m with PatternMatcher _ => true | CustomMatcher _ _ => false end) ms.

(** The matchers are custom matchers. *)
Definition pattern_free (ms : list CategoryMatcher) : Prop :=
  Forall (fun m => match m with PatternMatcher _ => False | CustomMatcher _ _ => True end) ms.

(** The compiled rules of the pattern matchers of an engine. *)
Definition compiled_rules (ms : list CategoryMatcher) : list CompiledRule :=
  flat_map (fun m => match m with PatternMatcher rs => rs | CustomMatcher _ _ => [] end) ms.

(** Some rule names the category. *)
Definition has_rule (rs : list CompiledRule) (c : CategoryType) : bool :=
  existsb (fun r => category_eqb c (category (rule r))) rs.

(** The weight of the rule and the weights of its fields are at least
    zero. *)
Definition weights_not_negative (r : CompiledRule) : bool :=
  PrimFloat.leb 0 (weight (rule r))
  && forallb (fun fw => PrimFloat.leb 0 (snd fw)) (field_weights (rule r)).

(** A binary64 value that is not below zero: a zero, a positive number,
    plus infinity, or not a number. *)
Definition not_negative (x : spec_float) : Prop :=
  match x with
  | S754_zero _ => True
  | S754_nan => True
  | S754_infinity s => s = false
  | S754_finite s _ _ => s = false
  end.

(** What the scorer reads of a field: the lowercased text of a value
    that is there and true. *)
Definition item_text (item : Item) (field : string) : option string :=
  match present item field with
  | Some v => Some (lower (py_str v))
  | None => None
  end.

(** The fields a compiled rule reads. *)
Definition rule_fields (r : CompiledRule) : list string :=
  (searchable_item_fields ++ map fst (field_weights (rule r)))%list.

(** The results agree in every field. *)
Definition same_result (r1 r2 : CategoryResult) : Prop :=
  result_category r1 = result_category r2
  /\ result_subcategory r1 = result_subcategory r2
  /\ confidence r1 = confidence r2
  /\ method r1 = method r2
  /\ matched_rules r1 = matched_rules r2
  /\ forall c, scores r1 c = scores r2 c.

(** The fields the pattern matchers of an engine read. *)
Definition engine_fields (ms : list CategoryMatcher) : list string :=
  (searchable_item_fields
   ++ flat_map (fun r => map fst (field_weights (rule r))) (compiled_rules ms))%list.

(** The text [_determine_subcategory] looks for keywords in. *)
Definition subcategory_text (item : Item) : string :=
  let first := get_or_empty item "name" in
  lower (py_str (if truthy first then first else get_or_empty item "human_name")).

(** [_determine_subcategory], from the text on. *)
Definition subcategory_of (cat : CategoryType) (name : string) : string :=
  match cat with
  | EBOOK =>
      if any_keyword ["programming"; "coding"; "development"] name then "programming"
      else if any_keyword ["security"; "hacking"; "pentesting"] name then "security"
      else if any_keyword ["cooking"; "recipe"; "kitchen"] name then "cooking"
      else if any_keyword ["gardening"; "garden"; "plant"] name then "gardening"
      else if any_keyword ["art"; "design"; "creative"] name then "arts"
      else if any_keyword ["survival"; "outdoor"; "wilderness"] name then "survival"
      else "general"
  | GAME =>
      if any_keyword ["strategy"; "rts"; "turn-based"] name then "strategy"
      else if any_keyword ["rpg"; "role playing"; "adventure"] name then "rpg"
      else if any_keyword ["simulation"; "simulator"; "sim"] name then "simulation"
      else if any_keyword ["puzzle"; "brain"; "logic"] name then "puzzle"
      else if any_keyword ["action"; "shooter"; "fps"] name then "action"
      else "general"
  | SUBSCRIPTION_CONTENT =>
      if contains "coupon" name then "coupon"
      else if contains "choice" name then "humble_choice"
      else "general"
  | _ => "general"
  end.

(** The labels [_determine_subcategory] can return. *)
Definition subcategory_labels : list string :=
  ["programming"; "security"; "cooking"; "gardening"; "arts"; "survival";
   "strategy"; "rpg"; "simulation"; "puzzle"; "action"; "coupon";
   "humble_choice"; "general"].

(** The compiled rules of the default engine, run with [mini_re]. *)
Definition default_compiled_rules : list CompiledRule :=
  compiled_rules (matchers default_engine).

(** [CategorizationEngineFactory.create_humble_bundle_engine()], run with
    [mini_re]. *)
Definition humble_engine : CategorizationEngine :=
  engine_of (create_humble_bundle_engine (H := mini_re)).

(** A custom strategy that votes for [VIDEO]. *)
Definition video_matcher : CategoryMatcher :=
  CustomMatcher "VideoMatcher" (fun _ => [(VIDEO, 0.5%float)]).

(** The default engine with a custom matcher added before and after its
    pattern matcher. *)
Definition mixed_engine : CategorizationEngine :=
  {| matchers := [video_matcher; PatternMatcher default_compiled_rules; video_matcher];
     rules := _load_default_rules |}.

(** ** The statements sent to the store *)

(** The number of [?] placeholders of a condition. *)
Definition placeholders_of (c : SqlCond) : nat :=
  match c with
  | AnyTextILike => 3
  | _ => 1
  end.

Fixpoint placeholders (sql : Sql) : nat :=
  match sql with
  | [] => 0
  | Cond c :: rest => placeholders_of c + placeholders rest
  | _ :: rest => placeholders rest
  end.

(** A search query that binds as many parameters as its statement has
    placeholders, and ends with the ORDER BY. *)
Definition well_formed_call (c : StoreCall) : Prop :=
  match c with
  | CallExecute sql params =>
      placeholders sql = length params
      /\ exists body, sql = (body ++ [ORDER_BY_HUMAN_NAME])%list
  | _ => False
  end.

(** The four statistics queries, in the order [get_search_stats] sends
    them. *)
Definition stats_calls : list StoreCall :=
  [CallCountProducts; CallCountBundles; CallCategoryStats; CallSourceStats].

(** How many of them are sent: up to the first that fails. *)
Definition stats_calls_made (conn : Connection) : nat :=
  match count_products conn, count_bundles conn, category_stats conn with
  | inl _, _, _ => 1
  | inr _, inl _, _ => 2
  | inr _, inr _, inl _ => 3
  | inr _, inr _, inr _ => 4
  end.

(** The columns of [products] that a text condition [p.{field} ILIKE ?]
    can name among the searchable fields. *)
Definition is_products_column (field : string) : bool :=
  existsb (String.eqb field)
          ["human_name"; "description"; "category"; "subcategory";
           "developer"; "publisher"; "tags"].

(** The condition [p.{field} ILIKE '%query%'] on a stored record. *)
Definition query_holds (r : StoredRow) (fq : string * string) : bool :=
  match products_column (fst fq) r with
  | Some col => ilike col ("%" ++ snd fq ++ "%")
  | None => false
  end.

(** [(p.human_name ILIKE ? OR p.description ILIKE ? OR p.tags ILIKE ?)]
    with the three parameters ['%query%']. *)
Definition any_text_holds (query : string) (r : StoredRow) : bool :=
  ilike (row_human_name (projection r)) ("%" ++ query ++ "%")
  || ilike (description r) ("%" ++ query ++ "%")
  || ilike (row_tags (projection r)) ("%" ++ query ++ "%").

(** The text has none of the wildcards of LIKE. *)
Fixpoint no_wildcards (s : string) : bool :=
  match s with
  | EmptyString => true
  | String c s' => negb (Ascii.eqb c "%") && negb (Ascii.eqb c "_") && no_wildcards s'
  end.

(** [lower(query)] occurs in [lower(col)], for a column that is not
    NULL. *)
Definition contains_nocase (query : string) (col : option string) : bool :=
  match col with
  | Some text => contains (lower query) (lower text)
  | None => false
  end.

(** The conditions [_add_filters_to_sql] appends to a statement that has
    a WHERE clause already. *)
Definition and_clause (entries : list (SqlCond * Param)) : Sql :=
  match entries with
  | [] => []
  | _ => Operator "AND" :: join_conditions "AND" (map fst entries)
  end.

(** The value of [c1 OR c2 OR ... OR cn AND filters], where AND binds
    tighter than OR: the filters go with the last condition. *)
Fixpoint or_chain (conds : list bool) (filters : bool) : bool :=
  match conds with
  | [] => filters
  | [c] => c && filters
  | c :: rest => c || or_chain rest filters
  end.

Section SearchVocabulary.

Context `{RegexEngine}.

(** The value a row has in the field, as [_get_field_value] reads it,
    matches the pattern. *)
Definition row_field_matches (pattern : Pattern) (field : string) (row : Row) : bool :=
  value_matches pattern (_get_field_value row field).

(** The test of the loop of [_advanced_search_with_regex] on a row. *)
Definition advanced_keep (queries : list (string * string)) (case_sensitive : bool)
           (operator : string) (row : Row) : bool :=
  let matches :=
    map (fun fq => row_field_matches (compile_query (snd fq) case_sensitive) (fst fq) row)
        queries in
  if String.eqb operator "AND" && forallb id matches then true
  else if String.eqb operator "OR" && existsb id matches then true
  else false.

(** A field whose value [_get_field_value] never gives: 'description'
    and every name that is not a searchable field. *)
Definition never_read (field : string) : bool :=
  String.eqb field "description" || negb (is_searchable field).

End SearchVocabulary.

(** ** The filters of the command line *)

(** What [float] reads for a rating that is given: [None] for a rating
    that is not given (absent, empty text, zero). *)
Definition rating_value (float_of_text : string -> Exc + float) (v : option RatingArg)
  : option (Exc + float) :=
  match v with
  | Some a => if rating_given v then Some (py_float float_of_text a) else None
  | None => None
  end.

(** The rating is a number or is absent, as the annotation says. *)
Definition declared_type (v : option RatingArg) : bool :=
  match v with
  | Some (RatingText _) => false
  | _ => true
  end.

(** The number under the argument, when it is one. *)
Definition number_of (v : option RatingArg) : option float :=
  match v with
  | Some (RatingNumber x) => Some x
  | _ => None
  end.

(** The value of a text of decimal digits. *)
Fixpoint digits_value (s : string) (acc : Z) : option Z :=
  match s with
  | EmptyString => Some acc
  | String c s' =>
      if MiniRe.is_digit c
      then digits_value s' (10 * acc + (Z.of_nat (nat_of_ascii c) - 48))%Z
      else None
  end.

(** A fragment of what [float(s)] reads, for the samples: decimal digits
    with an optional fraction, at most fifteen digits in all, so that the
    quotient of the two whole numbers is the nearest binary64 value. Any
    other text is refused with the ValueError of [float]. *)
Definition decimal_float (s : string) : Exc + float :=
  let refused := inl (ValueError ("could not convert string to float: '" ++ s ++ "'")) in
  let '(whole, fraction) :=
    match split_first "." s with
    | Some (w, f) => (w, f)
    | None => (s, EmptyString)
    end in
  let digits := (String.length whole + String.length fraction)%nat in
  match digits_value whole 0, digits_value fraction 0 with
  | Some w, Some f =>
      if (Nat.eqb digits 0 || Nat.ltb 15 digits)%bool then refused
      else
        let scale := (10 ^ Z.of_nat (String.length fraction))%Z in
        inr (PrimFloat.of_uint63 (Uint63.of_Z (w * scale + f))
             / PrimFloat.of_uint63 (Uint63.of_Z scale))%float
  | _, _ => refused
  end.

(** [mini_re] with one pattern more: [re.compile('a{4294967296}')] raises
    OverflowError, which is not [re.error]. *)
Definition overflow_re : RegexEngine :=
  {| re_outcome := fun p =>
       if String.eqb p "a{4294967296}"
       then Raises (OverflowError "the repetition number is too large")
       else re_outcome (RegexEngine := mini_re) p;
     re_search := MiniRe.search |}.

(** ** The query strings of the command line *)

(** The character does not occur in the text. *)
Fixpoint free_of (c : ascii) (s : string) : bool :=
  match s with
  | EmptyString => true
  | String d s' => negb (Ascii.eqb d c) && free_of c s'
  end.

(** A text [strip] leaves alone and that is not empty. *)
Definition trimmed (s : string) : bool :=
  String.eqb (strip s) s && negb (String.eqb s "").

(** A field and a query that can be written [field:query] in a
    comma-separated list. *)
Definition writable_pair (fq : string * string) : bool :=
  trimmed (fst fq) && trimmed (snd fq)
  && free_of "," (fst fq) && free_of ":" (fst fq) && free_of "," (snd fq).

(** [field:query,field:query,...]. *)
Definition write_queries (pairs : list (string * string)) : string :=
  join "," (map (fun fq => fst fq ++ ":" ++ snd fq) pairs).

(* ===================================================================== *)
(** * Properties: the order of binary64 values *)
(* ===================================================================== *)

Local Open Scope list_scope.

Section FloatOrder.

Implicit Types x y z : spec_float.

Lemma SFltb_trans x y z :
  SFltb x y = true -> SFltb y z = true -> SFltb x z = true.
Proof. by_cases. Qed.

Lemma SFltb_asym x y : SFltb x y = true -> SFltb y x = false.
Proof. by_cases. Qed.

Lemma SFltb_not_eq x y : SFltb x y = true -> SFeqb x y = false.
Proof. by_cases. Qed.

Lemma SFltb_below x y z :
  SFltb x y = false -> SFltb x z = true ->
  SFltb y z = true \/ SFeqb y y = false.
Proof. by_cases. Qed.

Lemma SFltb_nan_r x y : SFeqb y y = false -> SFltb x y = false.
Proof. by_cases. Qed.

Lemma SFeqb_nan_l x y : SFeqb x x = false -> SFeqb x y = false.
Proof. by_cases. Qed.

Lemma SFleb_of_not_ltb x y :
  SFeqb x x = true -> SFeqb y y = true -> SFltb x y = false -> SFleb y x = true.
Proof. by_cases. Qed.

Lemma SFltb_nan_l x y : SFeqb x x = false -> SFltb x y = false.
Proof. by_cases. Qed.

Lemma SFltb_leb x y : SFltb x y = true -> SFleb x y = true.
Proof. by_cases. Qed.

Lemma SFleb_not_ltb x y : SFleb x y = true -> SFltb y x = false.
Proof. by_cases. Qed.

End FloatOrder.

Lemma is_nan_spec (a : float) :
  is_nan a = negb (SFeqb (Prim2SF a) (Prim2SF a)).
Proof. unfold is_nan. now rewrite FloatAxioms.eqb_spec. Qed.

Lemma ltb_trans (a b c : float) :
  PrimFloat.ltb a b = true -> PrimFloat.ltb b c = true -> PrimFloat.ltb a c = true.
Proof. rewrite !FloatAxioms.ltb_spec. apply SFltb_trans. Qed.

Lemma ltb_asym (a b : float) :
  PrimFloat.ltb a b = true -> PrimFloat.ltb b a = false.
Proof. rewrite !FloatAxioms.ltb_spec. apply SFltb_asym. Qed.

Lemma ltb_not_eqb (a b : float) :
  PrimFloat.ltb a b = true -> PrimFloat.eqb a b = false.
Proof. rewrite FloatAxioms.ltb_spec, FloatAxioms.eqb_spec. apply SFltb_not_eq. Qed.

Lemma ltb_below (a b c : float) :
  PrimFloat.ltb a b = false -> PrimFloat.ltb a c = true ->
  PrimFloat.ltb b c = true \/ is_nan b = true.
Proof.
  rewrite !FloatAxioms.ltb_spec, is_nan_spec. intros Hab Hac.
  destruct (SFltb_below _ _ _ Hab Hac) as [Hlt | Hnan]; [now left | right].
  now rewrite Hnan.
Qed.

Lemma ltb_nan_r (a b : float) : is_nan b = true -> PrimFloat.ltb a b = false.
Proof.
  rewrite FloatAxioms.ltb_spec, is_nan_spec. intros Hnan. apply SFltb_nan_r.
  now destruct (SFeqb (Prim2SF b) (Prim2SF b)).
Qed.

Lemma eqb_nan_l (a b : float) : is_nan a = true -> PrimFloat.eqb a b = false.
Proof.
  rewrite FloatAxioms.eqb_spec, is_nan_spec. intros Hnan. apply SFeqb_nan_l.
  now destruct (SFeqb (Prim2SF a) (Prim2SF a)).
Qed.

Lemma leb_of_not_ltb (a b : float) :
  is_nan a = false -> is_nan b = false ->
  PrimFloat.ltb a b = false -> PrimFloat.leb b a = true.
Proof.
  rewrite FloatAxioms.ltb_spec, FloatAxioms.leb_spec, !is_nan_spec. intros Ha Hb.
  apply SFleb_of_not_ltb.
  - now destruct (SFeqb (Prim2SF a) (Prim2SF a)).
  - now destruct (SFeqb (Prim2SF b) (Prim2SF b)).
Qed.

Lemma ltb_nan_l (a b : float) : is_nan a = true -> PrimFloat.ltb a b = false.
Proof.
  rewrite FloatAxioms.ltb_spec, is_nan_spec. intros Hnan. apply SFltb_nan_l.
  now destruct (SFeqb (Prim2SF a) (Prim2SF a)).
Qed.

Lemma ltb_leb (a b : float) : PrimFloat.ltb a b = true -> PrimFloat.leb a b = true.
Proof. rewrite FloatAxioms.ltb_spec, FloatAxioms.leb_spec. apply SFltb_leb. Qed.

Lemma leb_not_ltb (a b : float) : PrimFloat.leb a b = true -> PrimFloat.ltb b a = false.
Proof. rewrite FloatAxioms.ltb_spec, FloatAxioms.leb_spec. apply SFleb_not_ltb. Qed.

Lemma ltb_not_nan (a b : float) :
  PrimFloat.ltb a b = true -> is_nan a = false /\ is_nan b = false.
Proof.
  intros Hlt. split.
  - destruct (is_nan a) eqn:Ha; [| reflexivity].
    now rewrite (ltb_nan_l a b Ha) in Hlt.
  - destruct (is_nan b) eqn:Hb; [| reflexivity].
    now rewrite (ltb_nan_r a b Hb) in Hlt.
Qed.

(** Two ways to split one list around an element. *)
Lemma split_twice {A : Type} (l1 : list A) : forall (x : A) l1' l2 (y : A) l2',
  l1 ++ x :: l1' = l2 ++ y :: l2' ->
  In x l2 \/ In y l1 \/ (l1 = l2 /\ x = y /\ l1' = l2').
Proof.
  induction l1 as [|a l1 IH]; intros x l1' [|b l2] y l2' Heq; simpl in Heq.
  - injection Heq as -> ->. right. right. repeat split.
  - injection Heq as -> _. left. now left.
  - injection Heq as -> _. right. left. now left.
  - injection Heq as -> Heq. destruct (IH _ _ _ _ _ Heq) as [Hin | [Hin | (-> & -> & ->)]].
    + left. now right.
    + right. left. now right.
    + right. right. repeat split.
Qed.

(* ===================================================================== *)
(** * Properties: [max] with a key *)
(* ===================================================================== *)

Section PyMax.

Context {K : Type} (f : K -> float).

(** What [py_max_from] returns: either the running maximum survives the
    whole list, or the list splits around the result. *)
Lemma py_max_from_cases (rest : list K) : forall best,
  (py_max_from f best rest = best
   /\ Forall (fun x => PrimFloat.ltb (f best) (f x) = false) rest)
  \/ (exists l1 l2,
         rest = l1 ++ py_max_from f best rest :: l2
         /\ PrimFloat.ltb (f best) (f (py_max_from f best rest)) = true
         /\ Forall (fun x => PrimFloat.ltb (f x) (f (py_max_from f best rest)) = true
                             \/ is_nan (f x) = true) l1
         /\ Forall (fun x => PrimFloat.ltb (f (py_max_from f best rest)) (f x) = false) l2).
Proof.
  induction rest as [|k rest IH]; intros best; simpl.
  - left. split; [reflexivity | constructor].
  - destruct (PrimFloat.ltb (f best) (f k)) eqn:Hlt.
    + right. destruct (IH k) as [[Hm Hall] | (l1 & l2 & Hsplit & Hkm & H1 & H2)].
      * exists [], rest. rewrite Hm. repeat split; auto.
      * exists (k :: l1), l2. repeat split; auto.
        -- simpl. now rewrite <- Hsplit.
        -- eapply ltb_trans; eauto.
    + destruct (IH best) as [[Hm Hall] | (l1 & l2 & Hsplit & Hbm & H1 & H2)].
      * left. rewrite Hm. split; auto.
      * right. exists (k :: l1), l2. repeat split; auto.
        -- simpl. now rewrite <- Hsplit.
        -- constructor; auto. eapply ltb_below; eauto.
Qed.

(** The list splits around the result: what comes before is strictly
    smaller (or not a number), what comes after is not greater. *)
Lemma py_max_from_split (best : K) (rest : list K) :
  exists earlier later,
    best :: rest = earlier ++ py_max_from f best rest :: later
    /\ Forall (fun x => PrimFloat.ltb (f x) (f (py_max_from f best rest)) = true
                        \/ is_nan (f x) = true) earlier
    /\ Forall (fun x => PrimFloat.ltb (f (py_max_from f best rest)) (f x) = false) later.
Proof.
  destruct (py_max_from_cases rest best) as [[Hm Hall] | (l1 & l2 & Hsplit & Hbm & H1 & H2)].
  - exists [], rest. rewrite Hm. repeat split; auto.
  - exists (best :: l1), l2. repeat split; auto.
    simpl. now rewrite <- Hsplit.
Qed.

Lemma ltb_irrefl (a : float) : PrimFloat.ltb a a = false.
Proof.
  destruct (PrimFloat.ltb a a) eqn:E; [| reflexivity].
  now rewrite (ltb_asym _ _ E) in E.
Qed.

(** No element has a key strictly greater than that of the result. *)
Lemma py_max_from_greatest (best : K) (rest : list K) (x : K) :
  In x (best :: rest) ->
  PrimFloat.ltb (f (py_max_from f best rest)) (f x) = false.
Proof.
  destruct (py_max_from_split best rest) as (l1 & l2 & Hsplit & H1 & H2).
  rewrite Hsplit. intros Hin. apply in_app_or in Hin.
  destruct Hin as [Hin | [Heq | Hin]].
  - rewrite List.Forall_forall in H1. destruct (H1 x Hin) as [Hlt | Hnan].
    + now apply ltb_asym.
    + now apply ltb_nan_r.
  - subst x. apply ltb_irrefl.
  - rewrite List.Forall_forall in H2. now apply H2.
Qed.

(** A running maximum that is not a number is never replaced. *)
Lemma py_max_from_nan (rest : list K) (best : K) :
  is_nan (f best) = true -> py_max_from f best rest = best.
Proof.
  intros Hnan. induction rest as [|k rest IH]; simpl; [reflexivity |].
  now rewrite (ltb_nan_l _ _ Hnan).
Qed.

(** A running maximum that is a number is replaced by numbers only. *)
Lemma py_max_from_number (rest : list K) : forall best,
  is_nan (f best) = false -> is_nan (f (py_max_from f best rest)) = false.
Proof.
  induction rest as [|k rest IH]; intros best Hbest; simpl; [exact Hbest |].
  destruct (PrimFloat.ltb (f best) (f k)) eqn:Hlt; apply IH; [| exact Hbest].
  now apply ltb_not_nan in Hlt.
Qed.

End PyMax.

(** The result depends on the keys only. *)
Lemma py_max_from_ext {K : Type} (f g : K -> float) (rest : list K) :
  (forall k, f k = g k) ->
  forall best, py_max_from f best rest = py_max_from g best rest.
Proof.
  intros Hfg. induction rest as [|k rest IH]; intros best; simpl; [reflexivity |].
  rewrite !Hfg. destruct (PrimFloat.ltb (g best) (g k)); apply IH.
Qed.

Lemma in_all_categories (c : CategoryType) : In c all_categories.
Proof. destruct c; simpl; tauto. Qed.

(* ===================================================================== *)
(** * Properties: the categorization engine *)
(* ===================================================================== *)

Section CategorizationProperties.

Context `{RegexEngine}.

(** ** Compilation keeps the patterns *)

Lemma compile_all_eq (ps : list string) (cs : list Pattern) :
  compile_all ps = Some cs -> cs = map (fun p => mkPattern p true) ps.
Proof.
  revert cs. induction ps as [|p ps IH]; intros cs; simpl.
  - now intros [= <-].
  - unfold re_compile. destruct (re_valid p); [| discriminate].
    destruct (compile_all ps) as [cs'|]; [| discriminate].
    intros [= <-]. now rewrite (IH cs' eq_refl).
Qed.

Lemma compile_optional_eq (ps : option (list string)) (cs : list Pattern) :
  compile_optional ps = Some cs -> nonempty ps = true ->
  cs = map (fun p => mkPattern p true) (default [] ps).
Proof.
  unfold compile_optional. intros Hc Hne. rewrite Hne in Hc.
  now apply compile_all_eq.
Qed.

Lemma compile_rule_eq (r : CategoryRule) (cr : CompiledRule) :
  compile_rule r = Some cr ->
  rule cr = r
  /\ _compiled_patterns cr = map (fun p => mkPattern p true) (patterns r)
  /\ (nonempty (required_patterns r) = true ->
      _compiled_required cr
      = map (fun p => mkPattern p true) (default [] (required_patterns r)))
  /\ (nonempty (exclusion_patterns r) = true ->
      _compiled_exclusions cr
      = map (fun p => mkPattern p true) (default [] (exclusion_patterns r))).
Proof.
  unfold compile_rule.
  destruct (compile_all (patterns r)) as [ps|] eqn:Hps; [| discriminate].
  destruct (compile_optional (required_patterns r)) as [req|] eqn:Hreq; [| discriminate].
  destruct (compile_optional (exclusion_patterns r)) as [exc|] eqn:Hexc; [| discriminate].
  intros [= <-]. simpl. repeat split.
  - now apply compile_all_eq.
  - now apply compile_optional_eq.
  - now apply compile_optional_eq.
Qed.

Lemma negb_forallb {A : Type} (f : A -> bool) (l : list A) :
  negb (forallb f l) = existsb (fun a => negb (f a)) l.
Proof.
  induction l as [|a l IH]; simpl; [reflexivity |].
  rewrite negb_andb. now rewrite IH.
Qed.

Lemma forallb_map {A B : Type} (g : A -> B) (f : B -> bool) (l : list A) :
  forallb f (map g l) = forallb (fun a => f (g a)) l.
Proof. induction l as [|a l IH]; simpl; [reflexivity | now rewrite IH]. Qed.

Lemma existsb_map {A B : Type} (g : A -> B) (f : B -> bool) (l : list A) :
  existsb f (map g l) = existsb (fun a => f (g a)) l.
Proof. induction l as [|a l IH]; simpl; [reflexivity | now rewrite IH]. Qed.

(** The two guards of [_score_rule], read on the rule itself. *)
Lemma required_guard (r : CategoryRule) (cr : CompiledRule) (item : Item) :
  compile_rule r = Some cr ->
  nonempty (required_patterns (rule cr))
  && negb (forallb (fun p => _matches_in_item p item) (_compiled_required cr))
  = required_unmet r item.
Proof.
  intros Hc. destruct (compile_rule_eq r cr Hc) as (Hr & _ & Hreq & _).
  unfold required_unmet. rewrite Hr.
  destruct (nonempty (required_patterns r)) eqn:Hne; simpl; [| reflexivity].
  rewrite (Hreq eq_refl), negb_forallb, existsb_map. reflexivity.
Qed.

Lemma exclusion_guard (r : CategoryRule) (cr : CompiledRule) (item : Item) :
  compile_rule r = Some cr ->
  nonempty (exclusion_patterns (rule cr))
  && existsb (fun p => _matches_in_item p item) (_compiled_exclusions cr)
  = exclusion_matched r item.
Proof.
  intros Hc. destruct (compile_rule_eq r cr Hc) as (Hr & _ & _ & Hexc).
  unfold exclusion_matched. rewrite Hr.
  destruct (nonempty (exclusion_patterns r)) eqn:Hne; simpl; [| reflexivity].
  rewrite (Hexc eq_refl), existsb_map. reflexivity.
Qed.

(** C2. A rule whose required patterns are not all found scores exactly
    0.0, leaving through the first [return] of [_score_rule]; a rule one
    of whose exclusion patterns is found scores exactly 0.0; the exclusion
    check comes second: the exclusion [return] is taken exactly when the
    required patterns are all found and an exclusion pattern is found,
    and the patterns are scored exactly when neither guard fires. In
    both guarded cases what [match] adds to the category of the rule is
    0.0. *)
Theorem score_rule_guards (r : CategoryRule) (cr : CompiledRule) (item : Item) :
  compile_rule r = Some cr ->
  (required_unmet r item = true ->
   _score_rule_exit cr item = (RequiredNotFound, 0%float))
  /\ (exclusion_matched r item = true -> _score_rule cr item = 0%float)
  /\ (_score_rule_exit cr item = (ExclusionFound, 0%float)
      <-> required_unmet r item = false /\ exclusion_matched r item = true)
  /\ (fst (_score_rule_exit cr item) = Scored
      <-> required_unmet r item = false /\ exclusion_matched r item = false)
  /\ (required_unmet r item = true \/ exclusion_matched r item = true ->
      forall scores c,
        match_rules [cr] item scores c = add_score scores (category r) 0%float c).
Proof.
  intros Hc. destruct (compile_rule_eq r cr Hc) as (Hr & _).
  unfold match_rules, _score_rule, _score_rule_exit.
  rewrite (required_guard r cr item Hc), (exclusion_guard r cr item Hc), Hr.
  destruct (required_unmet r item), (exclusion_matched r item); simpl;
    repeat split; intros; try reflexivity; try discriminate;
    try (destruct_and?; discriminate); try (destruct_or?; discriminate).
Qed.

(** ** Items on which no pattern matches *)

Lemma score_fields_silent (w : float) (p : Pattern) (item : Item)
      (fws : list (string * float)) : forall total,
  forallb (fun fw =>
             match present item (fst fw) with
             | Some v => negb (search p (lower (py_str v)))
             | None => true
             end) fws = true ->
  score_fields w p item fws total = total.
Proof.
  induction fws as [|[field fw] fws IH]; intros total Hs; simpl in *;
    [reflexivity |].
  apply andb_prop in Hs as [Hhead Htail].
  destruct (present item field) as [v|].
  - destruct (search p (lower (py_str v))); [discriminate | now apply IH].
  - now apply IH.
Qed.

Lemma score_patterns_silent (w : float) (item : Item) (fws : list (string * float))
      (ps : list Pattern) : forall total,
  forallb (fun p =>
             forallb (fun fw =>
                        match present item (fst fw) with
                        | Some v => negb (search p (lower (py_str v)))
                        | None => true
                        end) fws) ps = true ->
  score_patterns w ps item fws total = total.
Proof.
  induction ps as [|p ps IH]; intros total Hs; simpl in *; [reflexivity |].
  apply andb_prop in Hs as [Hhead Htail].
  rewrite (score_fields_silent w p item fws total Hhead). now apply IH.
Qed.

Lemma score_rule_silent (cr : CompiledRule) (item : Item) :
  patterns_silent cr item = true -> _score_rule cr item = 0%float.
Proof.
  intros Hs. unfold _score_rule, _score_rule_exit.
  destruct (nonempty (required_patterns (rule cr))
            && negb (forallb (fun p => _matches_in_item p item) (_compiled_required cr)));
    [reflexivity |].
  destruct (nonempty (exclusion_patterns (rule cr))
            && existsb (fun p => _matches_in_item p item) (_compiled_exclusions cr));
    [reflexivity |].
  simpl. now apply score_patterns_silent.
Qed.

Lemma add_score_zero (scores : Scores) (cat : CategoryType) :
  (forall c, scores c = 0%float) -> forall c, add_score scores cat 0%float c = 0%float.
Proof.
  intros Hz c. unfold add_score. rewrite Hz.
  destruct (category_eqb c cat); reflexivity.
Qed.

Lemma match_rules_silent (item : Item) (rs : list CompiledRule) : forall scores,
  forallb (fun r => patterns_silent r item) rs = true ->
  (forall c, scores c = 0%float) ->
  forall c, match_rules rs item scores c = 0%float.
Proof.
  induction rs as [|r rs IH]; intros scores Hs Hz; simpl in *; [exact Hz |].
  apply andb_prop in Hs as [Hhead Htail].
  apply IH; [exact Htail |].
  rewrite (score_rule_silent r item Hhead). now apply add_score_zero.
Qed.

Lemma add_items_zero (items : list (CategoryType * float)) : forall acc,
  Forall (fun cs => snd cs = 0%float) items ->
  (forall c, acc c = 0%float) ->
  forall c, add_items acc items c = 0%float.
Proof.
  unfold add_items.
  induction items as [|[cat x] items IH]; intros acc Hall Hz; simpl; [exact Hz |].
  inversion Hall as [|? ? Hx Hrest]; subst. simpl in Hx. subst x.
  apply IH; [exact Hrest | now apply add_score_zero].
Qed.

Lemma run_matchers_silent (item : Item) (ms : list CategoryMatcher) : forall acc,
  forallb (fun m =>
             match m with
             | PatternMatcher rs => forallb (fun r => patterns_silent r item) rs
             | CustomMatcher _ _ => false
             end) ms = true ->
  (forall c, acc c = 0%float) ->
  forall c, fold_left (fun acc m => add_items acc (match_items m item)) ms acc c
            = 0%float.
Proof.
  induction ms as [|m ms IH]; intros acc Hs Hz; [exact Hz |].
  cbn [forallb] in Hs. apply andb_prop in Hs as [Hhead Htail].
  cbn [fold_left]. apply IH; [exact Htail |].
  destruct m as [rs | n g]; [| discriminate].
  apply add_items_zero; [| exact Hz].
  cbn [match_items]. apply List.Forall_forall. intros [cat x] Hin.
  apply in_map_iff in Hin as (c' & [= <- <-] & _). simpl.
  apply match_rules_silent; [exact Hhead | reflexivity].
Qed.

(** C1 (amended). When no pattern of any rule matches a field of the
    item, [categorize] returns a result in which every category has the
    aggregate score 0.0, the confidence is 0.0, and the category is the
    first member of the enumeration, [EBOOK]. *)
Theorem categorize_without_matches (engine : CategorizationEngine) (item : Item) :
  no_rule_matches engine item = true ->
  let r := categorize engine item in
  (forall c, scores r c = 0%float)
  /\ result_category r = EBOOK
  /\ confidence r = 0%float.
Proof.
  intros Hs r.
  assert (Hz : forall c, run_matchers (matchers engine) item c = 0%float).
  { apply run_matchers_silent; [exact Hs | reflexivity]. }
  subst r. unfold categorize. cbn [scores result_category confidence].
  split; [exact Hz |].
  assert (Hbest : py_max_from (run_matchers (matchers engine) item)
                              first_category later_categories = EBOOK).
  { unfold later_categories, first_category. cbn [py_max_from].
    rewrite !Hz. reflexivity. }
  rewrite Hbest. split; [reflexivity |]. rewrite Hz. reflexivity.
Qed.

(** ** Selection *)

(** [max] picks, among the scores of all categories, the first maximum. *)
Lemma py_max_first_maximum (s : Scores) :
  first_maximum s (py_max_from s first_category later_categories).
Proof.
  unfold first_maximum.
  destruct (is_nan (s first_category)) eqn:Hfirst.
  - now apply py_max_from_nan.
  - pose proof (py_max_from_number s later_categories first_category Hfirst) as Hbest.
    destruct (py_max_from_split s first_category later_categories)
      as (earlier & later & Hsplit & Hbefore & Hafter).
    set (best := py_max_from s first_category later_categories) in *.
    split; [exact Hbest |]. split.
    + intros c Hc.
      assert (Hin : In c (earlier ++ best :: later)).
      { rewrite <- Hsplit. apply in_all_categories. }
      apply in_app_or in Hin. destruct Hin as [Hin | [<- | Hin]].
      * rewrite List.Forall_forall in Hbefore.
        destruct (Hbefore c Hin) as [Hlt | Hnan]; [now apply ltb_leb | congruence].
      * apply leb_of_not_ltb; auto. apply ltb_irrefl.
      * rewrite List.Forall_forall in Hafter.
        apply leb_of_not_ltb; auto.
    + exists earlier, later. split; [exact Hsplit |].
      apply List.Forall_forall. intros c Hin Hc.
      rewrite List.Forall_forall in Hbefore.
      destruct (Hbefore c Hin) as [Hlt | Hnan]; [exact Hlt | congruence].
Qed.

(** No other category is the first maximum. *)
Lemma first_maximum_unique (s : Scores) (c d : CategoryType) :
  first_maximum s c -> first_maximum s d -> c = d.
Proof.
  unfold first_maximum. destruct (is_nan (s first_category)); [congruence |].
  intros (Hc & Hcmax & ec & lc & Hcs & Hcb) (Hd & Hdmax & ed & ld & Hds & Hdb).
  rewrite Hcs in Hds.
  destruct (split_twice _ _ _ _ _ _ Hds) as [Hin | [Hin | (_ & Heq & _)]];
    [| | exact Heq]; exfalso.
  - rewrite List.Forall_forall in Hdb. pose proof (Hdb c Hin Hc) as Hlt.
    pose proof (leb_not_ltb _ _ (Hcmax d Hd)) as Hle. congruence.
  - rewrite List.Forall_forall in Hcb. pose proof (Hcb d Hin Hd) as Hlt.
    pose proof (leb_not_ltb _ _ (Hdmax c Hc)) as Hle. congruence.
Qed.

(** The category [categorize] returns is the first maximum of the
    aggregate scores, which are the scores it returns. *)
Lemma categorize_selection (engine : CategorizationEngine) (item : Item) :
  first_maximum (run_matchers (matchers engine) item)
                (result_category (categorize engine item))
  /\ forall c, scores (categorize engine item) c = run_matchers (matchers engine) item c.
Proof.
  split; [apply py_max_first_maximum | reflexivity].
Qed.

(** What one pattern matcher gives a category: the summed score of its
    rules. *)
Lemma match_rules_summed (item : Item) (c : CategoryType) (rs : list CompiledRule) :
  forall scores,
    match_rules rs item scores c = summed_score rs item c (scores c).
Proof.
  induction rs as [|r rs IH]; intros scores; simpl; [reflexivity |].
  rewrite IH. unfold add_score. reflexivity.
Qed.

Lemma run_single_pattern_matcher (rs : list CompiledRule) (item : Item)
      (c : CategoryType) :
  run_matchers [PatternMatcher rs] item c = (0 + summed_score rs item c 0)%float.
Proof.
  unfold run_matchers. cbn [fold_left match_items].
  unfold PatternMatcher_match.
  change (summed_score rs item c 0) with (summed_score rs item c (zero_scores c)).
  rewrite <- match_rules_summed. destruct c; reflexivity.
Qed.

(** C4. The category [categorize] returns is the first maximum of the
    aggregate scores the matchers give the item, and no other category
    is: its score is a number that no score exceeds, and every category
    declared before it scores strictly less; in particular, when the
    scores are numbers, every score is at most the selected one and
    every earlier category is strictly below it, so among categories
    with exactly equal maximum scores the one declared first is
    returned. The selection depends on the scores only. *)
Theorem categorize_selects_first_maximum (engine : CategorizationEngine) (item : Item) :
  let s := run_matchers (matchers engine) item in
  let best := result_category (categorize engine item) in
  (forall c, scores (categorize engine item) c = s c)
  /\ first_maximum s best
  /\ (forall c, first_maximum s c -> c = best)
  /\ ((forall c, is_nan (s c) = false) ->
      (forall c, PrimFloat.leb (s c) (s best) = true)
      /\ exists earlier later,
           all_categories = earlier ++ best :: later
           /\ Forall (fun c => PrimFloat.ltb (s c) (s best) = true
                               /\ PrimFloat.eqb (s c) (s best) = false) earlier)
  /\ (forall engine' item',
         (forall c, run_matchers (matchers engine') item' c = s c) ->
         result_category (categorize engine' item') = best).
Proof.
  intros s best.
  destruct (categorize_selection engine item) as [Hmax Hscores].
  fold s best in Hmax.
  split; [exact Hscores |]. split; [exact Hmax |]. split; [| split].
  - intros c Hc. exact (first_maximum_unique s c best Hc Hmax).
  - intros Hnum. unfold first_maximum in Hmax. rewrite (Hnum first_category) in Hmax.
    destruct Hmax as (_ & Hall & earlier & later & Hsplit & Hbefore).
    split; [intros c; apply Hall, Hnum |].
    exists earlier, later. split; [exact Hsplit |].
    eapply List.Forall_impl; [| exact Hbefore].
    intros c Hc. cbv beta in Hc. specialize (Hc (Hnum c)).
    split; [exact Hc | now apply ltb_not_eqb].
  - intros engine' item' Hsame. apply py_max_from_ext. exact Hsame.
Qed.

(** ** Confidence *)

(** C3. The category returned is the winning one, the first maximum of
    the aggregate scores, and the confidence is [min(score, 1.0)] of its
    aggregate score: exactly 1.0 when the score exceeds 1.0, the score
    itself, unchanged, when it is below or equal to 1.0, and never above
    1.0. For an engine as the constructor builds it, with its one pattern
    matcher, the aggregate score of a category is the summed score of the
    rules of the category. *)
Theorem confidence_is_clamped_score (engine : CategorizationEngine) (item : Item) :
  let all_scores := run_matchers (matchers engine) item in
  let r := categorize engine item in
  let s := all_scores (result_category r) in
  first_maximum all_scores (result_category r)
  /\ confidence r = (if PrimFloat.ltb 1 s then 1%float else s)
  /\ (PrimFloat.ltb 1 s = true -> confidence r = 1%float)
  /\ (PrimFloat.ltb s 1 = true -> confidence r = s)
  /\ (PrimFloat.eqb s 1 = true -> confidence r = s)
  /\ (is_nan s = false -> PrimFloat.leb (confidence r) 1 = true)
  /\ (forall rs,
         matchers engine = [PatternMatcher rs] ->
         forall c, all_scores c = (0 + summed_score rs item c 0)%float).
Proof.
  intros all_scores r s.
  split; [exact (proj1 (categorize_selection engine item)) |].
  assert (Hconf : confidence r = (if PrimFloat.ltb 1 s then 1%float else s))
    by reflexivity.
  split; [exact Hconf |]. rewrite Hconf. clearbody s. clear Hconf.
  repeat split.
  - intros ->. reflexivity.
  - intros Hlt. now rewrite (ltb_asym _ _ Hlt).
  - intros Heq. destruct (PrimFloat.ltb 1 s) eqn:Hlt; [| reflexivity].
    apply ltb_not_eqb in Hlt.
    rewrite FloatAxioms.eqb_spec in Heq, Hlt.
    unfold SFeqb in *.
    destruct (Prim2SF s), (Prim2SF 1); simpl in *; try discriminate;
      repeat match goal with b : bool |- _ => destruct b end;
      simpl in *; try discriminate.
    all: repeat match goal with
           | H : context [Z.compare ?a ?b] |- _ => destruct (Z.compare_spec a b)
           end; try discriminate; subst; try lia.
    all: repeat match goal with
           | H : context [Pos.compare_cont Eq ?a ?b] |- _ =>
               change (Pos.compare_cont Eq a b) with (Pos.compare a b) in H;
               destruct (Pos.compare_spec a b)
           end; simpl in *; try discriminate; subst; try lia.
  - intros Hnan. destruct (PrimFloat.ltb 1 s) eqn:Hlt; [reflexivity |].
    apply leb_of_not_ltb; [reflexivity | exact Hnan | exact Hlt].
  - intros rs Hrs c. unfold all_scores. rewrite Hrs.
    apply run_single_pattern_matcher.
Qed.

(** The list of matched rules is never filled. *)
Lemma matched_rules_always_empty (engine : CategorizationEngine) (item : Item) :
  matched_rules (categorize engine item) = [].
Proof. reflexivity. Qed.

End CategorizationProperties.

(** ** The samples *)

Lemma default_engine_created : new_CategorizationEngine = Some default_engine.
Proof. vm_compute. reflexivity. Qed.

(** C1, counterexample: on the empty item no pattern matches,
    and the default engine answers [EBOOK], not [UNKNOWN]. *)
Lemma empty_item_is_not_unknown :
  no_rule_matches default_engine (∅ : Item) = true
  /\ result_category (categorize default_engine (∅ : Item)) = EBOOK
  /\ result_category (categorize default_engine (∅ : Item)) <> UNKNOWN.
Proof. vm_compute. repeat split. discriminate. Qed.

Lemma categorize_without_matches_witness :
  no_rule_matches default_engine blank_item = true
  /\ (forall c, scores (categorize default_engine blank_item) c = 0%float)
  /\ result_category (categorize default_engine blank_item) = EBOOK
  /\ confidence (categorize default_engine blank_item) = 0%float.
Proof.
  split; [vm_compute; reflexivity |].
  apply (categorize_without_matches default_engine blank_item).
  vm_compute. reflexivity.
Defined.

Lemma score_rule_guards_witness :
  compile_rule guide_rule = Some guide_rule_compiled
  /\ required_unmet guide_rule cooking_guide = true
  /\ _score_rule_exit guide_rule_compiled cooking_guide = (RequiredNotFound, 0%float)
  /\ exclusion_matched guide_rule python_game_guide = true
  /\ _score_rule_exit guide_rule_compiled python_game_guide = (ExclusionFound, 0%float)
  /\ _score_rule_exit guide_rule_compiled python_guide
     = (Scored, 0.80000000000000004%float).
Proof.
  assert (Hc : compile_rule guide_rule = Some guide_rule_compiled)
    by (vm_compute; reflexivity).
  split; [exact Hc |].
  split; [vm_compute; reflexivity |].
  split.
  { apply (proj1 (score_rule_guards guide_rule guide_rule_compiled cooking_guide Hc)).
    vm_compute. reflexivity. }
  split; [vm_compute; reflexivity |].
  split.
  { apply (proj1 (proj2 (proj2 (score_rule_guards guide_rule guide_rule_compiled
                                                python_game_guide Hc)))).
    split; vm_compute; reflexivity. }
  vm_compute. reflexivity.
Defined.

(** "Adventure Quest Game": three patterns of the rule game_keywords
    match, the aggregate score of [GAME] is 2.4, [GAME] wins although it
    is not declared first, and the confidence is 1.0. "Python Guide": two
    rules of [EBOOK] fire, 0.8 and 1.08, their sum 1.88 is clamped to 1.0.
    "Cooking Guide": the score 0.8 is returned unchanged. *)
Lemma confidence_is_clamped_score_witness :
  run_matchers (matchers default_engine) adventure_quest GAME = 2.4000000000000004%float
  /\ result_category (categorize default_engine adventure_quest) = GAME
  /\ first_maximum (run_matchers (matchers default_engine) adventure_quest) GAME
  /\ confidence (categorize default_engine adventure_quest) = 1%float
  /\ contributing_rules default_engine python_guide
     = ["ebook_keywords"; "ebook_programming"]
  /\ run_matchers (matchers default_engine) python_guide EBOOK = 1.8800000000000001%float
  /\ confidence (categorize default_engine python_guide) = 1%float
  /\ run_matchers (matchers default_engine) cooking_guide EBOOK = 0.80000000000000004%float
  /\ confidence (categorize default_engine cooking_guide) = 0.80000000000000004%float.
Proof.
  assert (Hgame : result_category (categorize default_engine adventure_quest) = GAME)
    by (vm_compute; reflexivity).
  split; [vm_compute; reflexivity |].
  split; [exact Hgame |].
  split.
  { rewrite <- Hgame.
    exact (proj1 (confidence_is_clamped_score default_engine adventure_quest)). }
  split.
  { apply (proj1 (proj2 (proj2 (confidence_is_clamped_score default_engine
                                                          adventure_quest)))).
    vm_compute. reflexivity. }
  split; [vm_compute; reflexivity |].
  split; [vm_compute; reflexivity |].
  split.
  { apply (proj1 (proj2 (proj2 (confidence_is_clamped_score default_engine python_guide)))).
    vm_compute. reflexivity. }
  split; [vm_compute; reflexivity |].
  transitivity (run_matchers (matchers default_engine) cooking_guide
                  (result_category (categorize default_engine cooking_guide)));
    [| vm_compute; reflexivity].
  apply (proj1 (proj2 (proj2 (proj2 (confidence_is_clamped_score default_engine
                                                                 cooking_guide))))).
  vm_compute. reflexivity.
Defined.

(** A genuine tie: "game tool" scores 0.8 for [GAME] and for [SOFTWARE]
    and nothing for the rest; [GAME], declared before [SOFTWARE], is
    selected, and it is the first maximum of the scores. *)
Lemma categorize_selects_first_maximum_witness :
  run_matchers (matchers default_engine) game_tool GAME = 0.80000000000000004%float
  /\ run_matchers (matchers default_engine) game_tool SOFTWARE = 0.80000000000000004%float
  /\ run_matchers (matchers default_engine) game_tool EBOOK = 0%float
  /\ result_category (categorize default_engine game_tool) = GAME
  /\ first_maximum (run_matchers (matchers default_engine) game_tool) GAME
  /\ ~ first_maximum (run_matchers (matchers default_engine) game_tool) SOFTWARE.
Proof.
  assert (Hgame : result_category (categorize default_engine game_tool) = GAME)
    by (vm_compute; reflexivity).
  pose proof (categorize_selects_first_maximum default_engine game_tool) as Hsel.
  cbv zeta in Hsel. rewrite Hgame in Hsel.
  destruct Hsel as (_ & Hmax & Honly & _).
  split; [vm_compute; reflexivity |].
  split; [vm_compute; reflexivity |].
  split; [vm_compute; reflexivity |].
  split; [exact Hgame |].
  split; [exact Hmax |].
  intros Hsoft. specialize (Honly SOFTWARE Hsoft). discriminate Honly.
Defined.

(** C8, the code at the failing input: two rules contribute to the score
    of "Python Guide", and the result lists none. *)
Theorem matched_rules_empty_for_python_guide :
  contributing_rules default_engine python_guide = ["ebook_keywords"; "ebook_programming"]
  /\ scores (categorize default_engine python_guide) EBOOK = 1.8800000000000001%float
  /\ matched_rules (categorize default_engine python_guide) = [].
Proof. vm_compute. repeat split. Qed.

(* ===================================================================== *)
(** * Properties: the store held in memory *)
(* ===================================================================== *)

(** ** Ordering by name *)

Lemma ascii_compare_lt_trans (a b c : ascii) :
  Ascii.compare a b = Lt -> Ascii.compare b c = Lt -> Ascii.compare a c = Lt.
Proof.
  unfold Ascii.compare. rewrite !N.compare_lt_iff. lia.
Qed.

Lemma string_compare_lt_trans (a : string) : forall b c,
  String.compare a b = Lt -> String.compare b c = Lt -> String.compare a c = Lt.
Proof.
  induction a as [|x a IH]; intros [|y b] [|z c] Hab Hbc; simpl in *;
    try discriminate; auto.
  destruct (Ascii.compare x y) eqn:Exy; try discriminate;
    destruct (Ascii.compare y z) eqn:Eyz; try discriminate.
  - apply Ascii.compare_eq_iff in Exy. apply Ascii.compare_eq_iff in Eyz. subst.
    replace (Ascii.compare z z) with Eq
      by (unfold Ascii.compare; now rewrite N.compare_refl).
    eapply IH; eauto.
  - apply Ascii.compare_eq_iff in Exy. subst. now rewrite Eyz.
  - apply Ascii.compare_eq_iff in Eyz. subst. now rewrite Exy.
  - now rewrite (ascii_compare_lt_trans _ _ _ Exy Eyz).
Qed.

Lemma string_leb_cases (a b : string) :
  String.leb a b = true <-> String.compare a b = Lt \/ a = b.
Proof.
  unfold String.leb. split.
  - destruct (String.compare a b) eqn:E; try discriminate; intros _.
    + right. now apply String.compare_eq_iff.
    + now left.
  - intros [-> | ->]; [reflexivity |].
    destruct (String.compare b b) eqn:E; try reflexivity.
    pose proof (String.compare_antisym b b) as Hanti. rewrite E in Hanti.
    discriminate Hanti.
Qed.

Lemma string_leb_trans (a b c : string) :
  String.leb a b = true -> String.leb b c = true -> String.leb a c = true.
Proof.
  rewrite !string_leb_cases. intros [Hab | ->] [Hbc | ->]; auto.
  left. eapply string_compare_lt_trans; eauto.
Qed.

Lemma name_le_trans (a b c : StoredRow) :
  name_le a b = true -> name_le b c = true -> name_le a c = true.
Proof.
  unfold name_le.
  destruct (row_human_name (projection a)), (row_human_name (projection b)),
    (row_human_name (projection c)); try discriminate; auto.
  apply string_leb_trans.
Qed.

Lemma name_le_total (a b : StoredRow) : name_le a b = true \/ name_le b a = true.
Proof.
  unfold name_le.
  destruct (row_human_name (projection a)), (row_human_name (projection b)); auto.
  apply String.leb_total.
Qed.

Lemma all_after_weaken (x y : StoredRow) (l : list StoredRow) :
  name_le x y = true -> all_after y l -> all_after x l.
Proof.
  intros Hxy Hall. unfold all_after in *. rewrite List.Forall_forall in *.
  intros z Hz. eapply name_le_trans; eauto.
Qed.

Lemma insert_by_name_all_after (x y : StoredRow) (l : list StoredRow) :
  name_le y x = true -> all_after y l -> all_after y (insert_by_name x l).
Proof.
  intros Hyx. induction l as [|z l IH]; intros Hall; simpl.
  - constructor; [exact Hyx | constructor].
  - inversion Hall as [|? ? Hz Hl]; subst.
    destruct (name_le x z); repeat constructor; auto.
    now apply IH.
Qed.

Lemma insert_by_name_ordered (x : StoredRow) (l : list StoredRow) :
  ordered l -> ordered (insert_by_name x l).
Proof.
  induction 1 as [|y l Hall Hord IH]; simpl.
  - repeat constructor.
  - destruct (name_le x y) eqn:Hxy.
    + constructor; [| now constructor].
      constructor; [exact Hxy |]. eapply all_after_weaken; eauto.
    + constructor; [| exact IH].
      apply insert_by_name_all_after; [| exact Hall].
      destruct (name_le_total x y) as [Hle | Hle]; [congruence | exact Hle].
Qed.

Lemma order_by_human_name_ordered (l : list StoredRow) :
  ordered (order_by_human_name l).
Proof.
  induction l as [|x l IH]; simpl; [constructor | now apply insert_by_name_ordered].
Qed.

Lemma insert_before_all (x : StoredRow) (l : list StoredRow) :
  all_after x l -> insert_by_name x l = x :: l.
Proof.
  intros Hall. destruct l as [|y l]; simpl; [reflexivity |].
  inversion Hall as [|? ? Hy Hl]; subst. now rewrite Hy.
Qed.

Lemma all_after_filter (P : StoredRow -> bool) (x : StoredRow) (l : list StoredRow) :
  all_after x l -> all_after x (List.filter P l).
Proof.
  unfold all_after. rewrite !List.Forall_forall. intros Hall y Hy.
  apply filter_In in Hy as [Hy _]. now apply Hall.
Qed.

(** Keeping the records that satisfy [P] commutes with the insertion of a
    record into an ordered list. *)
Lemma filter_insert_by_name (P : StoredRow -> bool) (x : StoredRow) (l : list StoredRow) :
  ordered l ->
  List.filter P (insert_by_name x l)
  = if P x then insert_by_name x (List.filter P l) else List.filter P l.
Proof.
  induction 1 as [|y l Hall Hord IH]; simpl.
  - destruct (P x); reflexivity.
  - destruct (name_le x y) eqn:Hxy; simpl.
    + destruct (P x) eqn:Hx, (P y) eqn:Hy; simpl; rewrite ?Hxy; try reflexivity.
      symmetry. apply insert_before_all. apply all_after_filter.
      eapply all_after_weaken; eauto.
    + rewrite IH. destruct (P x) eqn:Hx, (P y) eqn:Hy; simpl; rewrite ?Hxy;
        reflexivity.
Qed.

(** ORDER BY after WHERE is WHERE after ORDER BY. *)
Lemma order_filter_commute (P : StoredRow -> bool) (l : list StoredRow) :
  order_by_human_name (List.filter P l) = List.filter P (order_by_human_name l).
Proof.
  induction l as [|x l IH]; simpl; [reflexivity |].
  rewrite filter_insert_by_name by apply order_by_human_name_ordered.
  destruct (P x); simpl; now rewrite IH.
Qed.

Lemma in_insert_by_name (x y : StoredRow) (l : list StoredRow) :
  In y (insert_by_name x l) <-> y = x \/ In y l.
Proof.
  induction l as [|z l IH]; simpl.
  - intuition.
  - destruct (name_le x z); simpl; [intuition |]. rewrite IH. intuition.
Qed.

Lemma in_order_by_human_name (y : StoredRow) (l : list StoredRow) :
  In y (order_by_human_name l) <-> In y l.
Proof.
  induction l as [|x l IH]; simpl; [reflexivity |].
  rewrite in_insert_by_name, IH. intuition.
Qed.

Lemma filter_map_commute {A B : Type} (g : A -> B) (Q : B -> bool) (l : list A) :
  List.filter Q (map g l) = map g (List.filter (fun a => Q (g a)) l).
Proof.
  induction l as [|a l IH]; simpl; [reflexivity |].
  destruct (Q (g a)); simpl; now rewrite IH.
Qed.


(** ** Evaluating the filter conditions *)

Lemma strip_order_by_snoc (toks : Sql) :
  Forall (fun t => t <> ORDER_BY_HUMAN_NAME) toks ->
  strip_order_by (toks ++ [ORDER_BY_HUMAN_NAME]) = (toks, true).
Proof.
  induction 1 as [|t toks Ht Hall IH]; [reflexivity |].
  cbn [app strip_order_by]. rewrite IH.
  destruct t; try reflexivity. now contradiction Ht.
Qed.

Lemma join_conditions_no_order (op : string) (conds : list SqlCond) :
  Forall (fun t => t <> ORDER_BY_HUMAN_NAME) (join_conditions op conds).
Proof.
  induction conds as [|c [|c' conds] IH]; cbn [join_conditions].
  - constructor.
  - repeat constructor. discriminate.
  - constructor; [discriminate |]. constructor; [discriminate | exact IH].
Qed.

Lemma where_clause_no_order (entries : list (SqlCond * Param)) :
  Forall (fun t => t <> ORDER_BY_HUMAN_NAME) (where_clause entries).
Proof.
  destruct entries as [|e entries]; [constructor |].
  unfold where_clause. constructor; [discriminate |].
  apply join_conditions_no_order.
Qed.

Lemma eval_cond_entry (e : SqlCond * Param) (rest : list Param) (r : StoredRow) :
  filter_entry_ok e ->
  eval_cond (fst e) (snd e :: rest) r = Some (entry_holds r e, rest).
Proof.
  destruct e as [c p]. unfold entry_holds.
  destruct c, p; simpl; intros Hok; try contradiction; reflexivity.
Qed.

Lemma eval_where_conjunction (r : StoredRow) (entries : list (SqlCond * Param)) :
  Forall filter_entry_ok entries ->
  forall acc,
    eval_where (join_conditions "AND" (map fst entries)) (map snd entries) r acc
    = Some (acc && forallb (entry_holds r) entries).
Proof.
  induction 1 as [|e entries He Hall IH]; intros acc.
  - simpl. now rewrite andb_true_r.
  - destruct entries as [|e' entries].
    + cbn [map join_conditions eval_where forallb].
      rewrite (eval_cond_entry e [] r He). cbn [eval_where].
      now rewrite andb_true_r.
    + cbn [map join_conditions eval_where].
      rewrite (eval_cond_entry e _ r He).
      cbn [eval_where String.eqb Ascii.eqb Bool.eqb].
      change (map snd (e' :: entries)) with (snd e' :: map snd entries).
      change (snd e' :: map snd entries) with (map snd (e' :: entries)).
      change (join_conditions "AND" (fst e' :: map fst entries))
        with (join_conditions "AND" (map fst (e' :: entries))).
      rewrite IH. cbn [forallb]. f_equal.
      destruct acc, (entry_holds r e); reflexivity.
Qed.

Lemma select_where_filter (toks : Sql) (params : list Param) (P : StoredRow -> bool)
      (table : list StoredRow) :
  (forall r, eval_where toks params r true = Some (P r)) ->
  select_where toks params table = Some (List.filter P table).
Proof.
  intros Heval. induction table as [|r table IH]; simpl; [reflexivity |].
  rewrite Heval, IH. reflexivity.
Qed.

Lemma filter_conditions_ok (f : Filters) : Forall filter_entry_ok (filter_conditions f).
Proof.
  unfold filter_conditions, filter_entry.
  destruct (get_text (filter_category f)), (get_text (filter_source f)),
    (get_text (filter_platform f)), (get_number (filter_rating_min f)),
    (get_number (filter_rating_max f)); simpl; repeat constructor.
Qed.

(** The conditions sent to the store say what [holds_in_store] says. *)
Lemma filter_conditions_hold (filters : option Filters) (r : StoredRow) :
  forallb (entry_holds r) (filter_conditions (default no_filters filters))
  = holds_in_store filters r.
Proof.
  unfold holds_in_store, filter_conditions, filter_entry, entry_holds.
  generalize (default no_filters filters). intros f.
  destruct (get_text (filter_category f)), (get_text (filter_source f)),
    (get_text (filter_platform f)), (get_number (filter_rating_min f)),
    (get_number (filter_rating_max f)); simpl;
    rewrite ?andb_true_r, ?andb_assoc; reflexivity.
Qed.

Lemma no_keys_no_conditions (filters : option Filters) :
  has_keys filters = false -> filter_conditions (default no_filters filters) = [].
Proof.
  destruct filters as [[[c|] [s|] [p|] [lo|] [hi|]]|]; simpl; intros Hk;
    try discriminate; reflexivity.
Qed.




Lemma bind_lift {A B : Type} (r : Exc + A) (k : A -> DB B) (conn : Connection) :
  bind (lift r) k conn
  = match r with
    | inl e => ([], inl e)
    | inr a => k a conn
    end.
Proof.
  unfold bind, lift. destruct r as [e | a]; [reflexivity |].
  destruct (k a conn) as [calls out]. reflexivity.
Qed.

Section SearchProperties.

Context `{RegexEngine}.

(** The three ways a regex search starts. *)
Lemma search_with_regex_cases (query : string) (filters : option Filters)
      (case_sensitive : bool) (conn : Connection) :
  _search_with_regex query filters case_sensitive conn
  = match validate_regex query with
    | inl e => ([], inl e)
    | inr false => ([], inl (ValueError ("Invalid regex pattern: " ++ query)))
    | inr true =>
        bind (fetch_filtered [] [] filters)
             (fun results =>
                ret (_format_results
                       (List.filter
                          (fun row => _row_matches_regex
                                        (compile_query query case_sensitive) row)
                          results))) conn
    end.
Proof.
  unfold _search_with_regex. rewrite bind_lift.
  destruct (validate_regex query) as [e | [|]]; reflexivity.
Qed.

Lemma search_field_with_regex_cases (field query : string) (case_sensitive : bool)
      (filters : option Filters) (conn : Connection) :
  _search_field_with_regex field query case_sensitive filters conn
  = match validate_regex query with
    | inl e => ([], inl e)
    | inr false => ([], inl (ValueError ("Invalid regex pattern: " ++ query)))
    | inr true =>
        bind (fetch_filtered [] [] filters)
             (fun results =>
                ret (_format_results
                       (List.filter
                          (fun row => value_matches (compile_query query case_sensitive)
                                                    (_get_field_value row field))
                          results))) conn
    end.
Proof.
  unfold _search_field_with_regex. rewrite bind_lift.
  destruct (validate_regex query) as [e | [|]]; reflexivity.
Qed.

(** The statement and the parameters of a search that starts from a
    statement without a WHERE clause. *)
Lemma fetch_filtered_statement (filters : option Filters) (conn : Connection) :
  fetch_filtered [] [] filters conn
  = ([CallExecute
        (where_clause (filter_conditions (default no_filters filters))
         ++ [ORDER_BY_HUMAN_NAME])
        (map snd (filter_conditions (default no_filters filters)))],
     execute conn
       (where_clause (filter_conditions (default no_filters filters))
        ++ [ORDER_BY_HUMAN_NAME])
       (map snd (filter_conditions (default no_filters filters)))).
Proof.
  unfold fetch_filtered, _add_filters_to_sql.
  destruct (has_keys filters) eqn:Hk; cbn [negb].
  - destruct (filter_conditions (default no_filters filters)) as [|e es] eqn:He;
      reflexivity.
  - rewrite (no_keys_no_conditions filters Hk). reflexivity.
Qed.

(** What the store held in memory answers to it. *)
Lemma execute_filtered (table : list StoredRow) (filters : option Filters) :
  execute_on_table table
    (where_clause (filter_conditions (default no_filters filters))
     ++ [ORDER_BY_HUMAN_NAME])
    (map snd (filter_conditions (default no_filters filters)))
  = inr (map projection
           (order_by_human_name (List.filter (holds_in_store filters) table))).
Proof.
  unfold execute_on_table.
  rewrite strip_order_by_snoc by apply where_clause_no_order.
  pose proof (filter_conditions_ok (default no_filters filters)) as Hok.
  pose proof (filter_conditions_hold filters) as Hhold.
  destruct (filter_conditions (default no_filters filters)) as [|e es] eqn:He.
  - cbn [where_clause]. f_equal. f_equal. f_equal.
    symmetry. clear -Hhold. induction table as [|r table IH]; simpl; [reflexivity |].
    rewrite <- Hhold. simpl. now rewrite IH.
  - unfold where_clause.
    rewrite (select_where_filter _ _ (holds_in_store filters)); [reflexivity |].
    intros r. rewrite eval_where_conjunction by exact Hok.
    now rewrite Hhold.
Qed.




Lemma filter_all {A : Type} (P : A -> bool) (l : list A) :
  (forall a, P a = true) -> List.filter P l = l.
Proof.
  intros HP. induction l as [|a l IH]; simpl; [reflexivity |].
  now rewrite HP, IH.
Qed.




(** ** The field 'description' in regex mode *)

Lemma search_by_field_description (query : string) (case_sensitive : bool)
      (filters : option Filters) (conn : Connection) :
  validate_regex query = inr true ->
  search_by_field "description" query true case_sensitive filters conn
  = (calls_of (fetch_filtered [] [] filters conn),
     match outcome (fetch_filtered [] [] filters conn) with
     | inl e => inl e
     | inr _ => inr []
     end).
Proof.
  intros Hv. unfold search_by_field. cbn [is_searchable searchable_fields existsb].
  cbn [String.eqb Ascii.eqb Bool.eqb orb negb].
  rewrite search_field_with_regex_cases, Hv.
  unfold bind, ret. rewrite fetch_filtered_statement. unfold calls_of, outcome.
  cbn [fst snd].
  destruct (execute conn _ _) as [e | rows]; [reflexivity |].
  cbn [app]. f_equal. f_equal.
  induction rows as [|row rows IH]; [reflexivity |].
  cbn [List.filter _get_field_value String.eqb Ascii.eqb Bool.eqb value_matches].
  exact IH.
Qed.

(** C10 (amended). A regex search in the field 'description' does one of
    four things. When [re.compile] raises [re.error] for the query, it
    raises the ValueError "Invalid regex pattern: ..." and sends nothing
    to the store; when [re.compile] raises another exception, that
    exception passes through, and nothing is sent to the store either;
    when the query compiles, the search sends its one statement, and if
    the store raises for it the error of the store passes through, and
    otherwise, whatever rows the store answers, the search returns the
    empty list. On a store held in memory a query that compiles always
    gives the empty list. *)
Theorem description_regex_search_is_empty (query : string) (case_sensitive : bool)
        (filters : option Filters) :
  (forall conn,
      let result := search_by_field "description" query true case_sensitive filters conn in
      match validate_regex query with
      | inl e => result = ([], inl e)
      | inr false =>
          result = ([], inl (ValueError ("Invalid regex pattern: " ++ query)))
      | inr true =>
          (exists sql params,
              calls_of result = [CallExecute sql params]
              /\ match execute conn sql params with
                 | inl e => outcome result = inl e
                 | inr rows => outcome result = inr []
                 end)
      end)
  /\ (validate_regex query = inr true ->
      forall table np nb bc bs,
        outcome (search_by_field "description" query true case_sensitive filters
                                 (table_connection table np nb bc bs)) = inr []).
Proof.
  split.
  - intros conn result. subst result.
    destruct (validate_regex query) as [e | [|]] eqn:Hv.
    + unfold search_by_field. cbn [is_searchable searchable_fields existsb].
      cbn [String.eqb Ascii.eqb Bool.eqb orb negb].
      now rewrite search_field_with_regex_cases, Hv.
    + rewrite search_by_field_description by exact Hv.
      rewrite fetch_filtered_statement. unfold calls_of, outcome. cbn [fst snd].
      eexists. eexists. split; [reflexivity |].
      destruct (execute conn _ _); reflexivity.
    + unfold search_by_field. cbn [is_searchable searchable_fields existsb].
      cbn [String.eqb Ascii.eqb Bool.eqb orb negb].
      now rewrite search_field_with_regex_cases, Hv.
  - intros Hv table np nb bc bs. rewrite search_by_field_description by exact Hv.
    unfold outcome at 1. cbn [snd]. rewrite fetch_filtered_statement.
    unfold outcome. cbn [snd table_connection execute].
    now rewrite execute_filtered.
Qed.

(** ** Statistics *)

(** C9. [get_search_stats] always returns a dictionary, which carries the
    list of searchable fields; when one of its queries fails the
    dictionary has the key 'error' with the message of the failure and
    none of the keys of the counts and distributions, and otherwise it
    has those keys and no 'error'. *)
Theorem get_search_stats_never_raises (now : string) (conn : Connection) :
  exists stats : gmap string StatValue,
    outcome (get_search_stats now conn) = inr stats
    /\ stats !! "searchable_fields" = Some (SFields searchable_fields)
    /\ stats !! "last_updated" = Some (SText now)
    /\ match stats_failure conn with
       | Some e =>
           stats !! "error" = Some (SText (exc_message e))
           /\ stats !! "total_products" = None
           /\ stats !! "total_bundles" = None
           /\ stats !! "category_distribution" = None
           /\ stats !! "source_distribution" = None
       | None =>
           stats !! "error" = None
           /\ (exists n, count_products conn = inr n
                         /\ stats !! "total_products" = Some (SInt n))
           /\ (exists n, count_bundles conn = inr n
                         /\ stats !! "total_bundles" = Some (SInt n))
           /\ (exists rows, category_stats conn = inr rows
                            /\ stats !! "category_distribution"
                               = Some (SDistribution "category" rows))
           /\ (exists rows, source_stats conn = inr rows
                            /\ stats !! "source_distribution"
                               = Some (SDistribution "source" rows))
       end.
Proof.
  unfold get_search_stats, stats_failure, try_except, bind, call, ret, outcome.
  destruct (count_products conn) as [e1 | n1];
    [| destruct (count_bundles conn) as [e2 | n2];
       [| destruct (category_stats conn) as [e3 | r3];
          [| destruct (source_stats conn) as [e4 | r4]]]];
    cbn [snd]; eexists; (split; [reflexivity |]);
    repeat split; eauto.
Qed.

End SearchProperties.

(** ** The search samples *)

(** C5, the code at the failing input. 'description' is one of the
    eight searchable fields; the description of the first record of the
    sample store is "Sandbox game", which the pattern [Sandbox] matches,
    and the text search returns the record. The regex search reads
    [None] for the description of every row and returns nothing. *)
Theorem regex_search_misses_description :
  In "description"%string (get_searchable_fields)
  /\ stored_field terraria "description" = Some "Sandbox game"%string
  /\ validate_regex "Sandbox" = inr true
  /\ field_matches (compile_query "Sandbox" false) terraria "description" = true
  /\ outcome (search_assets "Sandbox" None false false sample_connection)
     = inr [format_row (projection terraria)]
  /\ _get_field_value (projection terraria) "description" = None
  /\ outcome (search_assets "Sandbox" None true false sample_connection) = inr [].
Proof. vm_compute. repeat split. tauto. Qed.

(** C6, the code at the failing input. [search_by_field] refuses the
    field 'bogus_field' at once with a ValueError that names it and lists
    the searchable fields; [search_advanced] raises nothing for it: in
    text mode it returns the empty list without a query, and in regex
    mode it queries the store and returns the empty list, with either
    operator. *)
Theorem search_advanced_ignores_unknown_field :
  is_searchable "bogus_field" = false
  /\ search_by_field "bogus_field" "x" false false None sample_connection
     = ([], inl (ValueError
                   "Field 'bogus_field' is not searchable. Available fields: ['human_name', 'description', 'category', 'subcategory', 'developer', 'publisher', 'tags', 'bundle_name']"))
  /\ search_advanced [("bogus_field"%string, "x"%string)] None false false "AND"
                     sample_connection
     = ([], inr [])
  /\ search_advanced [("bogus_field"%string, "x"%string)] None false false "OR"
                     sample_connection
     = ([], inr [])
  /\ search_advanced [("bogus_field"%string, "x"%string)] None true false "AND"
                     sample_connection
     = ([CallExecute [ORDER_BY_HUMAN_NAME] []], inr [])
  /\ search_advanced [("bogus_field"%string, "x"%string)] None true false "OR"
                     sample_connection
     = ([CallExecute [ORDER_BY_HUMAN_NAME] []], inr []).
Proof. vm_compute. repeat split. Qed.



Lemma get_search_stats_never_raises_witness :
  exists stats : gmap string StatValue,
    outcome (get_search_stats "2024-01-01T00:00:00" broken_connection) = inr stats
    /\ stats !! "error" = Some (SText "no such table: products")
    /\ stats !! "total_products" = None.
Proof.
  destruct (get_search_stats_never_raises "2024-01-01T00:00:00" broken_connection)
    as (stats & Hout & _ & _ & Hshape).
  exists stats. split; [exact Hout |].
  change (stats_failure broken_connection)
    with (Some (StoreError "no such table: products")) in Hshape.
  destruct Hshape as (Herr & Hprod & _). split; [exact Herr | exact Hprod].
Defined.

(** C10, counterexample: for a query that is not a pattern the search
    raises instead of returning the empty list, before it queries the
    store; and on a store that fails it raises the error of the store. *)
Lemma description_search_rejects_invalid_pattern :
  search_by_field "description" "[invalid" true false None sample_connection
  = ([], inl (ValueError "Invalid regex pattern: [invalid"))
  /\ outcome (search_by_field "description" "Sandbox" true false None broken_connection)
     = inl (StoreError "no such table: products").
Proof. vm_compute. split; reflexivity. Qed.

(** The description of the first record contains "Sandbox", and the
    regex search in 'description' does not find it, while the text
    search does; the query "[invalid" is refused. *)
Lemma description_regex_search_is_empty_witness :
  validate_regex "Sandbox" = inr true
  /\ stored_field terraria "description" = Some "Sandbox game"%string
  /\ outcome (search_by_field "description" "Sandbox" true false None sample_connection)
     = inr []
  /\ outcome (search_by_field "description" "Sandbox" false false None sample_connection)
     = inr [format_row (projection terraria)]
  /\ search_by_field "description" "[invalid" true false None sample_connection
     = ([], inl (ValueError "Invalid regex pattern: [invalid")).
Proof.
  split; [vm_compute; reflexivity |].
  split; [vm_compute; reflexivity |].
  split.
  { apply (proj2 (description_regex_search_is_empty (H := mini_re) "Sandbox" false None)
                 ltac:(vm_compute; reflexivity)). }
  split; [vm_compute; reflexivity |].
  exact (proj1 (description_regex_search_is_empty (H := mini_re) "[invalid" false None)
               sample_connection).
Defined.

(* ===================================================================== *)
(** * Further properties: the categorization engine *)
(* ===================================================================== *)

(** ** Sums and products of weights that are not negative *)

Section FloatSign.

Variables prec emax : Z.

Lemma binary_round_aux_not_negative (mx ex : Z) (lx : location) :
  not_negative (binary_round_aux prec emax false mx ex lx).
Proof.
  unfold binary_round_aux.
  destruct (shr_fexp prec emax mx ex lx) as [mrs' e'].
  destruct (shr_fexp prec emax _ e' loc_Exact) as [mrs'' e''].
  destruct (shr_m mrs''); simpl; auto.
  destruct (Z.leb e'' (emax - prec)); simpl; reflexivity.
Qed.

Lemma SFadd_not_negative (x y : spec_float) :
  not_negative x -> not_negative y -> not_negative (SFadd prec emax x y).
Proof.
  destruct x as [sx | sx | | sx mx ex], y as [sy | sy | | sy my ey];
    simpl; intros Hx Hy; subst; auto;
    try reflexivity; try (destruct sx, sy; simpl; auto; fail).
  unfold cond_Zopp. rewrite <- Pos2Z.inj_add.
  unfold binary_normalize, binary_round.
  match goal with
  | |- context [shl_align ?m ?e ?e'] => destruct (shl_align m e e')
  end.
  apply binary_round_aux_not_negative.
Qed.

Lemma SFmul_not_negative (x y : spec_float) :
  not_negative x -> not_negative y -> not_negative (SFmul prec emax x y).
Proof.
  destruct x as [sx | sx | | sx mx ex], y as [sy | sy | | sy my ey];
    simpl; intros Hx Hy; subst; auto; try reflexivity.
  apply binary_round_aux_not_negative.
Qed.

End FloatSign.

Lemma not_negative_zero : not_negative (Prim2SF 0).
Proof. vm_compute. exact I. Qed.

Lemma not_negative_add (a b : float) :
  not_negative (Prim2SF a) -> not_negative (Prim2SF b) ->
  not_negative (Prim2SF (a + b)).
Proof. rewrite FloatAxioms.add_spec. apply SFadd_not_negative. Qed.

Lemma not_negative_mul (a b : float) :
  not_negative (Prim2SF a) -> not_negative (Prim2SF b) ->
  not_negative (Prim2SF (a * b)).
Proof. rewrite FloatAxioms.mul_spec. apply SFmul_not_negative. Qed.

Lemma leb_zero_not_negative (w : float) :
  PrimFloat.leb 0 w = true -> not_negative (Prim2SF w).
Proof.
  rewrite FloatAxioms.leb_spec.
  change (Prim2SF 0) with (S754_zero false).
  unfold SFleb, SFcompare. destruct (Prim2SF w) as [s | s | | s m e]; simpl; auto;
    destruct s; simpl; intros Hle; try discriminate; reflexivity.
Qed.

Lemma not_negative_not_below_zero (x : float) :
  not_negative (Prim2SF x) -> PrimFloat.ltb x 0 = false.
Proof.
  rewrite FloatAxioms.ltb_spec.
  change (Prim2SF 0) with (S754_zero false).
  unfold SFltb, SFcompare. destruct (Prim2SF x) as [s | s | | s m e]; simpl; auto;
    intros ->; reflexivity.
Qed.

(** Above a value that is not negative is above zero. *)
Lemma above_not_negative (x y : float) :
  not_negative (Prim2SF x) -> PrimFloat.ltb x y = true -> PrimFloat.ltb 0 y = true.
Proof.
  rewrite !FloatAxioms.ltb_spec.
  change (Prim2SF 0) with (S754_zero false).
  unfold SFltb, SFcompare.
  destruct (Prim2SF x) as [sx | sx | | sx mx ex], (Prim2SF y) as [sy | sy | | sy my ey];
    simpl; intros Hx Hlt; subst; try discriminate; auto;
    destruct sy; simpl in *; try discriminate; reflexivity.
Qed.

Lemma existsb_pointwise {A : Type} (f g : A -> bool) (l : list A) :
  (forall a, f a = g a) -> existsb f l = existsb g l.
Proof.
  intros Hfg. induction l as [|a l IH]; simpl; [reflexivity | now rewrite Hfg, IH].
Qed.

Lemma forallb_pointwise {A : Type} (f g : A -> bool) (l : list A) :
  (forall a, f a = g a) -> forallb f l = forallb g l.
Proof.
  intros Hfg. induction l as [|a l IH]; simpl; [reflexivity | now rewrite Hfg, IH].
Qed.

Section EngineProperties.

Context `{RegexEngine}.

(** ** What a pattern matcher adds up *)

Lemma match_rules_app (item : Item) (rs rs' : list CompiledRule) : forall scores,
  match_rules (rs ++ rs') item scores = match_rules rs' item (match_rules rs item scores).
Proof.
  induction rs as [|r rs IH]; intros scores; simpl; [reflexivity | apply IH].
Qed.

Lemma match_rules_ext (item : Item) (rs : list CompiledRule) : forall s1 s2,
  (forall c, s1 c = s2 c) ->
  forall c, match_rules rs item s1 c = match_rules rs item s2 c.
Proof.
  induction rs as [|r rs IH]; intros s1 s2 Hs c; simpl; [apply Hs |].
  apply IH. intros c'. unfold add_score. now rewrite Hs.
Qed.

(** A rule leaves the score of every other category alone. *)
Lemma match_rules_other (item : Item) (rs : list CompiledRule) (c : CategoryType) :
  forall scores,
    has_rule rs c = false -> match_rules rs item scores c = scores c.
Proof.
  induction rs as [|r rs IH]; intros scores Hno; simpl; [reflexivity |].
  cbn [has_rule existsb] in Hno. apply orb_false_iff in Hno as [Hr Hrs].
  rewrite IH by exact Hrs. unfold add_score. now rewrite Hr.
Qed.

(** What [categorize] adds to the running totals for one pattern
    matcher: the score of each category, once. *)
Lemma add_items_pattern_matcher (acc s : Scores) (c : CategoryType) :
  add_items acc (map (fun c => (c, s c)) all_categories) c = (acc c + s c)%float.
Proof. destruct c; reflexivity. Qed.

Lemma add_items_ext (items : list (CategoryType * float)) : forall a1 a2,
  (forall c, a1 c = a2 c) ->
  forall c, add_items a1 items c = add_items a2 items c.
Proof.
  unfold add_items.
  induction items as [|[cat x] items IH]; intros a1 a2 Ha c; simpl; [apply Ha |].
  apply IH. intros c'. unfold add_score. simpl. now rewrite Ha.
Qed.

Lemma run_matchers_snoc (ms : list CategoryMatcher) (m : CategoryMatcher) (item : Item) :
  run_matchers (ms ++ [m]) item = add_items (run_matchers ms item) (match_items m item).
Proof. unfold run_matchers. now rewrite fold_left_app. Qed.

Lemma run_matchers_single (rs : list CompiledRule) (item : Item) (c : CategoryType) :
  run_matchers [PatternMatcher rs] item c = (0 + PatternMatcher_match rs item c)%float.
Proof.
  unfold run_matchers. cbn [fold_left match_items].
  now rewrite add_items_pattern_matcher.
Qed.

(** The totals of two runs agree when the pattern matchers score alike. *)
Lemma run_matchers_ext (item1 item2 : Item) (ms : list CategoryMatcher) :
  pattern_only ms = true ->
  (forall r, In r (compiled_rules ms) -> _score_rule r item1 = _score_rule r item2) ->
  forall a1 a2,
    (forall c, a1 c = a2 c) ->
    forall c,
      fold_left (fun acc m => add_items acc (match_items m item1)) ms a1 c
      = fold_left (fun acc m => add_items acc (match_items m item2)) ms a2 c.
Proof.
  induction ms as [|m ms IH]; intros Hp Hs a1 a2 Ha c; [apply Ha |].
  cbn [pattern_only forallb] in Hp. apply andb_prop in Hp as [Hm Hp].
  destruct m as [rs | n g]; [| discriminate].
  cbn [fold_left]. apply IH.
  - exact Hp.
  - intros r Hr. apply Hs. cbn [compiled_rules flat_map]. apply in_or_app. now right.
  - intros c'. cbn [match_items]. rewrite !add_items_pattern_matcher. rewrite Ha.
    f_equal. unfold PatternMatcher_match.
    assert (Hrs : forall r, In r rs -> _score_rule r item1 = _score_rule r item2).
    { intros r Hr. apply Hs. cbn [compiled_rules flat_map]. apply in_or_app. now left. }
    clear -Hrs. generalize zero_scores.
    induction rs as [|r rs IHrs]; intros s; simpl; [reflexivity |].
    rewrite (Hrs r) by now left. apply IHrs. intros r' Hr'. apply Hrs. now right.
Qed.

(** The result is the same when the totals and the text read for the
    subcategory are. *)
Lemma categorize_same (engine : CategorizationEngine) (item1 item2 : Item) :
  (forall c, run_matchers (matchers engine) item1 c = run_matchers (matchers engine) item2 c) ->
  (forall cat, _determine_subcategory cat item1 = _determine_subcategory cat item2) ->
  same_result (categorize engine item1) (categorize engine item2).
Proof.
  intros Hs Hsub. unfold same_result, categorize.
  cbn [result_category result_subcategory confidence method matched_rules scores].
  assert (Hbest : py_max_from (run_matchers (matchers engine) item1)
                              first_category later_categories
                  = py_max_from (run_matchers (matchers engine) item2)
                                first_category later_categories)
    by (now apply py_max_from_ext).
  rewrite Hbest, Hs, Hsub. repeat split. exact Hs.
Qed.

(** ** What the scorer reads of an item *)

Lemma matches_in_item_text (p : Pattern) (item : Item) :
  _matches_in_item p item
  = existsb (fun field =>
               match item_text item field with
               | Some text => search p text
               | None => false
               end) searchable_item_fields.
Proof.
  unfold _matches_in_item, item_text. apply existsb_pointwise. intros field.
  destruct (present item field); reflexivity.
Qed.

Lemma matches_in_item_ext (p : Pattern) (item1 item2 : Item) :
  (forall f, In f searchable_item_fields -> item_text item1 f = item_text item2 f) ->
  _matches_in_item p item1 = _matches_in_item p item2.
Proof.
  intros Ht. rewrite !matches_in_item_text.
  induction searchable_item_fields as [|f fs IH]; simpl; [reflexivity |].
  rewrite (Ht f) by now left. f_equal. apply IH. intros f' Hf'. apply Ht. now right.
Qed.

Lemma score_fields_ext (w : float) (p : Pattern) (item1 item2 : Item)
      (fws : list (string * float)) :
  (forall f, In f (map fst fws) -> item_text item1 f = item_text item2 f) ->
  forall total, score_fields w p item1 fws total = score_fields w p item2 fws total.
Proof.
  induction fws as [|[f fw] fws IH]; intros Ht total; simpl; [reflexivity |].
  assert (Hf : item_text item1 f = item_text item2 f) by (apply Ht; now left).
  unfold item_text in Hf.
  assert (Hstep :
    match present item1 f with
    | Some v => if search p (lower (py_str v)) then (total + w * fw)%float else total
    | None => total
    end
    = match present item2 f with
      | Some v => if search p (lower (py_str v)) then (total + w * fw)%float else total
      | None => total
      end).
  { destruct (present item1 f), (present item2 f); try discriminate; [| reflexivity].
    injection Hf as ->. reflexivity. }
  rewrite Hstep. apply IH. intros f' Hf'. apply Ht. now right.
Qed.

Lemma score_patterns_ext (w : float) (item1 item2 : Item) (fws : list (string * float))
      (ps : list Pattern) :
  (forall f, In f (map fst fws) -> item_text item1 f = item_text item2 f) ->
  forall total, score_patterns w ps item1 fws total = score_patterns w ps item2 fws total.
Proof.
  intros Ht. induction ps as [|p ps IH]; intros total; simpl; [reflexivity |].
  rewrite (score_fields_ext w p item1 item2 fws Ht). apply IH.
Qed.

(** The score of a rule is a function of the texts of the fields the rule
    reads. *)
Lemma score_rule_ext (r : CompiledRule) (item1 item2 : Item) :
  (forall f, In f (rule_fields r) -> item_text item1 f = item_text item2 f) ->
  _score_rule r item1 = _score_rule r item2.
Proof.
  intros Ht. unfold _score_rule, _score_rule_exit.
  assert (Hm : forall p, _matches_in_item p item1 = _matches_in_item p item2).
  { intros p. apply matches_in_item_ext. intros f Hf. apply Ht.
    unfold rule_fields. apply in_or_app. now left. }
  rewrite (forallb_pointwise _ _ (_compiled_required r) Hm).
  rewrite (existsb_pointwise _ _ (_compiled_exclusions r) Hm).
  rewrite (score_patterns_ext (weight (rule r)) item1 item2 (field_weights (rule r)));
    [reflexivity |].
  intros f Hf. apply Ht. unfold rule_fields. apply in_or_app. now right.
Qed.

Lemma rule_fields_in_engine (ms : list CategoryMatcher) (r : CompiledRule) (f : string) :
  In r (compiled_rules ms) -> In f (rule_fields r) -> In f (engine_fields ms).
Proof.
  unfold rule_fields, engine_fields. intros Hr Hf.
  apply in_app_or in Hf as [Hf | Hf]; apply in_or_app; [now left | right].
  apply in_flat_map. now exists r.
Qed.

Lemma determine_subcategory_text (cat : CategoryType) (item : Item) :
  _determine_subcategory cat item = subcategory_of cat (subcategory_text item).
Proof. destruct cat; reflexivity. Qed.

(** Two items that agree on the texts of the fields an engine of pattern
    matchers reads, and on the text read for the subcategory, are
    categorized alike. *)
Lemma categorize_ext (engine : CategorizationEngine) (item1 item2 : Item) :
  pattern_only (matchers engine) = true ->
  (forall f, In f (engine_fields (matchers engine)) ->
             item_text item1 f = item_text item2 f) ->
  (forall cat, subcategory_of cat (subcategory_text item1)
               = subcategory_of cat (subcategory_text item2)) ->
  same_result (categorize engine item1) (categorize engine item2).
Proof.
  intros Hp Ht Hsub. apply categorize_same.
  - unfold run_matchers. apply run_matchers_ext; [exact Hp | | reflexivity].
    intros r Hr. apply score_rule_ext. intros f Hf. apply Ht.
    now apply (rule_fields_in_engine _ r).
  - intros cat. now rewrite !determine_subcategory_text.
Qed.

End EngineProperties.

Section EngineTheorems.

Context `{RegexEngine}.

(** ** Categories without rules *)

Lemma has_rule_app (rs rs' : list CompiledRule) (c : CategoryType) :
  has_rule (rs ++ rs') c = has_rule rs c || has_rule rs' c.
Proof. unfold has_rule. apply existsb_app. Qed.

Lemma run_matchers_without_rule (ms : list CategoryMatcher) (item : Item)
      (c : CategoryType) :
  pattern_only ms = true ->
  has_rule (compiled_rules ms) c = false ->
  run_matchers ms item c = 0%float.
Proof.
  intros Hp Hno. unfold run_matchers.
  assert (Hzero : zero_scores c = 0%float) by reflexivity.
  revert Hzero. generalize zero_scores.
  induction ms as [|m ms IH]; intros acc Hacc; [exact Hacc |].
  cbn [pattern_only forallb] in Hp. apply andb_prop in Hp as [Hm Hp].
  destruct m as [rs | n g]; [| discriminate].
  cbn [compiled_rules flat_map] in Hno. rewrite has_rule_app in Hno.
  apply orb_false_iff in Hno as [Hrs Hms].
  cbn [fold_left]. apply IH; [exact Hp | exact Hms |].
  cbn [match_items]. rewrite add_items_pattern_matcher, Hacc.
  unfold PatternMatcher_match. rewrite (match_rules_other item rs c _ Hrs).
  reflexivity.
Qed.

(** X1. In an engine of pattern matchers, a category that no rule names
    has the aggregate score 0.0 on every item, whatever the rules of the
    other categories find; its confidence, were it selected, is 0.0. *)
Theorem category_without_rule_scores_zero (engine : CategorizationEngine) (item : Item)
        (c : CategoryType) :
  pattern_only (matchers engine) = true ->
  has_rule (compiled_rules (matchers engine)) c = false ->
  scores (categorize engine item) c = 0%float
  /\ (result_category (categorize engine item) = c ->
      confidence (categorize engine item) = 0%float).
Proof.
  intros Hp Hno.
  pose proof (run_matchers_without_rule (matchers engine) item c Hp Hno) as Hz.
  unfold categorize. cbn [scores result_category confidence].
  split; [exact Hz |]. intros ->. rewrite Hz. reflexivity.
Qed.

(** ** Scores are not negative *)

Lemma score_fields_not_negative (w : float) (p : Pattern) (item : Item)
      (fws : list (string * float)) :
  not_negative (Prim2SF w) ->
  forallb (fun fw => PrimFloat.leb 0 (snd fw)) fws = true ->
  forall total,
    not_negative (Prim2SF total) ->
    not_negative (Prim2SF (score_fields w p item fws total)).
Proof.
  intros Hw. induction fws as [|[f fw] fws IH]; intros Hfws total Ht; simpl;
    [exact Ht |].
  cbn [forallb snd] in Hfws. apply andb_prop in Hfws as [Hfw Hfws].
  apply IH; [exact Hfws |].
  destruct (present item f) as [v|]; [| exact Ht].
  destruct (search p (lower (py_str v))); [| exact Ht].
  apply not_negative_add; [exact Ht |].
  apply not_negative_mul; [exact Hw | now apply leb_zero_not_negative].
Qed.

Lemma score_patterns_not_negative (w : float) (item : Item) (fws : list (string * float))
      (ps : list Pattern) :
  not_negative (Prim2SF w) ->
  forallb (fun fw => PrimFloat.leb 0 (snd fw)) fws = true ->
  forall total,
    not_negative (Prim2SF total) ->
    not_negative (Prim2SF (score_patterns w ps item fws total)).
Proof.
  intros Hw Hfws. induction ps as [|p ps IH]; intros total Ht; simpl; [exact Ht |].
  apply IH. now apply score_fields_not_negative.
Qed.

Lemma score_rule_not_negative (r : CompiledRule) (item : Item) :
  weights_not_negative r = true -> not_negative (Prim2SF (_score_rule r item)).
Proof.
  unfold weights_not_negative. intros Hw. apply andb_prop in Hw as [Hw Hfws].
  unfold _score_rule, _score_rule_exit.
  destruct (nonempty (required_patterns (rule r)) && _); [apply not_negative_zero |].
  destruct (nonempty (exclusion_patterns (rule r)) && _); [apply not_negative_zero |].
  cbn [snd]. apply score_patterns_not_negative;
    [now apply leb_zero_not_negative | exact Hfws | apply not_negative_zero].
Qed.

Lemma match_rules_not_negative (item : Item) (rs : list CompiledRule) :
  forallb weights_not_negative rs = true ->
  forall scores,
    (forall c, not_negative (Prim2SF (scores c))) ->
    forall c, not_negative (Prim2SF (match_rules rs item scores c)).
Proof.
  induction rs as [|r rs IH]; intros Hw scores Hs c; simpl; [apply Hs |].
  cbn [forallb] in Hw. apply andb_prop in Hw as [Hr Hw].
  apply IH; [exact Hw |]. intros c'. unfold add_score.
  destruct (category_eqb c' (category (rule r))); [| apply Hs].
  apply not_negative_add; [apply Hs | now apply score_rule_not_negative].
Qed.

Lemma run_matchers_not_negative (item : Item) (ms : list CategoryMatcher) :
  pattern_only ms = true ->
  forallb weights_not_negative (compiled_rules ms) = true ->
  forall c, not_negative (Prim2SF (run_matchers ms item c)).
Proof.
  unfold run_matchers.
  assert (Hzero : forall c, not_negative (Prim2SF (zero_scores c)))
    by (intros c; apply not_negative_zero).
  revert Hzero. generalize zero_scores.
  induction ms as [|m ms IH]; intros acc Hacc Hp Hw c; [apply Hacc |].
  cbn [pattern_only forallb] in Hp. apply andb_prop in Hp as [Hm Hp].
  destruct m as [rs | n g]; [| discriminate].
  cbn [compiled_rules flat_map] in Hw. rewrite forallb_app in Hw.
  apply andb_prop in Hw as [Hrs Hms].
  cbn [fold_left]. apply IH; [| exact Hp | exact Hms].
  intros c'. cbn [match_items]. rewrite add_items_pattern_matcher.
  apply not_negative_add; [apply Hacc |].
  apply match_rules_not_negative; [exact Hrs |].
  intros c''. apply not_negative_zero.
Qed.

(** [max] leaves the first key only for a key with a strictly greater
    value. *)
Lemma py_max_from_moves {K : Type} (f : K -> float) (best : K) (rest : list K) :
  py_max_from f best rest = best
  \/ exists k, PrimFloat.ltb (f k) (f (py_max_from f best rest)) = true.
Proof.
  destruct (py_max_from_cases f rest best) as [[Hm _] | (l1 & l2 & _ & Hlt & _)];
    [now left | right]. now exists best.
Qed.

(** The category selected over totals that are not negative is the first
    one, or one with a total above zero. *)
Lemma selected_is_first_or_positive (s : Scores) :
  (forall c, not_negative (Prim2SF (s c))) ->
  py_max_from s first_category later_categories = EBOOK
  \/ PrimFloat.ltb 0 (s (py_max_from s first_category later_categories)) = true.
Proof.
  intros Hs. destruct (py_max_from_moves s first_category later_categories)
    as [Hm | [k Hk]]; [now left | right].
  exact (above_not_negative _ _ (Hs k) Hk).
Qed.

Lemma selected_has_rule (ms : list CategoryMatcher) (item : Item) :
  pattern_only ms = true ->
  forallb weights_not_negative (compiled_rules ms) = true ->
  py_max_from (run_matchers ms item) first_category later_categories = EBOOK
  \/ (PrimFloat.ltb 0 (run_matchers ms item
                         (py_max_from (run_matchers ms item)
                                      first_category later_categories)) = true
      /\ has_rule (compiled_rules ms)
                  (py_max_from (run_matchers ms item) first_category later_categories)
         = true).
Proof.
  intros Hp Hw.
  pose proof (run_matchers_not_negative item ms Hp Hw) as Hnn.
  destruct (selected_is_first_or_positive _ Hnn) as [He | Hpos]; [now left | right].
  split; [exact Hpos |].
  destruct (has_rule (compiled_rules ms)
              (py_max_from (run_matchers ms item) first_category later_categories))
    eqn:Hrule; [reflexivity |].
  rewrite (run_matchers_without_rule ms item _ Hp Hrule) in Hpos. discriminate Hpos.
Qed.

(** X2. In an engine of pattern matchers whose rule and field weights are
    at least zero, no aggregate score is below zero, and the category
    selected is the first of the enumeration, [EBOOK], or a category with
    a score strictly above zero, which some rule names: a category
    without rules is never selected, except [EBOOK]. *)
Theorem selected_category_has_rule (engine : CategorizationEngine) (item : Item) :
  pattern_only (matchers engine) = true ->
  forallb weights_not_negative (compiled_rules (matchers engine)) = true ->
  let r := categorize engine item in
  (forall c, PrimFloat.ltb (scores r c) 0 = false)
  /\ (result_category r = EBOOK
      \/ (PrimFloat.ltb 0 (scores r (result_category r)) = true
          /\ has_rule (compiled_rules (matchers engine)) (result_category r) = true)).
Proof.
  intros Hp Hw r. subst r. unfold categorize. cbn [scores result_category].
  split.
  - intros c. apply not_negative_not_below_zero.
    now apply run_matchers_not_negative.
  - now apply selected_has_rule.
Qed.

(** ** The engines of the factory *)

Lemma compile_patterns_rules (rs : list CategoryRule) : forall cs,
  _compile_patterns rs = Some cs -> map rule cs = rs.
Proof.
  induction rs as [|r rs IH]; intros cs; simpl.
  - now intros [= <-].
  - destruct (compile_rule r) as [cr|] eqn:Hr; [| discriminate].
    destruct (_compile_patterns rs) as [cs'|]; [| discriminate].
    intros [= <-]. simpl. rewrite (IH cs' eq_refl).
    now destruct (compile_rule_eq r cr Hr) as [-> _].
Qed.

Lemma compile_patterns_app (rs rs' : list CategoryRule) :
  _compile_patterns (rs ++ rs')
  = match _compile_patterns rs, _compile_patterns rs' with
    | Some cs, Some cs' => Some (cs ++ cs')
    | _, _ => None
    end.
Proof.
  induction rs as [|r rs IH]; simpl.
  - now destruct (_compile_patterns rs').
  - destruct (compile_rule r) as [cr|]; [| reflexivity].
    rewrite IH. destruct (_compile_patterns rs), (_compile_patterns rs'); reflexivity.
Qed.

Lemma compile_patterns_single (r : CategoryRule) :
  _compile_patterns [r] = option_map (fun cr => [cr]) (compile_rule r).
Proof. simpl. now destruct (compile_rule r). Qed.

Lemma generic_engine_shape (engine : CategorizationEngine) :
  create_generic_engine = Some engine ->
  exists cs,
    _compile_patterns _load_default_rules = Some cs
    /\ engine = mkEngine [PatternMatcher cs] _load_default_rules.
Proof.
  unfold create_generic_engine, new_CategorizationEngine, new_PatternMatcher.
  destruct (_compile_patterns _load_default_rules) as [cs|]; [| discriminate].
  cbn [option_map]. intros [= <-]. now exists cs.
Qed.

(** What [add_rule] does to an engine that was built by [__init__] and
    extended by [add_rule] only. *)
Lemma add_rule_shape (rs : list CategoryRule) (cs : list CompiledRule)
      (r : CategoryRule) (engine' : CategorizationEngine) :
  _compile_patterns rs = Some cs ->
  add_rule (mkEngine [PatternMatcher cs] rs) r = Some engine' ->
  exists cr,
    compile_rule r = Some cr
    /\ _compile_patterns (rs ++ [r]) = Some (cs ++ [cr])
    /\ engine' = mkEngine [PatternMatcher (cs ++ [cr])] (rs ++ [r]).
Proof.
  intros Hcs. unfold add_rule, new_PatternMatcher. cbn [rules matchers].
  rewrite compile_patterns_app, Hcs, compile_patterns_single.
  destruct (compile_rule r) as [cr|]; [| discriminate].
  cbn [option_map replace_first_pattern_matcher]. intros [= <-]. now exists cr.
Qed.

Lemma humble_engine_shape (engine : CategorizationEngine) :
  create_humble_bundle_engine = Some engine ->
  exists cs cr,
    _compile_patterns _load_default_rules = Some cs
    /\ create_generic_engine = Some (mkEngine [PatternMatcher cs] _load_default_rules)
    /\ hd_error (map compile_rule humble_rules) = Some (Some cr)
    /\ _compile_patterns (_load_default_rules ++ humble_rules) = Some (cs ++ [cr])
    /\ engine = mkEngine [PatternMatcher (cs ++ [cr])] (_load_default_rules ++ humble_rules).
Proof.
  unfold create_humble_bundle_engine, humble_rules. cbn [fold_left].
  destruct new_CategorizationEngine as [e|] eqn:He; [| discriminate].
  destruct (generic_engine_shape e He) as (cs & Hcs & ->).
  intros Hadd. destruct (add_rule_shape _ cs _ engine Hcs Hadd) as (cr & Hcr & Happ & ->).
  exists cs, cr. cbn [map hd_error]. rewrite Hcr. repeat split; auto.
Qed.

Lemma has_rule_rules (cs : list CompiledRule) (c : CategoryType) :
  has_rule cs c = existsb (fun r => category_eqb c (category r)) (map rule cs).
Proof. unfold has_rule. now rewrite existsb_map. Qed.

Lemma weights_not_negative_rules (cs : list CompiledRule) :
  forallb weights_not_negative cs
  = forallb (fun r => PrimFloat.leb 0 (weight r)
                      && forallb (fun fw => PrimFloat.leb 0 (snd fw)) (field_weights r))
            (map rule cs).
Proof. now rewrite forallb_map. Qed.

(** X3. Whatever the item, the engine [create_generic_engine] builds
    answers one of the five categories its rules name (ebook, game,
    software, audio, subscription_content), never video, comic, bundle or
    unknown; the engine [create_humble_bundle_engine] builds answers one
    of these or bundle. *)
Theorem factory_engines_categories (engine : CategorizationEngine) (item : Item) :
  (create_generic_engine = Some engine ->
   In (result_category (categorize engine item))
      [EBOOK; GAME; SOFTWARE; AUDIO; SUBSCRIPTION_CONTENT])
  /\ (create_humble_bundle_engine = Some engine ->
      In (result_category (categorize engine item))
         [EBOOK; GAME; SOFTWARE; AUDIO; BUNDLE; SUBSCRIPTION_CONTENT]).
Proof.
  split.
  - intros Hg. destruct (generic_engine_shape engine Hg) as (cs & Hcs & ->).
    pose proof (compile_patterns_rules _ cs Hcs) as Hrules.
    unfold categorize. cbn [result_category matchers].
    destruct (selected_has_rule [PatternMatcher cs] item eq_refl) as [-> | [_ Hrule]].
    + cbn [compiled_rules flat_map]. rewrite app_nil_r, weights_not_negative_rules, Hrules.
      vm_compute. reflexivity.
    + simpl. tauto.
    + cbn [compiled_rules flat_map] in Hrule.
      rewrite app_nil_r, has_rule_rules, Hrules in Hrule.
      destruct (py_max_from _ first_category later_categories);
        try (vm_compute in Hrule; discriminate Hrule); simpl; tauto.
  - intros Hh. destruct (humble_engine_shape engine Hh) as (cs & cr & _ & _ & _ & Hcs & ->).
    pose proof (compile_patterns_rules _ _ Hcs) as Hrules.
    unfold categorize. cbn [result_category matchers].
    destruct (selected_has_rule [PatternMatcher (cs ++ [cr])] item eq_refl)
      as [-> | [_ Hrule]].
    + cbn [compiled_rules flat_map]. rewrite app_nil_r, weights_not_negative_rules, Hrules.
      vm_compute. reflexivity.
    + simpl. tauto.
    + cbn [compiled_rules flat_map] in Hrule.
      rewrite app_nil_r, has_rule_rules, Hrules in Hrule.
      destruct (py_max_from _ first_category later_categories);
        try (vm_compute in Hrule; discriminate Hrule); simpl; tauto.
Qed.

End EngineTheorems.

Section EngineChanges.

Context `{RegexEngine}.

(** ** Adding rules and matchers *)

Lemma replace_without_pattern_matcher (pm : CategoryMatcher) (ms : list CategoryMatcher) :
  pattern_free ms ->
  replace_first_pattern_matcher pm ms = ms.
Proof.
  induction 1 as [|m ms Hm Hms IH]; [reflexivity |].
  destruct m as [rs | n g]; [contradiction |]. simpl. now rewrite IH.
Qed.

Lemma replace_length (pm : CategoryMatcher) (ms : list CategoryMatcher) :
  length (replace_first_pattern_matcher pm ms) = length ms.
Proof.
  induction ms as [|m ms IH]; [reflexivity |].
  destruct m as [rs | n g]; simpl; [reflexivity | now rewrite IH].
Qed.

(** X4. [add_rule], when the patterns compile, appends the rule to the
    rule list and compiles the whole list anew; the new pattern matcher
    takes the place of the pattern matcher of the engine, where it
    stands: the custom matchers before it and after it stay, in their
    order, and the number of matchers does not change. An engine without
    a pattern matcher keeps its matchers, and only its rule list
    grows. *)
Theorem add_rule_replaces_pattern_matcher (engine engine' : CategorizationEngine)
        (r : CategoryRule) :
  add_rule engine r = Some engine' ->
  rules engine' = rules engine ++ [r]
  /\ length (matchers engine') = length (matchers engine)
  /\ exists cs,
       _compile_patterns (rules engine ++ [r]) = Some cs
       /\ map rule cs = rules engine ++ [r]
       /\ (forall pre old post,
              matchers engine = pre ++ PatternMatcher old :: post ->
              pattern_free pre -> pattern_free post ->
              matchers engine' = pre ++ PatternMatcher cs :: post)
       /\ (pattern_free (matchers engine) -> matchers engine' = matchers engine).
Proof.
  unfold add_rule, new_PatternMatcher.
  destruct (_compile_patterns (rules engine ++ [r])) as [cs|] eqn:Hcs; [| discriminate].
  cbn [option_map]. intros [= <-]. cbn [rules matchers].
  split; [reflexivity |]. split; [apply replace_length |].
  exists cs. split; [reflexivity |]. split; [now apply compile_patterns_rules |]. split.
  - intros pre old post -> Hpre _. clear Hcs.
    induction Hpre as [|m pre Hm Hpre IH]; [reflexivity |].
    destruct m as [rs | n g]; [contradiction |]. simpl. now rewrite IH.
  - apply replace_without_pattern_matcher.
Qed.

(** X5. On an engine built by the constructor and extended by [add_rule]
    only (one pattern matcher, compiled from the rule list), [add_rule]
    keeps that shape, leaves the score of every category other than the
    rule's as it was, and adds the score of the new rule, last, to the
    score of its category. *)
Theorem add_rule_adds_score (rs : list CategoryRule) (cs : list CompiledRule)
        (r : CategoryRule) (engine' : CategorizationEngine) :
  _compile_patterns rs = Some cs ->
  add_rule (mkEngine [PatternMatcher cs] rs) r = Some engine' ->
  exists cr,
    compile_rule r = Some cr
    /\ engine' = mkEngine [PatternMatcher (cs ++ [cr])] (rs ++ [r])
    /\ _compile_patterns (rules engine') = Some (cs ++ [cr])
    /\ forall item c,
         scores (categorize engine' item) c
         = if category_eqb c (category r)
           then (0 + (PatternMatcher_match cs item c + _score_rule cr item))%float
           else scores (categorize (mkEngine [PatternMatcher cs] rs) item) c.
Proof.
  intros Hcs Hadd.
  destruct (add_rule_shape rs cs r engine' Hcs Hadd) as (cr & Hcr & Happ & ->).
  exists cr. repeat split; auto.
  intros item c. unfold categorize. cbn [scores matchers].
  rewrite !run_matchers_single. unfold PatternMatcher_match.
  rewrite match_rules_app. cbn [match_rules]. unfold add_score.
  destruct (compile_rule_eq r cr Hcr) as [-> _].
  destruct (category_eqb c (category r)); reflexivity.
Qed.

(** X6. The engine of [create_humble_bundle_engine] is the generic
    engine with the rule humble_bundle_specific added last: on every item
    it gives every category other than bundle the score the generic engine
    gives it; the generic engine scores bundle 0.0, and the humble engine
    scores it by the added rule alone. *)
Theorem humble_engine_extends_generic (generic humble : CategorizationEngine) :
  create_generic_engine = Some generic ->
  create_humble_bundle_engine = Some humble ->
  rules humble = rules generic ++ humble_rules
  /\ exists cr,
       hd_error (map compile_rule humble_rules) = Some (Some cr)
       /\ forall item,
            (forall c, c <> BUNDLE ->
                       scores (categorize humble item) c
                       = scores (categorize generic item) c)
            /\ scores (categorize generic item) BUNDLE = 0%float
            /\ scores (categorize humble item) BUNDLE
               = (0 + (0 + _score_rule cr item))%float.
Proof.
  intros Hg Hh.
  destruct (humble_engine_shape humble Hh) as (cs & cr & Hcs & Hg' & Hcr & Happ & ->).
  rewrite Hg in Hg'. injection Hg' as ->. cbn [rules].
  split; [reflexivity |]. exists cr. split; [exact Hcr |].
  pose proof (compile_patterns_rules _ cs Hcs) as Hrules.
  assert (Hno : has_rule cs BUNDLE = false).
  { rewrite has_rule_rules, Hrules. vm_compute. reflexivity. }
  assert (Hcat : category (rule cr) = BUNDLE).
  { unfold humble_rules in Hcr. cbn [map hd_error] in Hcr. injection Hcr as Hcr.
    now destruct (compile_rule_eq _ cr Hcr) as [-> _]. }
  assert (Hscore : forall item c,
             run_matchers [PatternMatcher (cs ++ [cr])] item c
             = (0 + add_score (PatternMatcher_match cs item) BUNDLE
                              (_score_rule cr item) c)%float).
  { intros item c. rewrite run_matchers_single. unfold PatternMatcher_match.
    rewrite match_rules_app. cbn [match_rules]. now rewrite Hcat. }
  intros item. unfold categorize. cbn [scores matchers].
  split; [| split].
  - intros c Hc. rewrite Hscore, run_matchers_single. unfold add_score.
    destruct c; try reflexivity. now contradiction Hc.
  - rewrite run_matchers_single. unfold PatternMatcher_match.
    now rewrite (match_rules_other item cs BUNDLE _ Hno).
  - rewrite Hscore. unfold add_score, PatternMatcher_match. cbn [category_eqb].
    now rewrite (match_rules_other item cs BUNDLE _ Hno).
Qed.

Lemma append_assoc (a b c : string) : ((a ++ b) ++ c = a ++ (b ++ c))%string.
Proof.
  induction a as [|x a IH]; [reflexivity |].
  change (String x ((a ++ b) ++ c) = String x (a ++ (b ++ c)))%string.
  now rewrite IH.
Qed.

Lemma join_snoc (sep : string) (parts : list string) (p : string) :
  parts <> [] -> join sep (parts ++ [p]) = (join sep parts ++ sep ++ p)%string.
Proof.
  induction parts as [|q parts IH]; [contradiction |]. intros _.
  destruct parts as [|q' parts]; [reflexivity |].
  change (join sep ((q :: q' :: parts) ++ [p]))
    with (q ++ sep ++ join sep ((q' :: parts) ++ [p]))%string.
  rewrite IH by discriminate.
  change (join sep (q :: q' :: parts)) with (q ++ sep ++ join sep (q' :: parts))%string.
  now rewrite !append_assoc.
Qed.

(** X7. A matcher added by [add_matcher] runs last: the scores of the
    new engine are the scores of the old one with the pairs the new
    matcher returns added in order, the method string gains ['+'] and the
    type name of the matcher (the name alone when it is the only
    matcher), and the rule list is not touched. *)
Theorem add_matcher_composes (engine : CategorizationEngine) (m : CategoryMatcher)
        (item : Item) :
  (forall c,
      scores (categorize (add_matcher engine m) item) c
      = add_items (scores (categorize engine item)) (match_items m item) c)
  /\ method (categorize (add_matcher engine m) item)
     = match matchers engine with
       | [] => matcher_type_name m
       | _ => (method (categorize engine item) ++ "+" ++ matcher_type_name m)%string
       end
  /\ rules (add_matcher engine m) = rules engine.
Proof.
  unfold categorize, add_matcher. cbn [scores method matchers rules].
  split; [| split; [| reflexivity]].
  - intros c. now rewrite run_matchers_snoc.
  - rewrite map_app. cbn [map].
    destruct (matchers engine) as [|m0 ms] eqn:Hms; [reflexivity |].
    apply join_snoc. discriminate.
Qed.

End EngineChanges.

(** ** What [categorize] reads of an item *)

Lemma lower_ascii_idempotent (c : ascii) : lower_ascii (lower_ascii c) = lower_ascii c.
Proof. destruct c as [[] [] [] [] [] [] [] []]; reflexivity. Qed.

Lemma lower_idempotent (s : string) : lower (lower s) = lower s.
Proof.
  induction s as [|c s IH]; simpl; [reflexivity |].
  now rewrite lower_ascii_idempotent, IH.
Qed.

Lemma lower_empty (s : string) : String.eqb (lower s) "" = String.eqb s "".
Proof. destruct s; reflexivity. Qed.

Lemma existsb_eqb_false (k : string) (l : list string) :
  existsb (String.eqb k) l = false -> forall f, In f l -> k <> f.
Proof.
  intros Hk f Hf ->.
  assert (Hin : existsb (String.eqb f) l = true).
  { apply existsb_exists. exists f. split; [exact Hf | apply String.eqb_refl]. }
  congruence.
Qed.

Lemma item_text_insert_ne (item : Item) (k f : string) (v : PyValue) :
  k <> f -> item_text (<[k := v]> item) f = item_text item f.
Proof. intros Hk. unfold item_text, present. now rewrite lookup_insert_ne. Qed.

Lemma item_text_insert (item : Item) (k : string) (v : PyValue) :
  item_text (<[k := v]> item) k = if truthy v then Some (lower (py_str v)) else None.
Proof.
  unfold item_text, present. rewrite lookup_insert_eq. now destruct (truthy v).
Qed.

Lemma item_text_delete_ne (item : Item) (k f : string) :
  k <> f -> item_text (delete k item) f = item_text item f.
Proof. intros Hk. unfold item_text, present. now rewrite lookup_delete_ne. Qed.

Lemma item_text_delete (item : Item) (k : string) : item_text (delete k item) k = None.
Proof. unfold item_text, present. now rewrite lookup_delete_eq. Qed.

Lemma get_or_empty_insert_ne (item : Item) (k f : string) (v : PyValue) :
  k <> f -> get_or_empty (<[k := v]> item) f = get_or_empty item f.
Proof. intros Hk. unfold get_or_empty. now rewrite lookup_insert_ne. Qed.

Lemma get_or_empty_insert (item : Item) (k : string) (v : PyValue) :
  get_or_empty (<[k := v]> item) k = v.
Proof. unfold get_or_empty. now rewrite lookup_insert_eq. Qed.

Lemma get_or_empty_delete_ne (item : Item) (k f : string) :
  k <> f -> get_or_empty (delete k item) f = get_or_empty item f.
Proof. intros Hk. unfold get_or_empty. now rewrite lookup_delete_ne. Qed.

Lemma get_or_empty_delete (item : Item) (k : string) :
  get_or_empty (delete k item) k = PyStr "".
Proof. unfold get_or_empty. now rewrite lookup_delete_eq. Qed.

(** A value that is false reads as one of three texts, none of which has
    a keyword in it. *)
Lemma subcategory_of_false_value (cat : CategoryType) (v : PyValue) :
  truthy v = false -> subcategory_of cat (lower (py_str v)) = "general".
Proof.
  destruct v as [| s | z]; simpl; intros Hv.
  - destruct cat; vm_compute; reflexivity.
  - apply negb_false_iff, String.eqb_eq in Hv. subst s.
    destruct cat; vm_compute; reflexivity.
  - apply negb_false_iff, Z.eqb_eq in Hv. subst z.
    destruct cat; vm_compute; reflexivity.
Qed.

Section ItemProperties.

Context `{RegexEngine}.

(** X8. An engine of pattern matchers reads the four fields name,
    human_name, description, machine_name and the fields its rules weigh,
    and nothing else: setting or deleting any other key of the item
    changes no part of the result. *)
Theorem unread_key_is_ignored (engine : CategorizationEngine) (item : Item)
        (k : string) (v : PyValue) :
  pattern_only (matchers engine) = true ->
  existsb (String.eqb k) (engine_fields (matchers engine)) = false ->
  same_result (categorize engine (<[k := v]> item)) (categorize engine item)
  /\ same_result (categorize engine (delete k item)) (categorize engine item).
Proof.
  intros Hp Hk.
  pose proof (existsb_eqb_false k _ Hk) as Hne.
  assert (Hname : k <> "name").
  { apply Hne. unfold engine_fields, searchable_item_fields. simpl. tauto. }
  assert (Hhuman : k <> "human_name").
  { apply Hne. unfold engine_fields, searchable_item_fields. simpl. tauto. }
  split; apply categorize_ext; try exact Hp.
  - intros f Hf. apply item_text_insert_ne. now apply Hne.
  - intros cat. unfold subcategory_text.
    now rewrite !get_or_empty_insert_ne by assumption.
  - intros f Hf. apply item_text_delete_ne. now apply Hne.
  - intros cat. unfold subcategory_text.
    now rewrite !get_or_empty_delete_ne by assumption.
Qed.

Lemma subcategory_text_case (item : Item) (k s : string) :
  subcategory_text (<[k := PyStr s]> item)
  = subcategory_text (<[k := PyStr (lower s)]> item).
Proof.
  unfold subcategory_text.
  destruct (decide (k = "name")) as [-> | Hname].
  - rewrite !get_or_empty_insert. cbn [truthy]. rewrite lower_empty.
    destruct (negb (String.eqb s "")).
    + cbn [py_str]. now rewrite lower_idempotent.
    + now rewrite !get_or_empty_insert_ne by discriminate.
  - rewrite !(get_or_empty_insert_ne item k "name") by exact Hname.
    destruct (truthy (get_or_empty item "name")); [reflexivity |].
    destruct (decide (k = "human_name")) as [-> | Hhuman].
    + rewrite !get_or_empty_insert. cbn [py_str]. now rewrite lower_idempotent.
    + now rewrite !get_or_empty_insert_ne by exact Hhuman.
Qed.

(** X9. An engine of pattern matchers does not see the case of the
    letters of a text value: the item text is lowercased before every
    search and before the subcategory keywords are looked for, so
    replacing the text under any key by its lowercase form changes no part
    of the result. *)
Theorem categorize_ignores_case (engine : CategorizationEngine) (item : Item)
        (k s : string) :
  pattern_only (matchers engine) = true ->
  same_result (categorize engine (<[k := PyStr s]> item))
              (categorize engine (<[k := PyStr (lower s)]> item)).
Proof.
  intros Hp. apply categorize_ext; [exact Hp | |].
  - intros f _. destruct (decide (k = f)) as [<- | Hne].
    + rewrite !item_text_insert. cbn [truthy py_str].
      now rewrite lower_empty, lower_idempotent.
    + now rewrite !item_text_insert_ne by exact Hne.
  - intros cat. now rewrite subcategory_text_case.
Qed.

(** X10. A value that is false ([None], the empty string, the number 0)
    is to an engine of pattern matchers what a missing key is: the item
    with such a value under a key and the item without the key get the
    same result. *)
Theorem false_value_is_missing (engine : CategorizationEngine) (item : Item)
        (k : string) (v : PyValue) :
  pattern_only (matchers engine) = true ->
  truthy v = false ->
  same_result (categorize engine (<[k := v]> item)) (categorize engine (delete k item)).
Proof.
  intros Hp Hv. apply categorize_ext; [exact Hp | |].
  - intros f _. destruct (decide (k = f)) as [<- | Hne].
    + now rewrite item_text_insert, item_text_delete, Hv.
    + now rewrite item_text_insert_ne, item_text_delete_ne by exact Hne.
  - intros cat. unfold subcategory_text.
    destruct (decide (k = "name")) as [-> | Hname].
    + rewrite get_or_empty_insert, get_or_empty_delete, Hv. cbn [truthy String.eqb negb].
      now rewrite get_or_empty_insert_ne, get_or_empty_delete_ne by discriminate.
    + rewrite (get_or_empty_insert_ne item k "name"),
        (get_or_empty_delete_ne item k "name") by exact Hname.
      destruct (truthy (get_or_empty item "name")); [reflexivity |].
      destruct (decide (k = "human_name")) as [-> | Hhuman].
      * rewrite get_or_empty_insert, get_or_empty_delete.
        rewrite (subcategory_of_false_value cat v Hv).
        destruct cat; vm_compute; reflexivity.
      * now rewrite get_or_empty_insert_ne, get_or_empty_delete_ne by exact Hhuman.
Qed.

End ItemProperties.

(** ** Subcategories *)

(** X11. [_determine_subcategory] answers a label of the category it is
    given: one of seven for ebook, one of six for game, one of three for
    subscription_content, and 'general' for every other category; and
    when neither name nor human_name has a value that is true, it answers
    'general' for every category. *)
Theorem determine_subcategory_range (cat : CategoryType) (item : Item) :
  In (_determine_subcategory cat item)
     match cat with
     | EBOOK => ["programming"; "security"; "cooking"; "gardening"; "arts";
                 "survival"; "general"]
     | GAME => ["strategy"; "rpg"; "simulation"; "puzzle"; "action"; "general"]
     | SUBSCRIPTION_CONTENT => ["coupon"; "humble_choice"; "general"]
     | _ => ["general"]
     end
  /\ In (_determine_subcategory cat item) subcategory_labels
  /\ (present item "name" = None -> present item "human_name" = None ->
      _determine_subcategory cat item = "general").
Proof.
  rewrite determine_subcategory_text. split; [| split].
  - unfold subcategory_of. destruct cat;
      repeat match goal with
        | |- context [if ?b then _ else _] => destruct b
        end; simpl; tauto.
  - unfold subcategory_of, subcategory_labels. destruct cat;
      repeat match goal with
        | |- context [if ?b then _ else _] => destruct b
        end; simpl; tauto.
  - unfold present, subcategory_text, get_or_empty. intros Hname Hhuman.
    destruct (item !! "name") as [v|]; cbn [from_option id].
    + destruct (truthy v) eqn:Hv; [discriminate |].
      destruct (item !! "human_name") as [w|]; cbn [from_option id].
      * destruct (truthy w) eqn:Hw; [discriminate |].
        exact (subcategory_of_false_value cat w Hw).
      * destruct cat; vm_compute; reflexivity.
    + cbn [truthy String.eqb negb].
      destruct (item !! "human_name") as [w|]; cbn [from_option id].
      * destruct (truthy w) eqn:Hw; [discriminate |].
        exact (subcategory_of_false_value cat w Hw).
      * destruct cat; vm_compute; reflexivity.
Qed.

(** X12. The subcategory is read from name when name has a value that is
    true, whatever human_name holds; human_name is read only when name is
    missing or false, and then even a human_name of [None] is read, as
    the text 'none'. The description and the other fields are never
    read. *)
Theorem subcategory_reads_name_first (cat : CategoryType) (item : Item) :
  (forall v, present item "name" = Some v ->
             _determine_subcategory cat item = subcategory_of cat (lower (py_str v))
             /\ forall w, _determine_subcategory cat (<["human_name" := w]> item)
                          = _determine_subcategory cat item)
  /\ (present item "name" = None ->
      _determine_subcategory cat item
      = subcategory_of cat (lower (py_str (default (PyStr "") (item !! "human_name")))))
  /\ (forall k v, k <> "name" -> k <> "human_name" ->
                  _determine_subcategory cat (<[k := v]> item)
                  = _determine_subcategory cat item).
Proof.
  rewrite !determine_subcategory_text. split; [| split].
  - intros v Hv. unfold present in Hv.
    destruct (item !! "name") as [v'|] eqn:Hname; [| discriminate].
    destruct (truthy v') eqn:Ht; [| discriminate]. injection Hv as ->.
    assert (Htext : forall item', item' !! "name" = Some v ->
                                  subcategory_text item' = lower (py_str v)).
    { intros item' H'. unfold subcategory_text, get_or_empty. rewrite H'.
      cbn [from_option id]. now rewrite Ht. }
    split; [now rewrite (Htext item Hname) |].
    intros w. rewrite !determine_subcategory_text.
    rewrite (Htext item Hname), (Htext (<["human_name" := w]> item)); [reflexivity |].
    now rewrite lookup_insert_ne by discriminate.
  - unfold present, subcategory_text, get_or_empty. intros Hname.
    destruct (item !! "name") as [v|]; cbn [from_option id].
    + destruct (truthy v); [discriminate | reflexivity].
    + reflexivity.
  - intros k v Hname Hhuman. rewrite !determine_subcategory_text.
    unfold subcategory_text.
    now rewrite !get_or_empty_insert_ne by assumption.
Qed.

(* ===================================================================== *)
(** * Further properties: the search provider *)
(* ===================================================================== *)

(** ** The statement a search sends *)

Lemma placeholders_app (a b : Sql) :
  placeholders (a ++ b) = placeholders a + placeholders b.
Proof.
  induction a as [|t a IH]; [reflexivity |].
  destruct t; simpl; rewrite IH; lia.
Qed.

Lemma placeholders_filter_conditions (entries : list (SqlCond * Param)) :
  Forall filter_entry_ok entries ->
  placeholders (join_conditions "AND" (map fst entries)) = length entries.
Proof.
  induction 1 as [|e entries He Hall IH]; [reflexivity |].
  assert (H1 : placeholders_of (fst e) = 1).
  { destruct e as [[] []]; simpl in *; try contradiction; reflexivity. }
  destruct entries as [|e' entries].
  - cbn [map join_conditions placeholders length]. rewrite H1. reflexivity.
  - change (join_conditions "AND" (map fst (e :: e' :: entries)))
      with (Cond (fst e) :: Operator "AND"
              :: join_conditions "AND" (map fst (e' :: entries))).
    cbn [placeholders]. rewrite H1, IH. reflexivity.
Qed.

Lemma placeholders_field_conditions (op : string) (known : list (string * string)) :
  placeholders (join_conditions op (map (fun fq => FieldILike (fst fq)) known))
  = length known.
Proof.
  induction known as [|fq known IH]; [reflexivity |].
  destruct known as [|fq' known]; [reflexivity |].
  change (join_conditions op (map (fun fq => FieldILike (fst fq)) (fq :: fq' :: known)))
    with (Cond (FieldILike (fst fq)) :: Operator op
            :: join_conditions op (map (fun fq => FieldILike (fst fq)) (fq' :: known))).
  cbn [placeholders placeholders_of length]. now rewrite IH.
Qed.

(** The statement and the parameters [fetch_filtered] sends, from a
    statement that has its WHERE clause or from one that has none. *)
Lemma fetch_filtered_call (sql : Sql) (params : list Param) (filters : option Filters)
      (conn : Connection) :
  fetch_filtered sql params filters conn
  = ([CallExecute
        (sql ++ (if has_where sql
                 then and_clause (filter_conditions (default no_filters filters))
                 else where_clause (filter_conditions (default no_filters filters)))
         ++ [ORDER_BY_HUMAN_NAME])
        (params ++ map snd (filter_conditions (default no_filters filters)))],
     execute conn
       (sql ++ (if has_where sql
                then and_clause (filter_conditions (default no_filters filters))
                else where_clause (filter_conditions (default no_filters filters)))
        ++ [ORDER_BY_HUMAN_NAME])
       (params ++ map snd (filter_conditions (default no_filters filters)))).
Proof.
  unfold fetch_filtered, _add_filters_to_sql.
  destruct (has_keys filters) eqn:Hk; cbn [negb].
  - destruct (filter_conditions (default no_filters filters)) as [|e es] eqn:He.
    + cbn [map and_clause where_clause]. destruct (has_where sql);
        rewrite !app_nil_r; reflexivity.
    + unfold and_clause, where_clause. destruct (has_where sql);
        unfold fetchall, call; rewrite <- !app_assoc; reflexivity.
  - rewrite (no_keys_no_conditions filters Hk).
    cbn [map and_clause where_clause]. destruct (has_where sql);
      rewrite !app_nil_r; reflexivity.
Qed.

Lemma fetch_filtered_well_formed (sql : Sql) (params : list Param)
      (filters : option Filters) (conn : Connection) :
  placeholders sql = length params ->
  exists c, calls_of (fetch_filtered sql params filters conn) = [c]
            /\ well_formed_call c.
Proof.
  intros Hb. rewrite fetch_filtered_call. eexists. split; [reflexivity |].
  cbn [well_formed_call]. split.
  - rewrite !placeholders_app, length_app, length_map, Hb.
    cbn [placeholders]. rewrite Nat.add_0_r. f_equal.
    pose proof (filter_conditions_ok (default no_filters filters)) as Hok.
    revert Hok. generalize (filter_conditions (default no_filters filters)).
    intros [|e es] Hok; [now destruct (has_where sql) |].
    unfold and_clause, where_clause.
    destruct (has_where sql); cbn [placeholders];
      now apply placeholders_filter_conditions.
  - eexists. now rewrite app_assoc.
Qed.

Lemma bind_calls {A B : Type} (m : DB A) (k : A -> DB B) (conn : Connection) :
  calls_of (bind m k conn)
  = match outcome (m conn) with
    | inl _ => calls_of (m conn)
    | inr a => calls_of (m conn) ++ calls_of (k a conn)
    end.
Proof.
  unfold bind, calls_of, outcome. destruct (m conn) as [calls [e | a]]; [reflexivity |].
  cbn [snd fst]. now destruct (k a conn).
Qed.

(** A search that fetches and then works on the rows in the process
    sends what the fetch sends. *)
Lemma fetch_then_ret_calls {A : Type} (sql : Sql) (params : list Param)
      (filters : option Filters) (f : list Row -> A) (conn : Connection) :
  calls_of (bind (fetch_filtered sql params filters) (fun rows => ret (f rows)) conn)
  = calls_of (fetch_filtered sql params filters conn).
Proof.
  rewrite bind_calls. destruct (outcome _); [reflexivity |].
  unfold ret, calls_of at 2. cbn [fst]. apply app_nil_r.
Qed.

Section ProviderProperties.

Context `{RegexEngine}.

Lemma validate_queries_cons (field query : string) (rest : list (string * string))
      (conn : Connection) :
  validate_queries ((field, query) :: rest) conn
  = match validate_regex query with
    | inl e => ([], inl e)
    | inr false =>
        ([], inl (ValueError ("Invalid regex pattern for field '" ++ field
                              ++ "': " ++ query)))
    | inr true => validate_queries rest conn
    end.
Proof.
  cbn [validate_queries]. rewrite bind_lift.
  destruct (validate_regex query) as [e | [|]]; reflexivity.
Qed.

Lemma validate_queries_accepted (queries : list (string * string)) (conn : Connection) :
  Forall (fun fq => validate_regex (snd fq) = inr true) queries ->
  validate_queries queries conn = ([], inr tt).
Proof.
  induction 1 as [|[f q] queries Hq Hall IH]; [reflexivity |].
  rewrite validate_queries_cons. cbn [snd] in Hq. now rewrite Hq.
Qed.

Lemma validate_queries_cases (queries : list (string * string)) (conn : Connection) :
  (Forall (fun fq => validate_regex (snd fq) = inr true) queries
   /\ validate_queries queries conn = ([], inr tt))
  \/ (exists e, validate_queries queries conn = ([], inl e)).
Proof.
  induction queries as [|[f q] queries IH]; [left; split; [constructor | reflexivity] |].
  rewrite validate_queries_cons.
  destruct (validate_regex q) as [e | [|]] eqn:Hq.
  - right. eexists. reflexivity.
  - destruct IH as [[Hall Hok] | Hfail]; [left | now right].
    split; [constructor; [exact Hq | exact Hall] | exact Hok].
  - right. eexists. reflexivity.
Qed.

Lemma advanced_keep_eq (queries : list (string * string)) (case_sensitive : bool)
      (operator : string) (row : Row) :
  (let matches :=
     map (fun fp => value_matches (snd fp) (_get_field_value row (fst fp)))
         (map (fun fq => (fst fq, compile_query (snd fq) case_sensitive)) queries) in
   if (String.eqb operator "AND" && forallb id matches)%bool then true
   else if (String.eqb operator "OR" && existsb id matches)%bool then true
   else false)
  = advanced_keep queries case_sensitive operator row.
Proof. unfold advanced_keep, row_field_matches. cbv zeta. now rewrite map_map. Qed.

(** A regex search on several fields whose patterns compile: the fetch,
    then the test of each row. *)
Lemma advanced_regex_unfold (queries : list (string * string)) (filters : option Filters)
      (case_sensitive : bool) (operator : string) (conn : Connection) :
  Forall (fun fq => validate_regex (snd fq) = inr true) queries ->
  _advanced_search_with_regex queries filters case_sensitive operator conn
  = (calls_of (fetch_filtered [] [] filters conn),
     match outcome (fetch_filtered [] [] filters conn) with
     | inl e => inl e
     | inr rows =>
         inr (_format_results
                (List.filter (advanced_keep queries case_sensitive operator) rows))
     end).
Proof.
  intros Hv. unfold _advanced_search_with_regex.
  pose proof (validate_queries_accepted queries conn Hv) as Hq.
  unfold bind at 1. rewrite Hq. unfold bind, ret.
  rewrite fetch_filtered_statement. unfold calls_of, outcome. cbn [fst snd app].
  destruct (execute conn _ _) as [e | rows]; [reflexivity |].
  cbn [app]. f_equal. f_equal. f_equal. apply List.filter_ext.
  intros row. apply advanced_keep_eq.
Qed.

Lemma search_advanced_operator (queries : list (string * string)) (filters : option Filters)
      (use_regex case_sensitive : bool) (operator : string) :
  operator = "AND" \/ operator = "OR" ->
  search_advanced queries filters use_regex case_sensitive operator
  = if use_regex
    then _advanced_search_with_regex queries filters case_sensitive operator
    else _advanced_search_with_text queries filters operator.
Proof. intros [-> | ->]; reflexivity. Qed.

(** X13. [search_advanced] accepts the operators 'AND' and 'OR' and no
    other text (not 'and', not '&&'): for any other operator it raises
    the ValueError "Operator must be 'AND' or 'OR'" in text mode and in
    regex mode alike, before a pattern is validated and before the store
    is queried. *)
Theorem search_advanced_rejects_operator (queries : list (string * string))
        (filters : option Filters) (use_regex case_sensitive : bool) (operator : string)
        (conn : Connection) :
  operator <> "AND" -> operator <> "OR" ->
  search_advanced queries filters use_regex case_sensitive operator conn
  = ([], inl (ValueError "Operator must be 'AND' or 'OR'")).
Proof.
  intros Hand Hor. unfold search_advanced.
  apply String.eqb_neq in Hand, Hor. rewrite Hand, Hor. reflexivity.
Qed.

(** X14. With an empty dictionary of queries the two modes of
    [search_advanced] disagree: text mode returns the empty list without
    querying the store; regex mode queries the store and, with 'AND',
    returns every row fetched ([all] of no match is true), with 'OR',
    none. *)
Theorem search_advanced_without_queries (filters : option Filters) (case_sensitive : bool)
        (conn : Connection) :
  (forall operator,
      operator = "AND" \/ operator = "OR" ->
      search_advanced [] filters false case_sensitive operator conn = ([], inr []))
  /\ search_advanced [] filters true case_sensitive "AND" conn
     = (calls_of (fetch_filtered [] [] filters conn),
        match outcome (fetch_filtered [] [] filters conn) with
        | inl e => inl e
        | inr rows => inr (_format_results rows)
        end)
  /\ search_advanced [] filters true case_sensitive "OR" conn
     = (calls_of (fetch_filtered [] [] filters conn),
        match outcome (fetch_filtered [] [] filters conn) with
        | inl e => inl e
        | inr rows => inr []
        end).
Proof.
  split; [| split].
  - intros operator Hop. now rewrite search_advanced_operator.
  - rewrite search_advanced_operator by now left.
    rewrite advanced_regex_unfold by constructor.
    f_equal. destruct (outcome _) as [e | rows]; [reflexivity |].
    f_equal. f_equal. now apply filter_all.
  - rewrite search_advanced_operator by now right.
    rewrite advanced_regex_unfold by constructor.
    f_equal. destruct (outcome _) as [e | rows]; [reflexivity |].
    f_equal. induction rows as [|row rows IH]; [reflexivity | exact IH].
Qed.

(** X15. In regex mode [search_advanced] validates every pattern, in the
    order of the dictionary, before it queries the store. At the first
    query for which [re.compile] fails nothing is sent to the store: when
    it fails with [re.error], the search raises a ValueError that names
    the field and the pattern of that query; when it raises another
    exception, that exception passes through. *)
Theorem advanced_regex_rejects_invalid_pattern (before after : list (string * string))
        (field query : string) (filters : option Filters) (case_sensitive : bool)
        (operator : string) (conn : Connection) :
  operator = "AND" \/ operator = "OR" ->
  Forall (fun fq => validate_regex (snd fq) = inr true) before ->
  (validate_regex query = inr false ->
   search_advanced (before ++ (field, query) :: after) filters true case_sensitive
                   operator conn
   = ([], inl (ValueError ("Invalid regex pattern for field '" ++ field ++ "': "
                           ++ query)%string)))
  /\ (forall e,
         validate_regex query = inl e ->
         search_advanced (before ++ (field, query) :: after) filters true case_sensitive
                         operator conn
         = ([], inl e)).
Proof.
  intros Hop Hbefore. rewrite search_advanced_operator by exact Hop.
  unfold _advanced_search_with_regex, bind.
  assert (Hval : validate_queries (before ++ (field, query) :: after) conn
                 = validate_queries ((field, query) :: after) conn).
  { induction Hbefore as [|[f q] before Hq Hall IH]; [reflexivity |].
    cbn [app]. rewrite validate_queries_cons. cbn [snd] in Hq. now rewrite Hq. }
  rewrite Hval, validate_queries_cons. split.
  - now intros ->.
  - now intros e ->.
Qed.

Lemma forallb_existsb_nonempty (l : list bool) :
  l <> [] -> forallb id l = true -> existsb id l = true.
Proof.
  destruct l as [|b l]; [contradiction |]. intros _. cbn [forallb existsb id].
  intros Hb. apply andb_prop in Hb as [-> _]. reflexivity.
Qed.

Lemma filter_sublist_implies {A : Type} (P Q : A -> bool) (l : list A) :
  (forall a, P a = true -> Q a = true) ->
  sublist (List.filter P l) (List.filter Q l).
Proof.
  intros HPQ. induction l as [|a l IH]; simpl; [constructor |].
  destruct (P a) eqn:HP.
  - rewrite (HPQ a HP). now constructor.
  - destruct (Q a); [now constructor | exact IH].
Qed.

Lemma map_sublist {A B : Type} (f : A -> B) (l1 l2 : list A) :
  sublist l1 l2 -> sublist (map f l1) (map f l2).
Proof. induction 1; simpl; now constructor. Qed.

(** X16. In regex mode, with at least one query, what [search_advanced]
    returns with 'AND' is a sublist of what it returns with 'OR' on the
    same store: the same rows in the same order, with some left out. *)
Theorem advanced_and_within_or (queries : list (string * string))
        (filters : option Filters) (case_sensitive : bool) (conn : Connection)
        (with_and with_or : list Asset) :
  queries <> [] ->
  outcome (search_advanced queries filters true case_sensitive "AND" conn)
  = inr with_and ->
  outcome (search_advanced queries filters true case_sensitive "OR" conn)
  = inr with_or ->
  sublist with_and with_or.
Proof.
  intros Hne. rewrite !search_advanced_operator by auto.
  destruct (validate_queries_cases queries conn) as [[Hv _] | [e He]].
  - rewrite !advanced_regex_unfold by exact Hv. unfold outcome at 1 3. cbn [snd].
    destruct (outcome (fetch_filtered [] [] filters conn)) as [e | rows];
      [discriminate |].
    intros [= <-] [= <-]. unfold _format_results. apply map_sublist.
    apply filter_sublist_implies. intros row. unfold advanced_keep.
    cbn [String.eqb Ascii.eqb Bool.eqb andb].
    destruct (forallb id _) eqn:Hall; [| discriminate]. intros _.
    rewrite forallb_existsb_nonempty; [reflexivity | | exact Hall].
    destruct queries; [contradiction | discriminate].
  - unfold _advanced_search_with_regex, bind. rewrite He. discriminate.
Qed.

(** X17. A search on one searchable field through [search_advanced] is
    the search [search_by_field] does: in text mode the same statement
    is sent and the same rows are returned, with either operator; in
    regex mode, for a pattern that compiles, the same query is sent and
    the same rows are kept. *)
Theorem single_query_is_field_search (field query : string) (filters : option Filters)
        (case_sensitive : bool) (operator : string) (conn : Connection) :
  is_searchable field = true ->
  operator = "AND" \/ operator = "OR" ->
  search_advanced [(field, query)] filters false case_sensitive operator conn
  = search_by_field field query false case_sensitive filters conn
  /\ (validate_regex query = inr true ->
      search_advanced [(field, query)] filters true case_sensitive operator conn
      = search_by_field field query true case_sensitive filters conn).
Proof.
  intros Hf Hop. rewrite !search_advanced_operator by exact Hop.
  unfold search_by_field. rewrite Hf. cbn [negb]. split.
  - unfold _advanced_search_with_text, _search_field_with_text.
    cbn [List.filter fst snd map]. rewrite Hf. reflexivity.
  - intros Hv. rewrite advanced_regex_unfold by (repeat constructor; exact Hv).
    rewrite search_field_with_regex_cases, Hv.
    unfold bind, ret. rewrite fetch_filtered_statement.
    unfold calls_of, outcome. cbn [fst snd].
    destruct (execute conn _ _) as [e | rows]; [reflexivity |].
    cbn [app]. f_equal. f_equal. f_equal. apply List.filter_ext. intros row.
    unfold advanced_keep, row_field_matches. cbn [map forallb existsb id fst snd].
    destruct Hop as [-> | ->]; cbn [String.eqb Ascii.eqb Bool.eqb andb];
      destruct (value_matches _ _); reflexivity.
Qed.

(** X18. Whatever its arguments, a search sends at most one statement to
    the store, and a statement it sends binds exactly as many parameters
    as it has placeholders and ends with the ORDER BY on human_name:
    this holds for [search_assets], [search_by_field] and
    [search_advanced], in both modes, with or without filters. *)
Theorem searches_send_well_formed_statement (conn : Connection) :
  (forall query filters use_regex case_sensitive,
      length (calls_of (search_assets query filters use_regex case_sensitive conn)) <= 1
      /\ Forall well_formed_call
                (calls_of (search_assets query filters use_regex case_sensitive conn)))
  /\ (forall field query use_regex case_sensitive filters,
         length (calls_of (search_by_field field query use_regex case_sensitive
                                           filters conn)) <= 1
         /\ Forall well_formed_call
                   (calls_of (search_by_field field query use_regex case_sensitive
                                              filters conn)))
  /\ (forall queries filters use_regex case_sensitive operator,
         length (calls_of (search_advanced queries filters use_regex case_sensitive
                                           operator conn)) <= 1
         /\ Forall well_formed_call
                   (calls_of (search_advanced queries filters use_regex case_sensitive
                                              operator conn))).
Proof.
  assert (Hfetch : forall (A : Type) sql params filters (f : list Row -> A),
             placeholders sql = length params ->
             length (calls_of (bind (fetch_filtered sql params filters)
                                    (fun rows => ret (f rows)) conn)) <= 1
             /\ Forall well_formed_call
                       (calls_of (bind (fetch_filtered sql params filters)
                                       (fun rows => ret (f rows)) conn))).
  { intros A sql params filters f Hb. rewrite fetch_then_ret_calls.
    destruct (fetch_filtered_well_formed sql params filters conn Hb) as (c & -> & Hc).
    split; [simpl; lia | now repeat constructor]. }
  assert (Hnone : forall (A : Type) (r : Exc + A),
             length (calls_of (([] : list StoreCall), r)) <= 1
             /\ Forall well_formed_call (calls_of (([] : list StoreCall), r))).
  { intros A r. split; [simpl; lia | constructor]. }
  split; [| split].
  - intros query filters use_regex case_sensitive. unfold search_assets.
    destruct use_regex.
    + rewrite search_with_regex_cases.
      destruct (validate_regex query) as [e | [|]];
        [apply Hnone | now apply Hfetch | apply Hnone].
    + unfold _search_with_text. now apply Hfetch.
  - intros field query use_regex case_sensitive filters. unfold search_by_field.
    destruct (is_searchable field); cbn [negb]; [| apply Hnone].
    destruct use_regex.
    + rewrite search_field_with_regex_cases.
      destruct (validate_regex query) as [e | [|]];
        [apply Hnone | now apply Hfetch | apply Hnone].
    + unfold _search_field_with_text. now apply Hfetch.
  - intros queries filters use_regex case_sensitive operator. unfold search_advanced.
    destruct (negb _); [apply Hnone |]. destruct use_regex.
    + destruct (validate_queries_cases queries conn) as [[Hv _] | [e He]].
      * rewrite advanced_regex_unfold by exact Hv. unfold calls_of at 1 3. cbn [fst].
        destruct (fetch_filtered_well_formed [] [] filters conn eq_refl)
          as (c & -> & Hc).
        split; [simpl; lia | now repeat constructor].
      * unfold _advanced_search_with_regex, bind. rewrite He. apply Hnone.
    + unfold _advanced_search_with_text.
      destruct (map (fun fq => FieldILike (fst fq)) _) as [|c cs] eqn:Hconds;
        [apply Hnone |].
      apply Hfetch. rewrite <- Hconds. cbn [placeholders].
      now rewrite placeholders_field_conditions, length_map.
Qed.

(** X19. [get_search_stats] sends its four queries in a fixed order, the
    two counts, then the categories, then the sources, and stops at the
    first that fails: the queries sent are the first ones of that list, up
    to and including the one that failed, and no search statement is
    among them. *)
Theorem get_search_stats_queries (now : string) (conn : Connection) :
  calls_of (get_search_stats now conn) = firstn (stats_calls_made conn) stats_calls
  /\ 1 <= length (calls_of (get_search_stats now conn)) <= 4
  /\ (stats_failure conn = None <->
      calls_of (get_search_stats now conn) = stats_calls
      /\ exists stats, outcome (get_search_stats now conn) = inr stats
                       /\ stats !! "error" = None).
Proof.
  unfold get_search_stats, stats_calls_made, stats_failure, stats_calls,
    try_except, bind, call, ret, calls_of, outcome.
  destruct (count_products conn) as [e1 | n1];
    [| destruct (count_bundles conn) as [e2 | n2];
       [| destruct (category_stats conn) as [e3 | r3];
          [| destruct (source_stats conn) as [e4 | r4]]]];
    cbn [fst snd app firstn length]; (split; [reflexivity |]); (split; [lia |]).
  - split; [discriminate | intros [Hcalls _]; discriminate Hcalls].
  - split; [discriminate | intros [Hcalls _]; discriminate Hcalls].
  - split; [discriminate | intros [Hcalls _]; discriminate Hcalls].
  - split; [discriminate |]. intros [_ (stats & Hout & Herr)].
    injection Hout as <-. rewrite lookup_insert_eq in Herr. discriminate Herr.
  - split; [| reflexivity]. intros _. split; [reflexivity |].
    eexists. split; reflexivity.
Qed.

End ProviderProperties.

(** ** Searches on a store held in memory *)

Lemma and_clause_no_order (entries : list (SqlCond * Param)) :
  Forall (fun t => t <> ORDER_BY_HUMAN_NAME) (and_clause entries).
Proof.
  destruct entries as [|e entries]; [constructor |].
  unfold and_clause. constructor; [discriminate |].
  apply join_conditions_no_order.
Qed.

Lemma eval_and_clause (r : StoredRow) (entries : list (SqlCond * Param)) (acc : bool) :
  Forall filter_entry_ok entries ->
  eval_where (and_clause entries) (map snd entries) r acc
  = Some (acc && forallb (entry_holds r) entries).
Proof.
  intros Hok. destruct entries as [|e entries].
  - cbn [and_clause map eval_where forallb]. now rewrite andb_true_r.
  - unfold and_clause. cbn [eval_where String.eqb Ascii.eqb Bool.eqb].
    now apply eval_where_conjunction.
Qed.

(** The store's answer to [WHERE conds [AND filters] ORDER BY
    p.human_name], for conditions [conds] that evaluate to [P]. *)
Lemma execute_where (table : list StoredRow) (conds : Sql) (params : list Param)
      (filters : option Filters) (P : StoredRow -> bool) :
  Forall (fun t => t <> ORDER_BY_HUMAN_NAME) conds ->
  (forall r,
      eval_where (conds ++ and_clause (filter_conditions (default no_filters filters)))
                 (params ++ map snd (filter_conditions (default no_filters filters)))
                 r true
      = Some (P r)) ->
  execute_on_table table
    ((WHERE :: conds) ++ and_clause (filter_conditions (default no_filters filters))
     ++ [ORDER_BY_HUMAN_NAME])
    (params ++ map snd (filter_conditions (default no_filters filters)))
  = inr (map projection (order_by_human_name (List.filter P table))).
Proof.
  intros Hconds Heval. unfold execute_on_table.
  rewrite app_assoc, strip_order_by_snoc.
  - cbn [app]. now rewrite (select_where_filter _ _ P).
  - cbn [app]. constructor; [discriminate |].
    apply Forall_app. split; [exact Hconds | apply and_clause_no_order].
Qed.

Lemma products_column_known (field : string) (r : StoredRow) :
  is_products_column field = true ->
  exists col, products_column field r = Some col.
Proof.
  unfold is_products_column, products_column. cbn [existsb].
  rewrite !orb_true_iff. intros Hf.
  repeat match goal with
    | |- context [String.eqb field ?s] => destruct (String.eqb field s)
    end; try (eexists; reflexivity).
  destruct_or!; discriminate.
Qed.

Lemma eval_field_condition (fq : string * string) (rest : list Param) (r : StoredRow) :
  is_products_column (fst fq) = true ->
  eval_cond (FieldILike (fst fq)) (wildcard (snd fq) :: rest) r
  = Some (query_holds r fq, rest).
Proof.
  intros Hf. unfold query_holds, wildcard. cbn [eval_cond].
  destruct (products_column_known (fst fq) r Hf) as [col ->]. reflexivity.
Qed.

(** [c1 AND c2 AND ... AND cn], followed by the rest of the clause. *)
Lemma eval_and_chain (r : StoredRow) (tail : Sql) (ps : list Param)
      (queries : list (string * string)) :
  queries <> [] ->
  forallb (fun fq => is_products_column (fst fq)) queries = true ->
  forall acc,
    eval_where (join_conditions "AND" (map (fun fq => FieldILike (fst fq)) queries) ++ tail)
               (map (fun fq => wildcard (snd fq)) queries ++ ps) r acc
    = eval_where tail ps r (acc && forallb (query_holds r) queries).
Proof.
  induction queries as [|fq queries IH]; [contradiction |]. intros _ Hcols acc.
  cbn [forallb] in Hcols. apply andb_prop in Hcols as [Hcol Hcols].
  destruct queries as [|fq' queries].
  - cbn [map join_conditions app eval_where forallb].
    rewrite (eval_field_condition fq _ r Hcol). now rewrite andb_true_r.
  - change (join_conditions "AND" (map (fun fq => FieldILike (fst fq)) (fq :: fq' :: queries)))
      with (Cond (FieldILike (fst fq)) :: Operator "AND"
              :: join_conditions "AND"
                   (map (fun fq => FieldILike (fst fq)) (fq' :: queries))).
    cbn [map app eval_where]. rewrite (eval_field_condition fq _ r Hcol).
    cbn [String.eqb Ascii.eqb Bool.eqb].
    change (wildcard (snd fq') :: map (fun fq => wildcard (snd fq)) queries)
      with (map (fun fq => wildcard (snd fq)) (fq' :: queries)).
    rewrite IH by (try discriminate; exact Hcols).
    cbn [forallb]. f_equal. now rewrite <- !andb_assoc.
Qed.

(** [c1 OR c2 OR ... OR cn AND filters]: the conjunction with the filters
    is read first, and it has the last condition only. *)
Lemma eval_or_chain (r : StoredRow) (entries : list (SqlCond * Param))
      (queries : list (string * string)) :
  Forall filter_entry_ok entries ->
  forallb (fun fq => is_products_column (fst fq)) queries = true ->
  forall fq acc,
    is_products_column (fst fq) = true ->
    eval_where (join_conditions "OR"
                  (map (fun fq => FieldILike (fst fq)) (fq :: queries))
                ++ and_clause entries)
               (map (fun fq => wildcard (snd fq)) (fq :: queries) ++ map snd entries)
               r acc
    = Some (or_chain ((acc && query_holds r fq) :: map (query_holds r) queries)
                     (forallb (entry_holds r) entries)).
Proof.
  intros Hok. induction queries as [|fq' queries IH]; intros Hcols fq acc Hcol.
  - cbn [map join_conditions app eval_where or_chain].
    rewrite (eval_field_condition fq _ r Hcol). now apply eval_and_clause.
  - cbn [forallb] in Hcols. apply andb_prop in Hcols as [Hcol' Hcols].
    change (join_conditions "OR" (map (fun fq => FieldILike (fst fq)) (fq :: fq' :: queries)))
      with (Cond (FieldILike (fst fq)) :: Operator "OR"
              :: join_conditions "OR"
                   (map (fun fq => FieldILike (fst fq)) (fq' :: queries))).
    cbn [map app eval_where]. rewrite (eval_field_condition fq _ r Hcol).
    cbn [String.eqb Ascii.eqb Bool.eqb].
    change (wildcard (snd fq') :: map (fun fq => wildcard (snd fq)) queries)
      with (map (fun fq => wildcard (snd fq)) (fq' :: queries)).
    pose proof (IH Hcols fq' true Hcol') as IH'. cbn [map app] in IH'.
    rewrite IH'. reflexivity.
Qed.

Lemma or_chain_earlier (conds : list bool) (filters : bool) :
  In true (removelast conds) -> or_chain conds filters = true.
Proof.
  induction conds as [|c conds IH]; [contradiction |].
  destruct conds as [|c' conds]; [contradiction |].
  change (removelast (c :: c' :: conds)) with (c :: removelast (c' :: conds)).
  change (or_chain (c :: c' :: conds) filters)
    with (c || or_chain (c' :: conds) filters).
  intros [-> | Hin]; [reflexivity |]. rewrite IH by exact Hin. apply orb_true_r.
Qed.

Lemma removelast_map {A B : Type} (f : A -> B) (l : list A) :
  removelast (map f l) = map f (removelast l).
Proof.
  induction l as [|a l IH]; [reflexivity |].
  destruct l as [|a' l]; [reflexivity |].
  change (removelast (map f (a :: a' :: l)))
    with (f a :: removelast (map f (a' :: l))).
  now rewrite IH.
Qed.

Lemma products_column_searchable (field : string) :
  is_products_column field = true -> is_searchable field = true.
Proof.
  unfold is_products_column, is_searchable, searchable_fields. cbn [existsb].
  rewrite !orb_true_iff. intros Hf. destruct_or!; try discriminate; tauto.
Qed.

Lemma known_queries (queries : list (string * string)) :
  forallb (fun fq => is_products_column (fst fq)) queries = true ->
  List.filter (fun fq => is_searchable (fst fq)) queries = queries.
Proof.
  induction queries as [|fq queries IH]; [reflexivity |]. cbn [forallb List.filter].
  intros Hc. apply andb_prop in Hc as [Hcol Hcols].
  now rewrite (products_column_searchable _ Hcol), IH.
Qed.

(** ** LIKE with the two wildcards the provider adds *)

Lemma like_percent_step (pat text : string) :
  like (String "%" pat) text
  = like pat text
    || match text with
       | String _ text' => like (String "%" pat) text'
       | EmptyString => false
       end.
Proof. destruct text; reflexivity. Qed.

Lemma like_percent_all (text : string) : like "%" text = true.
Proof.
  induction text as [|c text IH]; [reflexivity |].
  rewrite like_percent_step, IH. apply orb_true_r.
Qed.

Lemma like_prefix (query : string) : forall text,
  no_wildcards query = true ->
  like (query ++ "%") text = String.prefix query text.
Proof.
  induction query as [|c query IH]; intros text Hq.
  - change ("" ++ "%")%string with "%". rewrite like_percent_all. now destruct text.
  - cbn [no_wildcards] in Hq. apply andb_prop in Hq as [Hc Hq].
    apply andb_prop in Hc as [Hpercent Hunder].
    apply negb_true_iff in Hpercent, Hunder.
    change (String c query ++ "%")%string with (String c (query ++ "%")).
    cbn [like]. rewrite Hpercent. destruct text as [|d text]; [reflexivity |].
    rewrite Hunder, IH by exact Hq. cbn [orb String.prefix].
    destruct (ascii_dec c d) as [-> | Hne].
    + now rewrite Ascii.eqb_refl.
    + apply Ascii.eqb_neq in Hne. now rewrite Hne.
Qed.

(** With a text that has no wildcard of its own, [LIKE '%text%'] is
    "the text occurs in the value". *)
Lemma like_contains (query : string) (text : string) :
  no_wildcards query = true ->
  like ("%" ++ query ++ "%") text = contains query text.
Proof.
  intros Hq. change ("%" ++ query ++ "%")%string with (String "%" (query ++ "%")).
  induction text as [|c text IH].
  - rewrite like_percent_step, like_prefix by exact Hq. cbn [contains].
    now rewrite orb_false_r.
  - rewrite like_percent_step, like_prefix, IH by exact Hq. reflexivity.
Qed.

Lemma lower_app (a b : string) : lower (a ++ b) = (lower a ++ lower b)%string.
Proof.
  induction a as [|c a IH]; [reflexivity |].
  change (lower (String c (a ++ b)) = String (lower_ascii c) (lower a ++ lower b)).
  cbn [lower]. now rewrite IH.
Qed.

Lemma lower_ascii_no_wildcard (c : ascii) :
  Ascii.eqb (lower_ascii c) "%" = Ascii.eqb c "%"
  /\ Ascii.eqb (lower_ascii c) "_" = Ascii.eqb c "_".
Proof. destruct c as [[] [] [] [] [] [] [] []]; split; reflexivity. Qed.

Lemma lower_no_wildcards (s : string) : no_wildcards (lower s) = no_wildcards s.
Proof.
  induction s as [|c s IH]; [reflexivity |]. cbn [lower no_wildcards].
  destruct (lower_ascii_no_wildcard c) as [-> ->]. now rewrite IH.
Qed.

Lemma ilike_contains (query : string) (col : option string) :
  no_wildcards query = true ->
  ilike col ("%" ++ query ++ "%") = contains_nocase query col.
Proof.
  intros Hq. destruct col as [text|]; [| reflexivity].
  unfold ilike, contains_nocase. rewrite !lower_app.
  change (lower "%") with "%". apply like_contains.
  now rewrite lower_no_wildcards.
Qed.

Lemma filter_both {A : Type} (P Q : A -> bool) (l : list A) :
  List.filter Q (List.filter P l) = List.filter (fun a => P a && Q a) l.
Proof.
  induction l as [|a l IH]; [reflexivity |]. cbn [List.filter].
  destruct (P a); cbn [List.filter andb]; [destruct (Q a) |]; now rewrite IH.
Qed.

Section StoreProperties.

Context `{RegexEngine}.

(** A text-mode statement on a store held in memory. *)
Lemma text_statement_on_table (conds : Sql) (params : list Param)
      (filters : option Filters) (P : StoredRow -> bool) (table : list StoredRow)
      (np nb : Z) (bc bs : list (option string * Z)) :
  Forall (fun t => t <> ORDER_BY_HUMAN_NAME) conds ->
  (forall r,
      eval_where (conds ++ and_clause (filter_conditions (default no_filters filters)))
                 (params ++ map snd (filter_conditions (default no_filters filters)))
                 r true
      = Some (P r)) ->
  outcome (bind (fetch_filtered (WHERE :: conds) params filters)
                (fun results => ret (_format_results results))
                (table_connection table np nb bc bs))
  = inr (_format_results
           (map projection (order_by_human_name (List.filter P table)))).
Proof.
  intros Hconds Heval. unfold bind, ret, outcome. rewrite fetch_filtered_call.
  cbn [has_where existsb orb table_connection execute].
  change (WHERE :: conds ++ and_clause (filter_conditions (default no_filters filters))
            ++ [ORDER_BY_HUMAN_NAME])
    with ((WHERE :: conds) ++ and_clause (filter_conditions (default no_filters filters))
            ++ [ORDER_BY_HUMAN_NAME]).
  now rewrite (execute_where table conds params filters P Hconds Heval).
Qed.

(** X20. On a store held in memory, a text search returns, in the order
    of the names, exactly the records that satisfy the filters that are
    set, as the store reads them, and in which human_name, description
    or tags is LIKE '%query%' without regard to case; for a query without [%] and [_] that means
    that the lowercased query occurs in the lowercased value, and a value
    that is NULL never matches. The wildcards of the query are not
    escaped. *)
Theorem text_search_on_table (query : string) (filters : option Filters)
        (case_sensitive : bool) (table : list StoredRow) (np nb : Z)
        (bc bs : list (option string * Z)) :
  outcome (search_assets query filters false case_sensitive
                         (table_connection table np nb bc bs))
  = inr (_format_results
           (map projection
              (order_by_human_name
                 (List.filter (fun r => any_text_holds query r && holds_in_store filters r)
                              table))))
  /\ (no_wildcards query = true ->
      forall r,
        any_text_holds query r
        = contains_nocase query (row_human_name (projection r))
          || contains_nocase query (description r)
          || contains_nocase query (row_tags (projection r))).
Proof.
  split.
  - unfold search_assets, _search_with_text.
    apply (text_statement_on_table [Cond AnyTextILike]).
    + repeat constructor. discriminate.
    + intros r. unfold wildcard. cbn [app eval_where eval_cond andb].
      rewrite eval_and_clause by apply filter_conditions_ok.
      now rewrite filter_conditions_hold.
  - intros Hq r. unfold any_text_holds. now rewrite !ilike_contains by exact Hq.
Qed.

(** X21. On a store held in memory, a text-mode [search_advanced] on
    columns of the products table returns, with 'AND', the records that
    satisfy every query and every filter that is set. With 'OR' the
    filters are appended to the clause without parentheses, so they go
    with the last query only: a record that satisfies an earlier query is
    returned whether or not it satisfies the filters. *)
Theorem advanced_text_search_on_table (queries : list (string * string))
        (filters : option Filters) (case_sensitive : bool) (table : list StoredRow)
        (np nb : Z) (bc bs : list (option string * Z)) :
  queries <> [] ->
  forallb (fun fq => is_products_column (fst fq)) queries = true ->
  outcome (search_advanced queries filters false case_sensitive "AND"
                           (table_connection table np nb bc bs))
  = inr (_format_results
           (map projection
              (order_by_human_name
                 (List.filter (fun r => forallb (query_holds r) queries
                                        && holds_in_store filters r) table))))
  /\ outcome (search_advanced queries filters false case_sensitive "OR"
                              (table_connection table np nb bc bs))
     = inr (_format_results
              (map projection
                 (order_by_human_name
                    (List.filter (fun r => or_chain (map (query_holds r) queries)
                                                    (holds_in_store filters r)) table))))
  /\ (forall assets r fq,
         outcome (search_advanced queries filters false case_sensitive "OR"
                                  (table_connection table np nb bc bs)) = inr assets ->
         In r table -> In fq (removelast queries) -> query_holds r fq = true ->
         In (format_row (projection r)) assets).
Proof.
  intros Hne Hcols.
  assert (Hand :
    outcome (search_advanced queries filters false case_sensitive "AND"
                             (table_connection table np nb bc bs))
    = inr (_format_results
             (map projection
                (order_by_human_name
                   (List.filter (fun r => forallb (query_holds r) queries
                                          && holds_in_store filters r) table))))).
  { rewrite search_advanced_operator by now left.
    unfold _advanced_search_with_text. rewrite (known_queries queries Hcols).
    destruct queries as [|fq queries]; [contradiction |].
    cbn [map]. change (FieldILike (fst fq) :: map (fun fq => FieldILike (fst fq)) queries)
      with (map (fun fq => FieldILike (fst fq)) (fq :: queries)).
    change (wildcard (snd fq) :: map (fun fq => wildcard (snd fq)) queries)
      with (map (fun fq => wildcard (snd fq)) (fq :: queries)).
    apply text_statement_on_table; [apply join_conditions_no_order |].
    intros r. rewrite eval_and_chain by (try discriminate; exact Hcols).
    rewrite eval_and_clause by apply filter_conditions_ok.
    now rewrite filter_conditions_hold. }
  assert (Hor :
    outcome (search_advanced queries filters false case_sensitive "OR"
                             (table_connection table np nb bc bs))
    = inr (_format_results
             (map projection
                (order_by_human_name
                   (List.filter (fun r => or_chain (map (query_holds r) queries)
                                                   (holds_in_store filters r)) table))))).
  { rewrite search_advanced_operator by now right.
    unfold _advanced_search_with_text. rewrite (known_queries queries Hcols).
    destruct queries as [|fq queries]; [contradiction |].
    cbn [forallb] in Hcols. apply andb_prop in Hcols as [Hcol Hcols].
    cbn [map]. change (FieldILike (fst fq) :: map (fun fq => FieldILike (fst fq)) queries)
      with (map (fun fq => FieldILike (fst fq)) (fq :: queries)).
    change (wildcard (snd fq) :: map (fun fq => wildcard (snd fq)) queries)
      with (map (fun fq => wildcard (snd fq)) (fq :: queries)).
    apply text_statement_on_table; [apply join_conditions_no_order |].
    intros r.
    rewrite (eval_or_chain r _ queries (filter_conditions_ok _) Hcols fq true Hcol).
    now rewrite filter_conditions_hold. }
  split; [exact Hand |]. split; [exact Hor |].
  intros assets r fq Hout Hr Hfq Hholds. rewrite Hor in Hout. injection Hout as <-.
  unfold _format_results. apply in_map. apply in_map.
  apply (proj2 (in_order_by_human_name _ _)). apply filter_In. split; [exact Hr |].
  apply or_chain_earlier. rewrite removelast_map, <- Hholds. now apply in_map.
Qed.

(** X22. On a store held in memory, for a pattern that compiles, a regex
    search in one searchable field returns, in the order of the names,
    exactly the records that satisfy the filters that are set and whose
    value in that field, as the search projection carries it, is not
    empty and matches the pattern. *)
Theorem field_regex_search_on_table (field query : string) (case_sensitive : bool)
        (filters : option Filters) (table : list StoredRow) (np nb : Z)
        (bc bs : list (option string * Z)) :
  is_searchable field = true ->
  validate_regex query = inr true ->
  outcome (search_by_field field query true case_sensitive filters
                           (table_connection table np nb bc bs))
  = inr (_format_results
           (map projection
              (order_by_human_name
                 (List.filter
                    (fun r => holds_in_store filters r
                              && row_field_matches (compile_query query case_sensitive)
                                                   field (projection r))
                    table))))
  /\ forall r,
       In r table ->
       holds_in_store filters r = true ->
       row_field_matches (compile_query query case_sensitive) field (projection r) = true ->
       exists assets,
         outcome (search_by_field field query true case_sensitive filters
                                  (table_connection table np nb bc bs)) = inr assets
         /\ In (format_row (projection r)) assets.
Proof.
  intros Hf Hv.
  assert (Hout :
    outcome (search_by_field field query true case_sensitive filters
                             (table_connection table np nb bc bs))
    = inr (_format_results
             (map projection
                (order_by_human_name
                   (List.filter
                      (fun r => holds_in_store filters r
                                && row_field_matches (compile_query query case_sensitive)
                                                     field (projection r))
                      table))))).
  { unfold search_by_field. rewrite Hf. cbn [negb].
    rewrite search_field_with_regex_cases, Hv.
    unfold bind, ret, outcome. rewrite fetch_filtered_statement.
    cbn [snd table_connection execute]. rewrite execute_filtered.
    f_equal. f_equal.
    rewrite (filter_map_commute projection
               (fun row => value_matches (compile_query query case_sensitive)
                                         (_get_field_value row field))).
    f_equal. rewrite <- order_filter_commute. f_equal.
    now rewrite filter_both. }
  split; [exact Hout |].
  intros r Hr Hp Hm. eexists. split; [exact Hout |].
  unfold _format_results. apply in_map. apply in_map.
  apply (proj2 (in_order_by_human_name _ _)). apply filter_In.
  split; [exact Hr | now rewrite Hp, Hm].
Qed.

Lemma never_read_value (field : string) (row : Row) :
  never_read field = true -> _get_field_value row field = None.
Proof.
  unfold never_read. intros Hn. apply orb_prop in Hn as [Hd | Hs].
  - apply String.eqb_eq in Hd. now subst field.
  - apply negb_true_iff in Hs. unfold is_searchable, searchable_fields in Hs.
    cbn [existsb] in Hs. rewrite !orb_false_iff in Hs.
    destruct Hs as (H1 & H2 & H3 & H4 & H5 & H6 & H7 & H8 & _).
    unfold _get_field_value. now rewrite H1, H2, H3, H4, H5, H6, H7, H8.
Qed.

(** X23. In a regex-mode [search_advanced], a query on 'description' or
    on a name that is not a searchable field matches no row: with 'AND'
    it empties the result whatever the other queries are, and with 'OR'
    the search returns what it returns without that query. *)
Theorem advanced_regex_never_read_field (before after : list (string * string))
        (field query : string) (filters : option Filters) (case_sensitive : bool)
        (conn : Connection) :
  never_read field = true ->
  Forall (fun fq => validate_regex (snd fq) = inr true)
         (before ++ (field, query) :: after) ->
  search_advanced (before ++ (field, query) :: after) filters true case_sensitive
                  "AND" conn
  = (calls_of (fetch_filtered [] [] filters conn),
     match outcome (fetch_filtered [] [] filters conn) with
     | inl e => inl e
     | inr _ => inr []
     end)
  /\ search_advanced (before ++ (field, query) :: after) filters true case_sensitive
                     "OR" conn
     = search_advanced (before ++ after) filters true case_sensitive "OR" conn.
Proof.
  intros Hn Hv.
  assert (Hv' : Forall (fun fq => validate_regex (snd fq) = inr true) (before ++ after)).
  { apply List.Forall_app in Hv as [Hb Ha]. apply List.Forall_app. split; [exact Hb |].
    now inversion Ha. }
  assert (Hdead : forall row,
             row_field_matches (compile_query query case_sensitive) field row = false).
  { intros row. unfold row_field_matches. now rewrite never_read_value. }
  rewrite !search_advanced_operator by auto.
  rewrite !advanced_regex_unfold by assumption. split.
  - f_equal. destruct (outcome _) as [e | rows]; [reflexivity |]. f_equal.
    induction rows as [|row rows IH]; [reflexivity |].
    cbn [List.filter]. unfold advanced_keep at 1.
    cbn [String.eqb Ascii.eqb Bool.eqb andb].
    rewrite map_app, forallb_app. cbn [map forallb fst snd id].
    rewrite Hdead. cbn [id andb]. rewrite andb_false_r. exact IH.
  - f_equal. destruct (outcome _) as [e | rows]; [reflexivity |]. f_equal. f_equal.
    apply List.filter_ext. intros row. unfold advanced_keep.
    cbn [String.eqb Ascii.eqb Bool.eqb andb].
    rewrite !map_app, !existsb_app. cbn [map existsb fst snd].
    rewrite Hdead. reflexivity.
Qed.

End StoreProperties.

(* ===================================================================== *)
(** * Further properties: the helpers of the search commands *)
(* ===================================================================== *)

(** ** The filters of the command line *)

Lemma get_text_idempotent (v : option string) : get_text (get_text v) = get_text v.
Proof.
  destruct v as [s|]; [| reflexivity]. cbn [get_text].
  destruct (String.eqb s "") eqn:Hs; [reflexivity |]. cbn [get_text]. now rewrite Hs.
Qed.

Lemma get_number_idempotent (v : option float) : get_number (get_number v) = get_number v.
Proof.
  destruct v as [x|]; [| reflexivity]. cbn [get_number].
  destruct (PrimFloat.eqb x 0) eqn:Hx; [reflexivity |]. cbn [get_number]. now rewrite Hx.
Qed.

Lemma get_text_set (v : option string) :
  match get_text v with Some s => negb (String.eqb s "") | None => true end = true.
Proof.
  destruct v as [s|]; [| reflexivity]. cbn [get_text].
  destruct (String.eqb s "") eqn:Hs; [reflexivity | now rewrite Hs].
Qed.

Lemma get_number_set (v : option float) :
  match get_number v with Some x => negb (PrimFloat.eqb x 0) | None => true end = true.
Proof.
  destruct v as [x|]; [| reflexivity]. cbn [get_number].
  destruct (PrimFloat.eqb x 0) eqn:Hx; [reflexivity | now rewrite Hx].
Qed.

Lemma get_number_some (v : option float) (x : float) :
  get_number v = Some x <-> v = Some x /\ PrimFloat.eqb x 0 = false.
Proof.
  destruct v as [y|]; cbn [get_number].
  - destruct (PrimFloat.eqb y 0) eqn:Hy; split.
    + discriminate.
    + intros [[= ->] Hx]. congruence.
    + intros [= ->]. now split.
    + now intros [[= ->] _].
  - split; [discriminate | now intros [Habs _]].
Qed.

(** The rating conditions among the conditions derived from filters. *)
Lemma rating_conditions (f : Filters) (x : float) :
  (In (RatingGe, PNum x) (filter_conditions f) <-> get_number (filter_rating_min f) = Some x)
  /\ (In (RatingLe, PNum x) (filter_conditions f)
      <-> get_number (filter_rating_max f) = Some x).
Proof.
  unfold filter_conditions, filter_entry. rewrite !in_app_iff.
  destruct (get_text (filter_category f)), (get_text (filter_source f)),
    (get_text (filter_platform f)), (get_number (filter_rating_min f)),
    (get_number (filter_rating_max f)); cbn [In]; split; split; intros Hin;
    repeat match goal with
      | H : _ \/ _ |- _ => destruct H
      | H : False |- _ => contradiction H
      | H : (_, _) = (_, _) |- _ => injection H as ?; subst
      end;
    try discriminate; try congruence; try tauto;
    try (injection Hin as ->; tauto).
Qed.

Section BuildFiltersProperties.

Variable float_of_text : string -> Exc + float.

Lemma rating_entry_value (v : option RatingArg) :
  rating_entry float_of_text v
  = match rating_value float_of_text v with
    | Some (inl e) => inl e
    | Some (inr x) => inr (Some x)
    | None => inr None
    end.
Proof.
  unfold rating_entry, rating_value. destruct v as [a|]; [| reflexivity].
  destruct (rating_given (Some a)); [| reflexivity].
  destruct (py_float float_of_text a); reflexivity.
Qed.

Lemma rating_value_number (v : option RatingArg) :
  declared_type v = true ->
  rating_value float_of_text v = option_map inr (get_number (number_of v)).
Proof.
  destruct v as [[s | x]|]; cbn [declared_type]; intros Hd;
    [discriminate | | reflexivity].
  unfold rating_value. cbn [rating_given py_float number_of get_number].
  destruct (PrimFloat.eqb x 0); reflexivity.
Qed.

(** X24. [_build_search_filters] raises what [float] raises for a rating
    that is given, the lowest rating first, and nothing else. The
    dictionary it builds holds category, source and platform when they
    are not empty, and each rating that is given, as [float] reads it:
    a text such as '0' is given and is kept as the number zero, from
    which [_add_filters_to_sql] derives no condition, so that a rating
    condition is sent exactly for a rating kept with a value other than
    zero. On arguments of the declared types, numbers, it never raises,
    every value of the dictionary is set, the conditions derived from it
    are those derived from the raw arguments, and it is empty exactly
    when no condition is derived. *)
Theorem build_search_filters_normalises (category source platform : option string)
        (rating_min rating_max : option RatingArg) :
  let result := _build_search_filters float_of_text category source platform
                                      rating_min rating_max in
  (forall e,
      result = inl e <->
      rating_value float_of_text rating_min = Some (inl e)
      \/ ((forall e', rating_value float_of_text rating_min <> Some (inl e'))
          /\ rating_value float_of_text rating_max = Some (inl e)))
  /\ (forall built,
         result = inr built ->
         filter_category built = get_text category
         /\ filter_source built = get_text source
         /\ filter_platform built = get_text platform
         /\ rating_value float_of_text rating_min = option_map inr (filter_rating_min built)
         /\ rating_value float_of_text rating_max = option_map inr (filter_rating_max built)
         /\ (forall x, In (RatingGe, PNum x) (filter_conditions built)
                       <-> filter_rating_min built = Some x /\ PrimFloat.eqb x 0 = false)
         /\ (forall x, In (RatingLe, PNum x) (filter_conditions built)
                       <-> filter_rating_max built = Some x /\ PrimFloat.eqb x 0 = false))
  /\ (declared_type rating_min = true -> declared_type rating_max = true ->
      exists built,
        result = inr built
        /\ values_set (Some built) = true
        /\ filter_conditions built
           = filter_conditions (mkFilters category source platform
                                          (number_of rating_min) (number_of rating_max))
        /\ (has_keys (Some built) = false <-> filter_conditions built = [])).
Proof.
  intros result. subst result. unfold _build_search_filters.
  rewrite !rating_entry_value. split; [| split].
  - intros e.
    destruct (rating_value float_of_text rating_min) as [[e1 | x1]|];
      destruct (rating_value float_of_text rating_max) as [[e2 | x2]|];
      split; intros Hcase;
      repeat match goal with
        | H : _ \/ _ |- _ => destruct H
        | H : _ /\ _ |- _ => destruct H
        | H : inl _ = inl _ |- _ => injection H as ->
        | H : Some _ = Some _ |- _ => injection H as ?; subst
        end;
      try discriminate; try reflexivity; try (now left);
      try (right; split; [discriminate | reflexivity]);
      try (exfalso; match goal with H : forall e', _ <> _ |- _ => now apply (H e1) end).
  - intros built.
    destruct (rating_value float_of_text rating_min) as [[e1 | x1]|];
      destruct (rating_value float_of_text rating_max) as [[e2 | x2]|];
      intros Hb; try discriminate Hb; injection Hb as <-;
      cbn [filter_category filter_source filter_platform filter_rating_min
           filter_rating_max option_map];
      (do 5 (split; [reflexivity |]));
      (split; intros x;
       [rewrite (proj1 (rating_conditions _ x)) | rewrite (proj2 (rating_conditions _ x))];
       cbn [filter_rating_min filter_rating_max]; exact (get_number_some _ x)).
  - intros Hlo Hhi. rewrite (rating_value_number rating_min Hlo),
      (rating_value_number rating_max Hhi).
    assert (Hconds : forall lo hi,
               filter_conditions (mkFilters (get_text category) (get_text source)
                                            (get_text platform) (get_number lo)
                                            (get_number hi))
               = filter_conditions (mkFilters category source platform lo hi)).
    { intros lo hi. unfold filter_conditions.
      cbn [filter_category filter_source filter_platform filter_rating_min
           filter_rating_max].
      now rewrite !get_text_idempotent, !get_number_idempotent. }
    exists (mkFilters (get_text category) (get_text source) (get_text platform)
                      (get_number (number_of rating_min))
                      (get_number (number_of rating_max))).
    split; [| split; [| split; [apply Hconds |]]].
    + destruct (get_number (number_of rating_min)), (get_number (number_of rating_max));
        reflexivity.
    + unfold values_set.
      cbn [from_option id filter_category filter_source filter_platform
           filter_rating_min filter_rating_max].
      now rewrite !get_text_set, !get_number_set.
    + rewrite Hconds. unfold has_keys, filter_conditions, filter_entry.
      cbn [filter_category filter_source filter_platform filter_rating_min
           filter_rating_max].
      destruct (get_text category), (get_text source), (get_text platform),
        (get_number (number_of rating_min)), (get_number (number_of rating_max));
        cbn [is_set orb app]; split; intros Habs; try discriminate Habs; reflexivity.
Qed.

End BuildFiltersProperties.

(** ** The query string of the advanced search *)

Lemma split_on_free (sep : ascii) (s : string) :
  free_of sep s = true -> split_on sep s = [s].
Proof.
  induction s as [|c s IH]; [reflexivity |]. cbn [free_of split_on].
  intros Hf. apply andb_prop in Hf as [Hc Hs]. apply negb_true_iff in Hc.
  now rewrite Hc, (IH Hs).
Qed.

Lemma split_on_separator (sep : ascii) (a b : string) :
  free_of sep a = true ->
  split_on sep (a ++ String sep b) = a :: split_on sep b.
Proof.
  induction a as [|c a IH]; intros Hf.
  - change ("" ++ String sep b)%string with (String sep b).
    cbn [split_on]. now rewrite Ascii.eqb_refl.
  - cbn [free_of] in Hf. apply andb_prop in Hf as [Hc Ha]. apply negb_true_iff in Hc.
    change (String c a ++ String sep b)%string with (String c (a ++ String sep b)).
    cbn [split_on]. now rewrite Hc, (IH Ha).
Qed.

Lemma split_on_join (parts : list string) :
  parts <> [] ->
  forallb (free_of ",") parts = true ->
  split_on "," (join "," parts) = parts.
Proof.
  induction parts as [|p parts IH]; [contradiction |]. intros _ Hf.
  cbn [forallb] in Hf. apply andb_prop in Hf as [Hp Hparts].
  destruct parts as [|q parts].
  - cbn [join]. now apply split_on_free.
  - change (join "," (p :: q :: parts)) with (p ++ String "," (join "," (q :: parts)))%string.
    rewrite (split_on_separator "," p _ Hp). now rewrite IH.
Qed.

Lemma split_on_pieces (sep : ascii) (s : string) :
  split_on sep s <> [] /\ forallb (free_of sep) (split_on sep s) = true.
Proof.
  induction s as [|c s [Hne Hfree]]; [split; [discriminate | reflexivity] |].
  cbn [split_on]. destruct (Ascii.eqb c sep) eqn:Hc.
  - split; [discriminate |]. cbn [forallb free_of]. exact Hfree.
  - destruct (split_on sep s) as [|p ps]; [contradiction |].
    split; [discriminate |]. cbn [forallb free_of] in *. now rewrite Hc.
Qed.

Lemma split_first_separator (sep : ascii) (a b : string) :
  free_of sep a = true -> split_first sep (a ++ String sep b) = Some (a, b).
Proof.
  induction a as [|c a IH]; intros Hf.
  - change ("" ++ String sep b)%string with (String sep b).
    cbn [split_first]. now rewrite Ascii.eqb_refl.
  - cbn [free_of] in Hf. apply andb_prop in Hf as [Hc Ha]. apply negb_true_iff in Hc.
    change (String c a ++ String sep b)%string with (String c (a ++ String sep b)).
    cbn [split_first]. now rewrite Hc, (IH Ha).
Qed.

(** The two parts of a text split at its first colon have no character
    the text does not have, and the first has no colon. *)
Lemma split_first_parts (sep other : ascii) (s a b : string) :
  split_first sep s = Some (a, b) ->
  free_of sep a = true
  /\ (free_of other s = true -> free_of other a = true /\ free_of other b = true).
Proof.
  revert a b. induction s as [|c s IH]; intros a b; [discriminate |].
  cbn [split_first]. destruct (Ascii.eqb c sep) eqn:Hc.
  - intros [= <- <-]. split; [reflexivity |]. cbn [free_of].
    intros Hf. apply andb_prop in Hf as [_ Hs]. now split.
  - destruct (split_first sep s) as [[a' b']|]; [| discriminate].
    intros [= <- <-]. destruct (IH a' b' eq_refl) as [Ha Hother].
    split; [cbn [free_of]; now rewrite Hc, Ha |].
    cbn [free_of]. intros Hf. apply andb_prop in Hf as [Hd Hs].
    destruct (Hother Hs) as [Ha' Hb']. now rewrite Hd, Ha', Hb'.
Qed.

Lemma free_of_lstrip (c : ascii) (s : string) :
  free_of c s = true -> free_of c (lstrip s) = true.
Proof.
  induction s as [|d s IH]; [reflexivity |]. cbn [lstrip].
  destruct (is_whitespace d); [| trivial].
  cbn [free_of]. intros Hf. apply andb_prop in Hf as [_ Hs]. now apply IH.
Qed.

Lemma free_of_rstrip (c : ascii) (s : string) :
  free_of c s = true -> free_of c (rstrip s) = true.
Proof.
  induction s as [|d s IH]; [reflexivity |]. cbn [free_of rstrip].
  intros Hf. apply andb_prop in Hf as [Hd Hs]. specialize (IH Hs).
  destruct (rstrip s) as [|e r].
  - destruct (is_whitespace d); [reflexivity |]. cbn [free_of]. now rewrite Hd.
  - cbn [free_of] in *. now rewrite Hd, IH.
Qed.

Lemma free_of_strip (c : ascii) (s : string) :
  free_of c s = true -> free_of c (strip s) = true.
Proof. intros Hf. unfold strip. now apply free_of_rstrip, free_of_lstrip. Qed.

Lemma rstrip_idempotent (s : string) : rstrip (rstrip s) = rstrip s.
Proof.
  induction s as [|c s IH]; [reflexivity |]. cbn [rstrip].
  destruct (rstrip s) as [|d r] eqn:Hr.
  - destruct (is_whitespace c) eqn:Hc; [reflexivity |]. cbn [rstrip]. now rewrite Hc.
  - change (match rstrip (String d r) with
            | EmptyString => if is_whitespace c then EmptyString else String c EmptyString
            | String x y => String c (String x y)
            end = String c (String d r)).
    now rewrite IH.
Qed.

Lemma lstrip_head (s : string) :
  match lstrip s with
  | EmptyString => True
  | String c _ => is_whitespace c = false
  end.
Proof.
  induction s as [|c s IH]; [exact I |]. cbn [lstrip].
  destruct (is_whitespace c) eqn:Hc; [exact IH | exact Hc].
Qed.

Lemma lstrip_rstrip (s : string) :
  match s with
  | EmptyString => True
  | String c _ => is_whitespace c = false
  end ->
  lstrip (rstrip s) = rstrip s.
Proof.
  destruct s as [|c s]; [reflexivity |]. intros Hc. cbn [rstrip].
  destruct (rstrip s); [rewrite Hc |]; cbn [lstrip]; now rewrite Hc.
Qed.

Lemma strip_idempotent (s : string) : strip (strip s) = strip s.
Proof.
  unfold strip. rewrite (lstrip_rstrip (lstrip s) (lstrip_head s)).
  apply rstrip_idempotent.
Qed.

Lemma dict_set_keys (d : list (string * string)) (k v : string) :
  map fst (dict_set d k v)
  = if existsb (String.eqb k) (map fst d) then map fst d else map fst d ++ [k].
Proof.
  induction d as [|[k' v'] d IH]; [reflexivity |]. cbn [dict_set map fst existsb].
  rewrite (String.eqb_sym k k'). destruct (String.eqb k' k) eqn:Hk; [reflexivity |].
  cbn [map fst orb]. rewrite IH. now destruct (existsb (String.eqb k) (map fst d)).
Qed.

Lemma dict_set_fresh (d : list (string * string)) (k v : string) :
  existsb (String.eqb k) (map fst d) = false -> dict_set d k v = d ++ [(k, v)].
Proof.
  induction d as [|[k' v'] d IH]; [reflexivity |]. cbn [dict_set map fst existsb].
  rewrite (String.eqb_sym k k'). destruct (String.eqb k' k); [discriminate |].
  cbn [orb]. intros Hd. now rewrite (IH Hd).
Qed.

Lemma dict_set_entries (P : string * string -> bool) (d : list (string * string))
      (k v : string) :
  forallb P d = true ->
  (forall k', String.eqb k' k = true -> P (k', v) = true) ->
  forallb P (dict_set d k v) = true.
Proof.
  intros Hd Hk. induction d as [|[k' v'] d IH]; cbn [dict_set forallb].
  - rewrite (Hk k (String.eqb_refl k)). reflexivity.
  - cbn [forallb] in Hd. apply andb_prop in Hd as [Hh Ht].
    destruct (String.eqb k' k) eqn:Hkk; cbn [forallb].
    + now rewrite (Hk k' Hkk), Ht.
    + now rewrite Hh, (IH Ht).
Qed.

Lemma NoDup_snoc (l : list string) (k : string) :
  List.NoDup l -> existsb (String.eqb k) l = false -> List.NoDup (l ++ [k]).
Proof.
  intros Hl. induction Hl as [|x l Hx Hl IH]; intros Hk.
  - cbn [app]. constructor; [| constructor]. intros Hin. destruct Hin.
  - cbn [existsb] in Hk. apply orb_false_iff in Hk as [Hkx Hk].
    cbn [app]. constructor; [| now apply IH].
    intros Hin. apply in_app_or in Hin as [Hin | Hin]; [now apply Hx |].
    destruct Hin as [<- | Hin]; [| destruct Hin].
    now rewrite String.eqb_refl in Hkx.
Qed.

Lemma dict_set_NoDup (d : list (string * string)) (k v : string) :
  List.NoDup (map fst d) -> List.NoDup (map fst (dict_set d k v)).
Proof.
  intros Hd. rewrite dict_set_keys.
  destruct (existsb (String.eqb k) (map fst d)) eqn:Hk; [exact Hd |].
  now apply NoDup_snoc.
Qed.

Lemma trimmed_strip (s : string) :
  String.eqb (strip s) "" = false -> trimmed (strip s) = true.
Proof.
  intros Hs. unfold trimmed. now rewrite strip_idempotent, String.eqb_refl, Hs.
Qed.

(** What the loop of [_parse_query_string] keeps true of the dictionary
    it fills: distinct keys, and pairs that can be written back. *)
Lemma parse_pair_invariant (d : list (string * string)) (pair : string) :
  free_of "," pair = true ->
  List.NoDup (map fst d) /\ forallb writable_pair d = true ->
  List.NoDup (map fst (parse_pair d pair)) /\ forallb writable_pair (parse_pair d pair) = true.
Proof.
  intros Hpair [Hnd Hw]. unfold parse_pair.
  destruct (split_first ":" pair) as [[a b]|] eqn:Hsplit; [| now split].
  destruct (negb (String.eqb (strip a) "") && negb (String.eqb (strip b) "")) eqn:Hne;
    [| now split].
  apply andb_prop in Hne as [Ha Hb]. apply negb_true_iff in Ha, Hb.
  destruct (split_first_parts ":" "," pair a b Hsplit) as [Hcolon Hcomma].
  destruct (Hcomma Hpair) as [Hac Hbc].
  split; [now apply dict_set_NoDup |].
  apply dict_set_entries; [exact Hw |].
  intros k' Hk'. apply String.eqb_eq in Hk'. subst k'.
  unfold writable_pair. cbn [fst snd].
  now rewrite !trimmed_strip, !free_of_strip by assumption.
Qed.

Lemma parse_pairs_invariant (pieces : list string) : forall d,
  forallb (free_of ",") pieces = true ->
  List.NoDup (map fst d) /\ forallb writable_pair d = true ->
  List.NoDup (map fst (fold_left parse_pair pieces d))
  /\ forallb writable_pair (fold_left parse_pair pieces d) = true.
Proof.
  induction pieces as [|p pieces IH]; intros d Hp Hd; [exact Hd |].
  cbn [forallb] in Hp. apply andb_prop in Hp as [Hhead Htail].
  cbn [fold_left]. apply IH; [exact Htail |]. now apply parse_pair_invariant.
Qed.

Lemma trimmed_eq (s : string) : trimmed s = true -> strip s = s /\ String.eqb s "" = false.
Proof.
  unfold trimmed. intros Ht. apply andb_prop in Ht as [Hs Hne].
  apply String.eqb_eq in Hs. apply negb_true_iff in Hne. now split.
Qed.

Lemma parse_written_pair (d : list (string * string)) (fq : string * string) :
  writable_pair fq = true ->
  parse_pair d (fst fq ++ ":" ++ snd fq) = dict_set d (fst fq) (snd fq).
Proof.
  unfold writable_pair. intros Hw.
  apply andb_prop in Hw as [Hw _]. apply andb_prop in Hw as [Hw Hcolon].
  apply andb_prop in Hw as [Hw _]. apply andb_prop in Hw as [Hf Hq].
  destruct (trimmed_eq _ Hf) as [Hsf Hnf]. destruct (trimmed_eq _ Hq) as [Hsq Hnq].
  unfold parse_pair.
  change (fst fq ++ ":" ++ snd fq)%string with (fst fq ++ String ":" (snd fq))%string.
  rewrite (split_first_separator ":" _ _ Hcolon). now rewrite Hsf, Hsq, Hnf, Hnq.
Qed.

Lemma written_pair_free (fq : string * string) :
  writable_pair fq = true -> free_of "," (fst fq ++ ":" ++ snd fq) = true.
Proof.
  unfold writable_pair. intros Hw.
  apply andb_prop in Hw as [Hw Hq]. apply andb_prop in Hw as [Hw _].
  apply andb_prop in Hw as [_ Hf].
  revert Hf. generalize (fst fq). intros a. induction a as [|c a IH]; intros Ha.
  - exact Hq.
  - cbn [free_of] in Ha. apply andb_prop in Ha as [Hc Ha].
    change (String c a ++ ":" ++ snd fq)%string with (String c (a ++ ":" ++ snd fq)).
    cbn [free_of]. now rewrite Hc, (IH Ha).
Qed.

Lemma parse_written_pairs (pairs : list (string * string)) : forall d,
  forallb writable_pair pairs = true ->
  List.NoDup (map fst d ++ map fst pairs) ->
  fold_left parse_pair (map (fun fq => fst fq ++ ":" ++ snd fq)%string pairs) d
  = d ++ pairs.
Proof.
  induction pairs as [|fq pairs IH]; intros d Hw Hnd; [now rewrite app_nil_r |].
  cbn [forallb] in Hw. apply andb_prop in Hw as [Hfq Hw].
  cbn [map fold_left]. rewrite (parse_written_pair d fq Hfq).
  assert (Hfresh : existsb (String.eqb (fst fq)) (map fst d) = false).
  { destruct (existsb (String.eqb (fst fq)) (map fst d)) eqn:Hex; [| reflexivity].
    apply existsb_exists in Hex as (k & Hk & Heq). apply String.eqb_eq in Heq. subst k.
    cbn [map] in Hnd. apply List.NoDup_remove_2 in Hnd. exfalso. apply Hnd.
    apply in_or_app. now left. }
  rewrite (dict_set_fresh d _ _ Hfresh). rewrite IH; [| exact Hw |].
  - rewrite <- app_assoc. now destruct fq.
  - rewrite map_app, <- app_assoc. exact Hnd.
Qed.

Lemma parse_written (pairs : list (string * string)) :
  pairs <> [] ->
  forallb writable_pair pairs = true ->
  List.NoDup (map fst pairs) ->
  _parse_query_string (write_queries pairs) = inr pairs.
Proof.
  intros Hne Hw Hnd. unfold _parse_query_string, write_queries.
  rewrite split_on_join.
  - rewrite (parse_written_pairs pairs [] Hw Hnd). cbn [app].
    destruct pairs; [contradiction | reflexivity].
  - destruct pairs; [contradiction | discriminate].
  - rewrite forallb_map. clear Hne Hnd.
    induction pairs as [|fq pairs IH]; [reflexivity |].
    cbn [forallb] in *. apply andb_prop in Hw as [Hfq Hw].
    now rewrite (written_pair_free fq Hfq), (IH Hw).
Qed.

(** X25. Round trip, on ASCII text: a non-empty list of pairs with
    distinct fields, in which every field and every query is a non-empty
    text without whitespace at its ends and without a comma, and no field
    has a colon, is read back by [_parse_query_string] from its written
    form [field:query,field:query,...], pair by pair and in order. A
    query may have colons: a pair is split at its first colon only. *)
Theorem parse_query_string_round_trip (pairs : list (string * string)) :
  pairs <> [] ->
  forallb writable_pair pairs = true ->
  List.NoDup (map fst pairs) ->
  _parse_query_string (write_queries pairs) = inr pairs
  /\ split_on "," (write_queries pairs)
     = map (fun fq => fst fq ++ ":" ++ snd fq)%string pairs.
Proof.
  intros Hne Hw Hnd. split; [now apply parse_written |].
  unfold write_queries. apply split_on_join.
  - destruct pairs; [contradiction | discriminate].
  - rewrite forallb_map. clear Hne Hnd.
    induction pairs as [|fq pairs IH]; [reflexivity |].
    cbn [forallb] in *. apply andb_prop in Hw as [Hfq Hw].
    now rewrite (written_pair_free fq Hfq), (IH Hw).
Qed.

(** X26. Whatever the (ASCII) text, [_parse_query_string] either
    raises the ValueError "No valid field:query pairs found..." or returns
    a dictionary that is not empty, in which every field and every query
    is a non-empty text without whitespace at its ends and without a
    comma, and no field has a colon; a query can therefore not contain a
    comma. Writing the dictionary out and parsing it again gives it
    back. *)
Theorem parse_query_string_result (queries : string) :
  match _parse_query_string queries with
  | inl e =>
      e = ValueError
            "No valid field:query pairs found. Use format: field:query,field:query"
  | inr query_dict =>
      query_dict <> []
      /\ List.NoDup (map fst query_dict)
      /\ forallb writable_pair query_dict = true
      /\ _parse_query_string (write_queries query_dict) = inr query_dict
  end.
Proof.
  unfold _parse_query_string.
  destruct (split_on_pieces "," queries) as [_ Hfree].
  destruct (parse_pairs_invariant (split_on "," queries) [] Hfree) as [Hnd Hw];
    [split; [constructor | reflexivity] |].
  destruct (fold_left parse_pair (split_on "," queries) []) as [|fq d] eqn:Hd;
    [reflexivity |].
  split; [discriminate |]. split; [exact Hnd |]. split; [exact Hw |].
  apply parse_written; [discriminate | exact Hw | exact Hnd].
Qed.

Section SearchErrors.

Context `{RegexEngine}.

(** X27. In regex mode [search_assets], and [search_by_field] on a
    searchable field, compile the query first. When [re.compile] raises
    [re.error], they raise ValueError('Invalid regex pattern: ' + query)
    without querying the store; when it raises another exception, such as
    the OverflowError of a repetition count that is too large, that
    exception passes through, and the store is not queried either; and
    when the query compiles, exactly one statement is sent. In text mode
    the query is never compiled, and any text is sent to the store
    between two [%]. *)
Theorem regex_search_rejects_invalid_pattern (query : string) (filters : option Filters)
        (case_sensitive : bool) (conn : Connection) :
  match validate_regex query with
  | inr false =>
      search_assets query filters true case_sensitive conn
      = ([], inl (ValueError ("Invalid regex pattern: " ++ query)%string))
      /\ (forall field,
             is_searchable field = true ->
             search_by_field field query true case_sensitive filters conn
             = ([], inl (ValueError ("Invalid regex pattern: " ++ query)%string)))
  | inl e =>
      search_assets query filters true case_sensitive conn = ([], inl e)
      /\ (forall field,
             is_searchable field = true ->
             search_by_field field query true case_sensitive filters conn = ([], inl e))
  | inr true =>
      (exists sql params,
          calls_of (search_assets query filters true case_sensitive conn)
          = [CallExecute sql params])
      /\ (forall field,
             is_searchable field = true ->
             exists sql params,
               calls_of (search_by_field field query true case_sensitive filters conn)
               = [CallExecute sql params])
  end
  /\ (exists sql params,
         calls_of (search_assets query filters false case_sensitive conn)
         = [CallExecute sql (wildcard query :: wildcard query :: wildcard query :: params)]).
Proof.
  split.
  - unfold search_assets, search_by_field.
    rewrite search_with_regex_cases.
    destruct (validate_regex query) as [e | [|]] eqn:Hv.
    + split; [reflexivity |]. intros field ->. cbn [negb].
      now rewrite search_field_with_regex_cases, Hv.
    + split.
      * rewrite fetch_then_ret_calls, fetch_filtered_call. unfold calls_of. cbn [fst].
        eexists. eexists. reflexivity.
      * intros field ->. cbn [negb]. rewrite search_field_with_regex_cases, Hv.
        rewrite fetch_then_ret_calls, fetch_filtered_call. unfold calls_of. cbn [fst].
        eexists. eexists. reflexivity.
    + split; [reflexivity |]. intros field ->. cbn [negb].
      now rewrite search_field_with_regex_cases, Hv.
  - unfold search_assets, _search_with_text. rewrite fetch_then_ret_calls.
    rewrite fetch_filtered_call. unfold calls_of. cbn [fst app].
    eexists. eexists. reflexivity.
Qed.

(** X28. A search has no handler for errors. When [search_assets] or
    [search_by_field] fails, either nothing was sent to the store, and
    the error is a ValueError of the search itself or, in regex mode, the
    exception that [re.compile] raised for the query; or exactly one
    statement was sent, and the error is the one the store raised for
    it, unchanged. *)
Theorem search_errors_come_from_the_store (conn : Connection) (e : Exc) :
  (forall query filters use_regex case_sensitive,
      outcome (search_assets query filters use_regex case_sensitive conn) = inl e ->
      (calls_of (search_assets query filters use_regex case_sensitive conn) = []
       /\ ((exists msg, e = ValueError msg)
           \/ (use_regex = true /\ validate_regex query = inl e)))
      \/ exists sql params,
           calls_of (search_assets query filters use_regex case_sensitive conn)
           = [CallExecute sql params]
           /\ execute conn sql params = inl e)
  /\ (forall field query use_regex case_sensitive filters,
         outcome (search_by_field field query use_regex case_sensitive filters conn)
         = inl e ->
         (calls_of (search_by_field field query use_regex case_sensitive filters conn) = []
          /\ ((exists msg, e = ValueError msg)
              \/ (use_regex = true /\ validate_regex query = inl e)))
         \/ exists sql params,
              calls_of (search_by_field field query use_regex case_sensitive filters conn)
              = [CallExecute sql params]
              /\ execute conn sql params = inl e)
  /\ (forall sql params filters,
         outcome (fetch_filtered sql params filters conn) = inl e ->
         forall (A : Type) (f : list Row -> A),
           outcome (bind (fetch_filtered sql params filters)
                         (fun rows => ret (f rows)) conn) = inl e).
Proof.
  assert (Hfetch : forall (A : Type) sql params filters (f : list Row -> A),
             outcome (bind (fetch_filtered sql params filters)
                           (fun rows => ret (f rows)) conn) = inl e ->
             exists sql' params',
               calls_of (bind (fetch_filtered sql params filters)
                              (fun rows => ret (f rows)) conn)
               = [CallExecute sql' params']
               /\ execute conn sql' params' = inl e).
  { intros A sql params filters f. rewrite fetch_then_ret_calls.
    unfold bind, ret, outcome, calls_of. rewrite fetch_filtered_call. cbn [fst snd].
    destruct (execute conn _ _) as [e' | rows] eqn:Hex; [| discriminate].
    intros [= ->]. eexists. eexists. split; [reflexivity | exact Hex]. }
  split; [| split].
  - intros query filters use_regex case_sensitive. unfold search_assets.
    destruct use_regex.
    + rewrite search_with_regex_cases.
      destruct (validate_regex query) as [e' | [|]] eqn:Hv.
      * intros [= <-]. left. split; [reflexivity |]. right. now split.
      * intros Hout. right. now apply Hfetch.
      * intros [= <-]. left. split; [reflexivity |]. left. eexists. reflexivity.
    + unfold _search_with_text. intros Hout. right. now apply Hfetch.
  - intros field query use_regex case_sensitive filters. unfold search_by_field.
    destruct (is_searchable field); cbn [negb].
    + destruct use_regex.
      * rewrite search_field_with_regex_cases.
        destruct (validate_regex query) as [e' | [|]] eqn:Hv.
        -- intros [= <-]. left. split; [reflexivity |]. right. now split.
        -- intros Hout. right. now apply Hfetch.
        -- intros [= <-]. left. split; [reflexivity |]. left. eexists. reflexivity.
      * unfold _search_field_with_text. intros Hout. right. now apply Hfetch.
    + intros [= <-]. left. split; [reflexivity |]. left. eexists. reflexivity.
  - intros sql params filters Hout A f. unfold bind, outcome in Hout |- *.
    destruct (fetch_filtered sql params filters conn) as [calls [e' | rows]];
      cbn [snd] in Hout |- *; [now injection Hout as -> | discriminate Hout].
Qed.

End SearchErrors.

(* ===================================================================== *)
(** * Further properties: the pages of the results *)
(* ===================================================================== *)

Lemma total_pages_bounds (total page_size : Z) :
  (1 <= page_size)%Z ->
  (((total + page_size - 1) / page_size - 1) * page_size < total
   <= (total + page_size - 1) / page_size * page_size)%Z.
Proof.
  intros Hs.
  pose proof (Z.mul_div_le (total + page_size - 1) page_size ltac:(lia)) as Hle.
  pose proof (Z.mul_succ_div_gt (total + page_size - 1) page_size ltac:(lia)) as Hgt.
  nia.
Qed.

(** X29. For at least one result and a page size of at least one, the
    page arithmetic of the result display gives at least one page, as
    few pages as hold all results, a page number brought into the range
    of the pages (and left alone when it is in it), and a slice that is
    inside the results, is not empty, has at most [page_size] items and
    exactly that many on every page but the last. A page size of zero
    raises ZeroDivisionError. *)
Theorem page_window_bounds (total page page_size : Z) :
  (1 <= total)%Z -> (1 <= page_size)%Z ->
  page_window total page 0 = None
  /\ exists w,
       page_window total page page_size = Some w
       /\ (1 <= total_pages w)%Z
       /\ ((total_pages w - 1) * page_size < total <= total_pages w * page_size)%Z
       /\ (1 <= shown_page w <= total_pages w)%Z
       /\ ((1 <= page <= total_pages w)%Z -> shown_page w = page)
       /\ (0 <= start_idx w < end_idx w)%Z /\ (end_idx w <= total)%Z
       /\ (end_idx w - start_idx w <= page_size)%Z
       /\ ((shown_page w < total_pages w)%Z ->
           (end_idx w - start_idx w = page_size)%Z).
Proof.
  intros Ht Hs. split; [reflexivity |].
  unfold page_window. destruct (Z.eqb_spec page_size 0) as [-> | _]; [lia |].
  eexists. split; [reflexivity |].
  cbn [total_pages shown_page start_idx end_idx].
  pose proof (total_pages_bounds total page_size Hs) as [Hlow Hhigh].
  set (pages := ((total + page_size - 1) / page_size)%Z) in *.
  assert (Hpages : (1 <= pages)%Z) by nia.
  destruct (Z.ltb_spec page 1) as [Hsmall | Hbig].
  - repeat split; try lia; try nia.
  - destruct (Z.gtb_spec page pages) as [Hover | Hin].
    + repeat split; try lia; try nia.
    + repeat split; try lia; try nia.
Qed.

Lemma firstn_add_skipn {A : Type} (a b : nat) (l : list A) :
  firstn (a + b) l = firstn a l ++ firstn b (skipn a l).
Proof.
  revert l. induction a as [|a IH]; intros l; [reflexivity |].
  destruct l as [|x l]; [now destruct b |]. cbn [Nat.add firstn skipn app].
  now rewrite IH.
Qed.

Lemma firstn_min_length {A : Type} (k : nat) (l : list A) :
  firstn (Nat.min k (length l)) l = firstn k l.
Proof.
  revert l. induction k as [|k IH]; intros l; [reflexivity |].
  destruct l as [|x l]; [reflexivity |]. cbn [length Nat.min firstn]. now rewrite IH.
Qed.

(** The pages of [size] items, one after the other, are the first items
    of the list. *)
Lemma pages_prefix {A : Type} (size : nat) (l : list A) (count : nat) :
  flat_map (fun p => firstn size (skipn ((p - 1) * size) l)) (seq 1 count)
  = firstn (count * size) l.
Proof.
  induction count as [|count IH]; [reflexivity |].
  rewrite seq_S, flat_map_app, IH. cbn [flat_map Nat.add]. rewrite app_nil_r.
  replace (S count - 1) with count by lia.
  replace (S count * size) with (count * size + size) by lia.
  now rewrite firstn_add_skipn.
Qed.

Lemma flat_map_pointwise {A B : Type} (f g : A -> list B) (l : list A) :
  (forall a, In a l -> f a = g a) -> flat_map f l = flat_map g l.
Proof.
  intros Hfg. induction l as [|a l IH]; [reflexivity |]. cbn [flat_map].
  rewrite (Hfg a) by now left. f_equal. apply IH. intros a' Ha'. apply Hfg. now right.
Qed.

(** The slice of a page that is one of the pages. *)
Lemma page_results_chunk {A : Type} (results : list A) (page_size : Z) (p : nat) :
  (1 <= page_size)%Z ->
  1 <= p ->
  (Z.of_nat p <= (Z.of_nat (length results) + page_size - 1) / page_size)%Z ->
  page_results results (Z.of_nat p) page_size
  = Some (firstn (Z.to_nat page_size)
                 (skipn ((p - 1) * Z.to_nat page_size) results)).
Proof.
  intros Hs Hp Hpages. unfold page_results, page_window.
  destruct (Z.eqb_spec page_size 0) as [-> | _]; [lia |].
  pose proof (total_pages_bounds (Z.of_nat (length results)) page_size Hs) as [Hlow Hhigh].
  set (pages := ((Z.of_nat (length results) + page_size - 1) / page_size)%Z) in *.
  destruct (Z.ltb_spec (Z.of_nat p) 1) as [Hsmall | _]; [lia |].
  destruct (Z.gtb_spec (Z.of_nat p) pages) as [Hover | _]; [lia |].
  cbn [start_idx end_idx]. f_equal. unfold py_slice, slice_index.
  set (start := ((Z.of_nat p - 1) * page_size)%Z).
  assert (Hstart : (0 <= start < Z.of_nat (length results))%Z) by (unfold start; nia).
  destruct (Z.ltb_spec start 0) as [Hneg | _]; [lia |].
  destruct (Z.ltb_spec (Z.min (start + page_size) (Z.of_nat (length results))) 0)
    as [Hneg | _]; [lia |].
  replace (Z.to_nat (Z.min start (Z.of_nat (length results))))
    with ((p - 1) * Z.to_nat page_size) by (unfold start; nia).
  rewrite <- (firstn_min_length (Z.to_nat page_size)).
  f_equal. rewrite length_skipn. unfold start. nia.
Qed.

(** X30. For a page size of at least one, the pages 1, 2, ..., up to the
    number of pages, shown one after the other, are the results: every
    result is on exactly one page, in the order of the results, and
    nothing else is shown. *)
Theorem pages_cover_results {A : Type} (results : list A) (page_size : Z) :
  (1 <= page_size)%Z ->
  flat_map (fun p => default [] (page_results results (Z.of_nat p) page_size))
           (seq 1 (Z.to_nat ((Z.of_nat (length results) + page_size - 1) / page_size)))
  = results.
Proof.
  intros Hs.
  pose proof (total_pages_bounds (Z.of_nat (length results)) page_size Hs) as [Hlow Hhigh].
  set (pages := ((Z.of_nat (length results) + page_size - 1) / page_size)%Z) in *.
  rewrite (flat_map_pointwise _
             (fun p => firstn (Z.to_nat page_size)
                              (skipn ((p - 1) * Z.to_nat page_size) results))).
  - rewrite pages_prefix. apply firstn_all2. nia.
  - intros p Hp. apply in_seq in Hp.
    rewrite page_results_chunk; [reflexivity | exact Hs | lia |].
    fold pages. lia.
Qed.

(* ===================================================================== *)
(** * Further properties: samples *)
(* ===================================================================== *)

Lemma category_without_rule_scores_zero_witness :
  has_rule (compiled_rules (matchers default_engine)) VIDEO = false
  /\ scores (categorize default_engine python_guide) VIDEO = 0%float
  /\ scores (categorize default_engine python_guide) EBOOK = 1.8800000000000001%float.
Proof.
  split; [vm_compute; reflexivity |]. split; [| vm_compute; reflexivity].
  destruct (category_without_rule_scores_zero (H := mini_re)
              default_engine python_guide VIDEO) as [Hz _];
    [vm_compute; reflexivity | vm_compute; reflexivity | exact Hz].
Defined.

Lemma selected_category_has_rule_witness :
  result_category (categorize default_engine game_tool) = GAME
  /\ forall c, PrimFloat.ltb (scores (categorize default_engine game_tool) c) 0 = false.
Proof.
  split; [vm_compute; reflexivity |].
  generalize (selected_category_has_rule (H := mini_re) default_engine game_tool).
  cbv zeta. intros Hsel.
  destruct Hsel as [Hnn _]; [vm_compute; reflexivity | vm_compute; reflexivity | exact Hnn].
Defined.

Lemma factory_engines_categories_witness :
  create_generic_engine (H := mini_re) = Some default_engine
  /\ In (result_category (categorize default_engine game_tool))
        [EBOOK; GAME; SOFTWARE; AUDIO; SUBSCRIPTION_CONTENT].
Proof.
  assert (Hg : create_generic_engine (H := mini_re) = Some default_engine)
    by (vm_compute; reflexivity).
  split; [exact Hg |].
  destruct (factory_engines_categories (H := mini_re) default_engine game_tool)
    as [Hgeneric _].
  exact (Hgeneric Hg).
Defined.

Lemma add_rule_replaces_pattern_matcher_witness :
  exists engine',
    add_rule (H := mini_re) mixed_engine guide_rule = Some engine'
    /\ rules engine' = rules mixed_engine ++ [guide_rule]
    /\ length (matchers engine') = length (matchers mixed_engine).
Proof.
  exists (engine_of (add_rule (H := mini_re) mixed_engine guide_rule)).
  assert (Hadd : add_rule (H := mini_re) mixed_engine guide_rule
                 = Some (engine_of (add_rule (H := mini_re) mixed_engine guide_rule)))
    by (vm_compute; reflexivity).
  destruct (add_rule_replaces_pattern_matcher (H := mini_re) _ _ _ Hadd)
    as (Hrules & Hlen & _).
  split; [exact Hadd |]. split; [exact Hrules | exact Hlen].
Defined.

Lemma add_rule_adds_score_witness :
  exists engine' cr,
    add_rule (H := mini_re) (mkEngine [PatternMatcher default_compiled_rules]
                                      _load_default_rules) guide_rule = Some engine'
    /\ compile_rule (H := mini_re) guide_rule = Some cr
    /\ engine' = mkEngine [PatternMatcher (default_compiled_rules ++ [cr])]
                          (_load_default_rules ++ [guide_rule]).
Proof.
  assert (Hcs : _compile_patterns (H := mini_re) _load_default_rules
                = Some default_compiled_rules) by (vm_compute; reflexivity).
  assert (Hadd : add_rule (H := mini_re)
                   (mkEngine [PatternMatcher default_compiled_rules] _load_default_rules)
                   guide_rule
                 = Some (engine_of
                           (add_rule (H := mini_re)
                              (mkEngine [PatternMatcher default_compiled_rules]
                                        _load_default_rules) guide_rule)))
    by (vm_compute; reflexivity).
  destruct (add_rule_adds_score (H := mini_re) _ _ _ _ Hcs Hadd) as (cr & Hcr & Heq & _).
  eexists. exists cr. split; [exact Hadd |]. split; [exact Hcr | exact Heq].
Defined.

Lemma humble_engine_extends_generic_witness :
  create_generic_engine (H := mini_re) = Some default_engine
  /\ create_humble_bundle_engine (H := mini_re) = Some humble_engine
  /\ rules humble_engine = rules default_engine ++ humble_rules.
Proof.
  assert (Hg : create_generic_engine (H := mini_re) = Some default_engine)
    by (vm_compute; reflexivity).
  assert (Hh : create_humble_bundle_engine (H := mini_re) = Some humble_engine)
    by (vm_compute; reflexivity).
  split; [exact Hg |]. split; [exact Hh |].
  destruct (humble_engine_extends_generic (H := mini_re) _ _ Hg Hh) as [Hrules _].
  exact Hrules.
Defined.

Lemma unread_key_is_ignored_witness :
  existsb (String.eqb "tags") (engine_fields (matchers default_engine)) = false
  /\ same_result (categorize default_engine (<["tags" := PyStr "book"]> python_guide))
                 (categorize default_engine python_guide).
Proof.
  split; [vm_compute; reflexivity |].
  destruct (unread_key_is_ignored (H := mini_re) default_engine python_guide
                                  "tags" (PyStr "book")) as [Hset _];
    [vm_compute; reflexivity | vm_compute; reflexivity | exact Hset].
Defined.

Lemma categorize_ignores_case_witness :
  same_result
    (categorize default_engine (<["human_name" := PyStr "Python GUIDE"]> (∅ : Item)))
    (categorize default_engine (<["human_name" := PyStr (lower "Python GUIDE")]> (∅ : Item))).
Proof.
  apply (categorize_ignores_case (H := mini_re)). vm_compute. reflexivity.
Defined.

Lemma false_value_is_missing_witness :
  same_result (categorize default_engine (<["description" := PyNone]> python_guide))
              (categorize default_engine (delete "description" python_guide)).
Proof.
  apply (false_value_is_missing (H := mini_re)); [vm_compute; reflexivity | reflexivity].
Defined.

Lemma search_advanced_rejects_operator_witness :
  search_advanced (H := mini_re) [("human_name", "x")] None false false "and"
                  sample_connection
  = ([], inl (ValueError "Operator must be 'AND' or 'OR'")).
Proof.
  apply (search_advanced_rejects_operator (H := mini_re)); discriminate.
Defined.

(** Without queries: nothing in text mode, the three records of the
    store in regex mode with 'AND'. *)
Lemma search_advanced_without_queries_witness :
  search_advanced (H := mini_re) [] None false false "AND" sample_connection
  = ([], inr [])
  /\ outcome (search_advanced (H := mini_re) [] None true false "AND" sample_connection)
     = inr [format_row (projection atom_editor); format_row (projection python_book);
            format_row (projection terraria)].
Proof.
  destruct (search_advanced_without_queries (H := mini_re) None false sample_connection)
    as (Htext & Hand & _).
  split; [apply Htext; left; reflexivity |].
  rewrite Hand. vm_compute. reflexivity.
Defined.

(** The second pattern is refused with [re.error]; with the engine
    [overflow_re] the pattern 'a{4294967296}' makes [re.compile] raise
    OverflowError, which passes through. *)
Lemma advanced_regex_rejects_invalid_pattern_witness :
  search_advanced (H := mini_re)
                  ([("human_name", "py")] ++ ("category", "[invalid") :: [])
                  None true false "AND" sample_connection
  = ([], inl (ValueError "Invalid regex pattern for field 'category': [invalid"))
  /\ search_advanced (H := overflow_re)
                     ([("human_name", "py")] ++ ("category", "a{4294967296}") :: [])
                     None true false "AND" sample_connection
     = ([], inl (OverflowError "the repetition number is too large")).
Proof.
  split.
  - apply (proj1 (advanced_regex_rejects_invalid_pattern (H := mini_re)
                    [("human_name", "py")] [] "category" "[invalid" None false "AND"
                    sample_connection (or_introl eq_refl)
                    ltac:(repeat constructor))).
    vm_compute. reflexivity.
  - apply (proj2 (advanced_regex_rejects_invalid_pattern (H := overflow_re)
                    [("human_name", "py")] [] "category" "a{4294967296}" None false "AND"
                    sample_connection (or_introl eq_refl)
                    ltac:(repeat constructor))).
    vm_compute. reflexivity.
Defined.

Lemma advanced_and_within_or_witness :
  exists with_and with_or,
    outcome (search_advanced (H := mini_re) [("human_name", "o"); ("category", "game")]
                             None true false "AND" sample_connection) = inr with_and
    /\ outcome (search_advanced (H := mini_re) [("human_name", "o"); ("category", "game")]
                                None true false "OR" sample_connection) = inr with_or
    /\ length with_and = 0 /\ length with_or = 3
    /\ sublist with_and with_or.
Proof.
  eexists. eexists.
  split; [vm_compute; reflexivity |]. split; [vm_compute; reflexivity |].
  split; [reflexivity |]. split; [reflexivity |].
  apply (advanced_and_within_or (H := mini_re) [("human_name", "o"); ("category", "game")]
                                None false sample_connection);
    [discriminate | vm_compute; reflexivity | vm_compute; reflexivity].
Defined.

Lemma single_query_is_field_search_witness :
  search_advanced (H := mini_re) [("human_name", "py")] None false false "OR"
                  sample_connection
  = search_by_field (H := mini_re) "human_name" "py" false false None sample_connection.
Proof.
  destruct (single_query_is_field_search (H := mini_re) "human_name" "py" None false "OR"
                                         sample_connection) as [Htext _];
    [reflexivity | right; reflexivity | exact Htext].
Defined.

(** The text search finds 'SANDBOX' in the description of the first
    record, whatever the case. *)
Lemma text_search_on_table_witness :
  outcome (search_assets (H := mini_re) "SANDBOX" None false false sample_connection)
  = inr [format_row (projection terraria)].
Proof.
  destruct (text_search_on_table (H := mini_re) "SANDBOX" None false sample_table 3 0
              [(Some "game", 1%Z); (Some "ebook", 1%Z); (Some "software", 1%Z)]
              [(Some "humble_bundle", 3%Z)]) as [Hout _].
  unfold sample_connection. rewrite Hout. vm_compute. reflexivity.
Defined.

(** The record "Python Guide" is an ebook; the search for the name
    'python' or the developer 'zzz' among the software returns it. *)
Lemma advanced_text_search_on_table_witness :
  holds_in_store (Some (mkFilters (Some "software") None None None None)) python_book
  = false
  /\ exists assets,
       outcome (search_advanced (H := mini_re)
                  [("human_name", "python"); ("developer", "zzz")]
                  (Some (mkFilters (Some "software") None None None None))
                  false false "OR" sample_connection) = inr assets
       /\ In (format_row (projection python_book)) assets.
Proof.
  split; [vm_compute; reflexivity |].
  destruct (advanced_text_search_on_table (H := mini_re)
              [("human_name", "python"); ("developer", "zzz")]
              (Some (mkFilters (Some "software") None None None None)) false
              sample_table 3 0
              [(Some "game", 1%Z); (Some "ebook", 1%Z); (Some "software", 1%Z)]
              [(Some "humble_bundle", 3%Z)])
    as (_ & Hor & Hin); [discriminate | vm_compute; reflexivity |].
  eexists. split; [exact Hor |].
  apply (Hin _ python_book ("human_name", "python") Hor).
  - unfold sample_table. simpl. tauto.
  - simpl. tauto.
  - vm_compute. reflexivity.
Defined.

Lemma field_regex_search_on_table_witness :
  exists assets,
    outcome (search_by_field (H := mini_re) "human_name" "^py" true false None
                             sample_connection) = inr assets
    /\ In (format_row (projection python_book)) assets.
Proof.
  destruct (field_regex_search_on_table (H := mini_re) "human_name" "^py" false None
              sample_table 3 0
              [(Some "game", 1%Z); (Some "ebook", 1%Z); (Some "software", 1%Z)]
              [(Some "humble_bundle", 3%Z)])
    as [_ Hin]; [reflexivity | vm_compute; reflexivity |].
  apply (Hin python_book).
  - unfold sample_table. simpl. tauto.
  - reflexivity.
  - vm_compute. reflexivity.
Defined.

Lemma advanced_regex_never_read_field_witness :
  search_advanced (H := mini_re)
                  ([] ++ ("description", "Sandbox") :: [("human_name", "o")])
                  None true false "AND" sample_connection
  = (calls_of (fetch_filtered [] [] None sample_connection),
     match outcome (fetch_filtered [] [] None sample_connection) with
     | inl e => inl e
     | inr _ => inr []
     end).
Proof.
  destruct (advanced_regex_never_read_field (H := mini_re)
              [] [("human_name", "o")] "description" "Sandbox" None false
              sample_connection) as [Hand _];
    [reflexivity | repeat constructor | exact Hand].
Defined.

Lemma parse_query_string_round_trip_witness :
  _parse_query_string (write_queries [("human_name", "python"); ("tags", "a:b")])
  = inr [("human_name", "python"); ("tags", "a:b")]
  /\ write_queries [("human_name", "python"); ("tags", "a:b")]
     = "human_name:python,tags:a:b".
Proof.
  split; [| reflexivity].
  destruct (parse_query_string_round_trip [("human_name", "python"); ("tags", "a:b")])
    as [Hparse _].
  - discriminate.
  - vm_compute. reflexivity.
  - constructor; [simpl; intros [Heq | []]; discriminate Heq |].
    constructor; [simpl; tauto | constructor].
  - exact Hparse.
Defined.

(** Forty-five results, twenty to the page: three pages; the page 7 that
    is asked for is brought back to the last, which shows the results 41
    to 45. *)
Lemma page_window_bounds_witness :
  page_window 45 7 20 = Some (mkPageWindow 3 3 40 45)
  /\ exists w, page_window 45 7 20 = Some w /\ (1 <= shown_page w <= total_pages w)%Z.
Proof.
  split; [reflexivity |].
  destruct (page_window_bounds 45 7 20) as [_ (w & Hw & _ & _ & Hpage & _)]; [lia | lia |].
  exists w. split; [exact Hw | exact Hpage].
Defined.

Lemma pages_cover_results_witness :
  flat_map (fun p => default [] (page_results [1; 2; 3; 4; 5] (Z.of_nat p) 2))
           (seq 1 (Z.to_nat ((Z.of_nat (length [1; 2; 3; 4; 5]) + 2 - 1) / 2)))
  = [1; 2; 3; 4; 5]
  /\ page_results [1; 2; 3; 4; 5] 3 2 = Some [5].
Proof.
  split; [| reflexivity].
  apply (pages_cover_results [1; 2; 3; 4; 5] 2). lia.
Defined.

(** The text '0' is given and is read as zero: the key 'rating_max' is
    set, the dictionary is not empty, and no condition is derived from
    it. The text 'abc' makes [float] raise, and so does the function. *)
Lemma build_search_filters_normalises_witness :
  _build_search_filters decimal_float (Some "game") None None None
                        (Some (RatingText "0"))
  = inr (mkFilters (Some "game") None None None (Some 0%float))
  /\ filter_conditions (mkFilters (Some "game") None None None (Some 0%float))
     = [(CategoryEq, PText "game")]
  /\ (forall x, ~ In (RatingLe, PNum x)
                    (filter_conditions
                       (mkFilters (Some "game") None None None (Some 0%float))))
  /\ _build_search_filters decimal_float None None None (Some (RatingText "abc"))
                           (Some (RatingNumber 4.5%float))
     = inl (ValueError "could not convert string to float: 'abc'").
Proof.
  assert (Hbuilt : _build_search_filters decimal_float (Some "game") None None None
                                         (Some (RatingText "0"))
                   = inr (mkFilters (Some "game") None None None (Some 0%float)))
    by (vm_compute; reflexivity).
  split; [exact Hbuilt |]. split; [vm_compute; reflexivity |]. split.
  - intros x Hin.
    destruct (build_search_filters_normalises decimal_float (Some "game") None None None
                (Some (RatingText "0"))) as (_ & Hkept & _).
    destruct (Hkept _ Hbuilt) as (_ & _ & _ & _ & _ & _ & Hmax).
    apply Hmax in Hin as [Hx Hzero]. cbn [filter_rating_max] in Hx.
    injection Hx as <-. vm_compute in Hzero. discriminate Hzero.
  - apply (proj1 (build_search_filters_normalises decimal_float None None None
                    (Some (RatingText "abc")) (Some (RatingNumber 4.5%float)))).
    left. vm_compute. reflexivity.
Defined.

(** With [overflow_re], the pattern 'a{4294967296}' makes [re.compile]
    raise OverflowError: the search raises it and sends nothing; the
    pattern '[invalid' is refused with the ValueError of the search. *)
Lemma regex_search_rejects_invalid_pattern_witness :
  search_assets (H := overflow_re) "a{4294967296}" None true false sample_connection
  = ([], inl (OverflowError "the repetition number is too large"))
  /\ search_assets (H := overflow_re) "[invalid" None true false sample_connection
     = ([], inl (ValueError "Invalid regex pattern: [invalid")).
Proof.
  split.
  - exact (proj1 (proj1 (regex_search_rejects_invalid_pattern
                           (H := overflow_re) "a{4294967296}" None false
                           sample_connection))).
  - exact (proj1 (proj1 (regex_search_rejects_invalid_pattern
                           (H := overflow_re) "[invalid" None false sample_connection))).
Defined.

(** The three ways a search fails: the OverflowError of [re.compile],
    nothing sent; the ValueError for an unknown field, nothing sent; the
    error of a store that fails, for the one statement sent. *)
Lemma search_errors_come_from_the_store_witness :
  validate_regex (H := overflow_re) "a{4294967296}"
  = inl (OverflowError "the repetition number is too large")
  /\ search_assets (H := overflow_re) "a{4294967296}" None true false sample_connection
     = ([], inl (OverflowError "the repetition number is too large"))
  /\ (exists sql params,
         calls_of (search_assets (H := overflow_re) "py" None true false broken_connection)
         = [CallExecute sql params]
         /\ execute broken_connection sql params
            = inl (StoreError "no such table: products")).
Proof.
  split; [vm_compute; reflexivity |]. split; [vm_compute; reflexivity |].
  destruct (proj1 (search_errors_come_from_the_store
                     (H := overflow_re) broken_connection
                     (StoreError "no such table: products"))
                  "py" None true false ltac:(vm_compute; reflexivity))
    as [[Hcalls _] | Hsent].
  - vm_compute in Hcalls. discriminate Hcalls.
  - exact Hsent.
Defined.
